(** * TravelMate browser client: API client, map places, session shell

    A shallow embedding of the parts of the TravelMate front end that the
    specification makes claims about:

    - [Config.checkRateLimit]            (frontend/config.js)
    - [ErrorHandler], [APIClient]         (frontend/map-places.js, utility part)
    - [MapPlacesManager]                  (map places integration)
    - [TravelMateApp]                     (main application)
    - [calculateRealRoute]                (frontend/features.js)

    JavaScript objects used as dictionaries are finite maps, arrays are
    lists, [Date.now()] is a clock field of the world, and code that can
    throw runs in a state-and-exception monad so that a [try]/[catch] keeps
    the mutations made before the throw, as it does in the browser. *)

From Stdlib Require Import ZArith QArith Lia Ascii String List.
From stdpp Require Import base option list gmap strings pretty.

Local Open Scope string_scope.
Local Open Scope Z_scope.

(** ** JavaScript values *)

Module Js.

(** [s.includes(sub)] on strings. *)
Fixpoint includes (sub s : string) : bool :=
  String.prefix sub s ||
  match s with
  | EmptyString => false
  | String _ s' => includes sub s'
  end.

(** [s.startsWith(p)] *)
Definition startsWith (p s : string) : bool := String.prefix p s.

Definition upper_ascii (c : ascii) : ascii :=
  let n := nat_of_ascii c in
  if (97 <=? n)%nat && (n <=? 122)%nat then ascii_of_nat (n - 32) else c.

(** [s.toUpperCase()] on the ASCII range, which is all a method name uses. *)
Fixpoint toUpperCase (s : string) : string :=
  match s with
  | EmptyString => EmptyString
  | String c s' => String (upper_ascii c) (toUpperCase s')
  end.

(** Errors as the code inspects them: [error.name] and [error.message]. *)
Record error := mkError { err_name : string; err_message : string }.

Definition Error (msg : string) : error := mkError "Error" msg.
Definition TypeError (msg : string) : error := mkError "TypeError" msg.
Definition AbortError : error := mkError "AbortError" "The operation was aborted.".

(** Parsed JSON documents. Numbers are carried around, never computed on. *)
#[warnings="-register-all"]
Inductive json :=
| JNull
| JBool (b : bool)
| JNum (q : Q)
| JStr (s : string)
| JArr (items : list json)
| JObj (fields : list (string * json)).

(** JavaScript truthiness of a JSON value. *)
Definition truthy (j : json) : bool :=
  match j with
  | JNull => false
  | JBool b => b
  | JNum q => negb (Qeq_bool q 0)
  | JStr s => negb (String.eqb s EmptyString)
  | JArr _ | JObj _ => true
  end.

Fixpoint assoc (k : string) (fs : list (string * json)) : option json :=
  match fs with
  | [] => None
  | (k', v) :: fs' => if String.eqb k k' then Some v else assoc k fs'
  end.

Definition join (sep : string) (l : list string) : string :=
  match l with
  | [] => EmptyString
  | x :: l' => fold_left (fun acc y => acc ++ sep ++ y) l' x
  end.

Definition dquote : string := String (ascii_of_nat 34) EmptyString.

Definition quote (s : string) : string := dquote ++ s ++ dquote.

(** Stands for the number printer of [JSON.stringify]: one text per
    fraction as stored. *)
Definition number_to_string (q : Q) : string :=
  pretty (Qnum q) ++ "/" ++ pretty (Zpos (Qden q)).

(** [JSON.stringify(j)] *)
Fixpoint stringify (j : json) : string :=
  match j with
  | JNull => "null"
  | JBool true => "true"
  | JBool false => "false"
  | JNum q => number_to_string q
  | JStr s => quote s
  | JArr items => "[" ++ join "," (map stringify items) ++ "]"
  | JObj fields =>
      "{" ++ join "," (map (fun kv => quote (fst kv) ++ ":" ++ stringify (snd kv)) fields) ++ "}"
  end.

(** [o.k] for a non-null [o]; [None] is [undefined]. A later duplicate key
    wins in [JSON.parse]; the parser output modelled here has unique keys. *)
Definition prop (k : string) (j : json) : option json :=
  match j with
  | JObj fs => assoc k fs
  | _ => None
  end.

(** [String(v)] for a property that may be missing ([undefined]). *)
Definition to_string (v : option json) : string :=
  match v with
  | None => "undefined"
  | Some (JStr s) => s
  | Some j => stringify j
  end.

(** Characters are code units below 256. Of the characters [\s] and
    [trim] treat as white space, these are the ones in that range. *)
Definition is_space (c : ascii) : bool :=
  let n := nat_of_ascii c in
  (((9 <=? n) && (n <=? 13)) || (n =? 32) || (n =? 160))%nat.

Fixpoint trimStart (s : string) : string :=
  match s with
  | EmptyString => EmptyString
  | String c s' => if is_space c then trimStart s' else s
  end.

Fixpoint rev_append (s acc : string) : string :=
  match s with
  | EmptyString => acc
  | String c s' => rev_append s' (String c acc)
  end.

Definition reverse (s : string) : string := rev_append s EmptyString.

(** [s.trim()] *)
Definition trim (s : string) : string :=
  reverse (trimStart (reverse (trimStart s))).

(** Regular expressions, as far as the literals of the program need them,
    matched by derivatives. *)
Inductive regex :=
| Void
| Eps
| Class (p : ascii -> bool)
| Cat (r1 r2 : regex)
| Alt (r1 r2 : regex)
| Star (r : regex).

Definition Plus (r : regex) : regex := Cat r (Star r).

Fixpoint nullable (r : regex) : bool :=
  match r with
  | Void => false
  | Eps => true
  | Class _ => false
  | Cat r1 r2 => nullable r1 && nullable r2
  | Alt r1 r2 => nullable r1 || nullable r2
  | Star _ => true
  end.

Fixpoint deriv (c : ascii) (r : regex) : regex :=
  match r with
  | Void | Eps => Void
  | Class p => if p c then Eps else Void
  | Cat r1 r2 =>
      if nullable r1 then Alt (Cat (deriv c r1) r2) (deriv c r2)
      else Cat (deriv c r1) r2
  | Alt r1 r2 => Alt (deriv c r1) (deriv c r2)
  | Star r1 => Cat (deriv c r1) (Star r1)
  end.

(** [/^r$/.test(s)] *)
Fixpoint test_anchored (r : regex) (s : string) : bool :=
  match s with
  | EmptyString => nullable r
  | String c s' => test_anchored (deriv c r) s'
  end.

End Js.

(** ** Configuration (frontend/config.js) *)

Module Config.

Inductive environment := development | staging | production.

Definition env_name (e : environment) : string :=
  match e with
  | development => "development"
  | staging => "staging"
  | production => "production"
  end.

Record t := mk {
  env : environment;
  API_BASE_URL : string;
  DEBUG : bool;
  CACHE_DURATION : Z;
  REQUEST_TIMEOUT : Z;
  RATE_LIMIT : gmap string Z
}.

(** The [configs] table of [loadConfig]. *)
Definition configs (e : environment) : t :=
  match e with
  | development =>
      mk development "http://localhost:8088" true (5 * 60 * 1000) 10000
         (<["search" := 10]> (<["routes" := 20]> ∅))
  | staging =>
      mk staging "https://api-staging.travelmate.app" true (15 * 60 * 1000) 8000
         (<["search" := 15]> (<["routes" := 30]> ∅))
  | production =>
      mk production "https://api.travelmate.app" false (30 * 60 * 1000) 5000
         (<["search" := 20]> (<["routes" := 50]> ∅))
  end.

Definition getEndpoint (c : t) (path : string) : string :=
  API_BASE_URL c ++ (if Js.startsWith "/" path then path else "/" ++ path).

Definition getStorageKey (c : t) (key : string) : string :=
  "travelmate_" ++ env_name (env c) ++ "_" ++ key.

End Config.

(** ** Durable client storage

    [localStorage] seen through the three families of keys the program
    writes. Each family is written by one function only and always with the
    same shape, so an entry is stored in parsed form. *)

Record rate_data := RateData { rd_count : Z; rd_timestamp : Z }.

Record error_info := ErrorInfo {
  ei_timestamp : Z;
  ei_context : string;
  ei_message : string;
  ei_type : string
}.

Record local_storage := LocalStorage {
  ls_rate : gmap string rate_data;        (* travelmate_<env>_rate_limit_<type> *)
  ls_errors : gmap string (list error_info); (* travelmate_<env>_error_log *)
  ls_token : option string                 (* token *)
}.

Definition set_ls_rate (k : string) (d : rate_data) (ls : local_storage) :=
  LocalStorage (<[k := d]> (ls_rate ls)) (ls_errors ls) (ls_token ls).
Definition set_ls_errors (k : string) (l : list error_info) (ls : local_storage) :=
  LocalStorage (ls_rate ls) (<[k := l]> (ls_errors ls)) (ls_token ls).
Definition set_ls_token (t : option string) (ls : local_storage) :=
  LocalStorage (ls_rate ls) (ls_errors ls) t.

Definition empty_storage : local_storage := LocalStorage ∅ ∅ None.

(** ** Rate limiting ([Config.checkRateLimit]) *)

Module RateLimit.

(** [JSON.parse(localStorage.getItem(key) || '{"count": 0, "timestamp": 0}')] *)
Definition load (key : string) (ls : local_storage) : rate_data :=
  default (RateData 0 0) (ls_rate ls !! key).

(** The [Reset if minute passed] step. *)
Definition reset_if_elapsed (now : Z) (d : rate_data) : rate_data :=
  if 60000 <? now - rd_timestamp d then RateData 0 now else d.

(** [data.count >= this.RATE_LIMIT[type]]; the comparison with [undefined]
    of a type that has no entry is [false]. *)
Definition over_limit (c : Config.t) (type : string) (d : rate_data) : bool :=
  match Config.RATE_LIMIT c !! type with
  | Some l => l <=? rd_count d
  | None => false
  end.

Definition checkRateLimit (c : Config.t) (type : string) (now : Z)
    (ls : local_storage) : bool * local_storage :=
  let key := Config.getStorageKey c ("rate_limit_" ++ type) in
  let data := reset_if_elapsed now (load key ls) in
  if over_limit c type data then (false, ls)
  else (true, set_ls_rate key (RateData (rd_count data + 1) (rd_timestamp data)) ls).

End RateLimit.

(** ** The browser page, the map widget and the application object *)

(** What [fetch] is called with. *)
Inductive sent_body :=
| NoBody
| SentFormData (entries : list (string * string))
| SentParams (entries : list (string * string))
| SentText (text : string).

Record fetch_request := FetchRequest {
  fr_url : string;
  fr_method : string;
  fr_headers : gmap string string;
  fr_body : sent_body
}.

(** What the network answers: [fetch] rejects, or resolves with a response
    whose [json()] itself resolves (to a value of type [B]) or rejects. *)
Inductive fetch_outcome (B : Type) :=
| Rejects (e : Js.error)
| Responds (status : Z) (statusText : string) (body : Js.error + B).
Arguments Rejects {B} e.
Arguments Responds {B} status statusText body.

Record net_reply (B : Type) := NetReply { elapsed : Z; outcome : fetch_outcome B }.
Arguments NetReply {B} elapsed outcome.
Arguments elapsed {B} n.
Arguments outcome {B} n.

Definition response_ok (status : Z) : bool := (200 <=? status) && (status <=? 299).

(** A DOM element, with the properties the program reads or writes.
    [el_onclick] is the [onclick] attribute; [el_modal_input] tells an
    [input] inside [#authModal], which is what the selector of
    [closeAuthModal] picks. *)
Record element := Element {
  el_display : string;
  el_disabled : bool;
  el_classes : list string;
  el_text : string;
  el_value : string;
  el_onclick : string;
  el_modal_input : bool
}.

Definition el_set_display (v : string) (e : element) : element :=
  Element v (el_disabled e) (el_classes e) (el_text e) (el_value e) (el_onclick e) (el_modal_input e).
Definition el_set_disabled (v : bool) (e : element) : element :=
  Element (el_display e) v (el_classes e) (el_text e) (el_value e) (el_onclick e) (el_modal_input e).
Definition el_set_classes (v : list string) (e : element) : element :=
  Element (el_display e) (el_disabled e) v (el_text e) (el_value e) (el_onclick e) (el_modal_input e).
Definition el_set_text (v : string) (e : element) : element :=
  Element (el_display e) (el_disabled e) (el_classes e) v (el_value e) (el_onclick e) (el_modal_input e).
Definition el_set_value (v : string) (e : element) : element :=
  Element (el_display e) (el_disabled e) (el_classes e) (el_text e) v (el_onclick e) (el_modal_input e).

(** A place as the backend returns it. *)
Record place := Place {
  place_id : Z;
  place_name : string;
  place_category : string;
  place_latitude : Q;
  place_longitude : Q
}.

(** Map layers. [placeData] is the property [addPlaceMarker] hangs on a
    marker; popups and icons' HTML are not modelled, only the icon class. *)
Inductive layer_kind := TileLayer | Marker | Polyline.

Record layer := Layer {
  l_kind : layer_kind;
  l_latlngs : list (Q * Q);
  l_icon : string;
  l_placeData : option place
}.

(** Route end points come in the two shapes the code gives them:
    [{latitude, longitude, name}] and [{lat, lng}]. *)
Inductive point :=
| NamedPoint (latitude longitude : Q) (name : string)
| LatLng (lat lng : Q).

Record cache_entry := CacheEntry { ce_data : Js.json; ce_timestamp : Z }.

Record places_manager := PlacesManager {
  addPlaceMode : bool;
  clickedCoordinates : option (Q * Q)
}.

Record world := World {
  (* the browser *)
  clock : Z;
  storage : local_storage;
  net_log : list fetch_request;
  dom : gmap string element;
  anon : list element;
  reloads : nat;
  (* the Leaflet map: layers by stamp, last stamp handed out, cursor *)
  layers : gmap nat layer;
  last_stamp : nat;
  cursor : string;
  (* TravelMateApp *)
  currentUser : option Js.json;
  authToken : option string;
  isAuthMode : string;
  markers : list nat;
  startPoint : option point;
  endPoint : option point;
  routeStartMarker : option nat;
  routeEndMarker : option nat;
  routeLine : option nat;
  placesManager : option places_manager;
  (* ErrorHandler and APIClient instances of the app *)
  errorLog : list error_info;
  cache : gmap string cache_entry
}.

(** Field updates of the world, one per field. *)
Definition set_clock (v : Z) (w : world) : world :=
    World v (storage w) (net_log w) (dom w) (anon w) (reloads w) (layers w)
    (last_stamp w) (cursor w) (currentUser w) (authToken w) (isAuthMode w)
    (markers w) (startPoint w) (endPoint w) (routeStartMarker w)
    (routeEndMarker w) (routeLine w) (placesManager w) (errorLog w) (cache w).
Definition set_storage (v : local_storage) (w : world) : world :=
    World (clock w) v (net_log w) (dom w) (anon w) (reloads w) (layers w)
    (last_stamp w) (cursor w) (currentUser w) (authToken w) (isAuthMode w)
    (markers w) (startPoint w) (endPoint w) (routeStartMarker w)
    (routeEndMarker w) (routeLine w) (placesManager w) (errorLog w) (cache w).
Definition set_net_log (v : list fetch_request) (w : world) : world :=
    World (clock w) (storage w) v (dom w) (anon w) (reloads w) (layers w)
    (last_stamp w) (cursor w) (currentUser w) (authToken w) (isAuthMode w)
    (markers w) (startPoint w) (endPoint w) (routeStartMarker w)
    (routeEndMarker w) (routeLine w) (placesManager w) (errorLog w) (cache w).
Definition set_dom (v : gmap string element) (w : world) : world :=
    World (clock w) (storage w) (net_log w) v (anon w) (reloads w) (layers w)
    (last_stamp w) (cursor w) (currentUser w) (authToken w) (isAuthMode w)
    (markers w) (startPoint w) (endPoint w) (routeStartMarker w)
    (routeEndMarker w) (routeLine w) (placesManager w) (errorLog w) (cache w).
Definition set_anon (v : list element) (w : world) : world :=
    World (clock w) (storage w) (net_log w) (dom w) v (reloads w) (layers w)
    (last_stamp w) (cursor w) (currentUser w) (authToken w) (isAuthMode w)
    (markers w) (startPoint w) (endPoint w) (routeStartMarker w)
    (routeEndMarker w) (routeLine w) (placesManager w) (errorLog w) (cache w).
Definition set_reloads (v : nat) (w : world) : world :=
    World (clock w) (storage w) (net_log w) (dom w) (anon w) v (layers w)
    (last_stamp w) (cursor w) (currentUser w) (authToken w) (isAuthMode w)
    (markers w) (startPoint w) (endPoint w) (routeStartMarker w)
    (routeEndMarker w) (routeLine w) (placesManager w) (errorLog w) (cache w).
Definition set_layers (v : gmap nat layer) (w : world) : world :=
    World (clock w) (storage w) (net_log w) (dom w) (anon w) (reloads w) v
    (last_stamp w) (cursor w) (currentUser w) (authToken w) (isAuthMode w)
    (markers w) (startPoint w) (endPoint w) (routeStartMarker w)
    (routeEndMarker w) (routeLine w) (placesManager w) (errorLog w) (cache w).
Definition set_last_stamp (v : nat) (w : world) : world :=
    World (clock w) (storage w) (net_log w) (dom w) (anon w) (reloads w)
    (layers w) v (cursor w) (currentUser w) (authToken w) (isAuthMode w)
    (markers w) (startPoint w) (endPoint w) (routeStartMarker w)
    (routeEndMarker w) (routeLine w) (placesManager w) (errorLog w) (cache w).
Definition set_cursor (v : string) (w : world) : world :=
    World (clock w) (storage w) (net_log w) (dom w) (anon w) (reloads w)
    (layers w) (last_stamp w) v (currentUser w) (authToken w) (isAuthMode w)
    (markers w) (startPoint w) (endPoint w) (routeStartMarker w)
    (routeEndMarker w) (routeLine w) (placesManager w) (errorLog w) (cache w).
Definition set_currentUser (v : option Js.json) (w : world) : world :=
    World (clock w) (storage w) (net_log w) (dom w) (anon w) (reloads w)
    (layers w) (last_stamp w) (cursor w) v (authToken w) (isAuthMode w)
    (markers w) (startPoint w) (endPoint w) (routeStartMarker w)
    (routeEndMarker w) (routeLine w) (placesManager w) (errorLog w) (cache w).
Definition set_authToken (v : option string) (w : world) : world :=
    World (clock w) (storage w) (net_log w) (dom w) (anon w) (reloads w)
    (layers w) (last_stamp w) (cursor w) (currentUser w) v (isAuthMode w)
    (markers w) (startPoint w) (endPoint w) (routeStartMarker w)
    (routeEndMarker w) (routeLine w) (placesManager w) (errorLog w) (cache w).
Definition set_isAuthMode (v : string) (w : world) : world :=
    World (clock w) (storage w) (net_log w) (dom w) (anon w) (reloads w)
    (layers w) (last_stamp w) (cursor w) (currentUser w) (authToken w) v
    (markers w) (startPoint w) (endPoint w) (routeStartMarker w)
    (routeEndMarker w) (routeLine w) (placesManager w) (errorLog w) (cache w).
Definition set_markers (v : list nat) (w : world) : world :=
    World (clock w) (storage w) (net_log w) (dom w) (anon w) (reloads w)
    (layers w) (last_stamp w) (cursor w) (currentUser w) (authToken w)
    (isAuthMode w) v (startPoint w) (endPoint w) (routeStartMarker w)
    (routeEndMarker w) (routeLine w) (placesManager w) (errorLog w) (cache w).
Definition set_startPoint (v : option point) (w : world) : world :=
    World (clock w) (storage w) (net_log w) (dom w) (anon w) (reloads w)
    (layers w) (last_stamp w) (cursor w) (currentUser w) (authToken w)
    (isAuthMode w) (markers w) v (endPoint w) (routeStartMarker w)
    (routeEndMarker w) (routeLine w) (placesManager w) (errorLog w) (cache w).
Definition set_endPoint (v : option point) (w : world) : world :=
    World (clock w) (storage w) (net_log w) (dom w) (anon w) (reloads w)
    (layers w) (last_stamp w) (cursor w) (currentUser w) (authToken w)
    (isAuthMode w) (markers w) (startPoint w) v (routeStartMarker w)
    (routeEndMarker w) (routeLine w) (placesManager w) (errorLog w) (cache w).
Definition set_routeStartMarker (v : option nat) (w : world) : world :=
    World (clock w) (storage w) (net_log w) (dom w) (anon w) (reloads w)
    (layers w) (last_stamp w) (cursor w) (currentUser w) (authToken w)
    (isAuthMode w) (markers w) (startPoint w) (endPoint w) v (routeEndMarker
    w) (routeLine w) (placesManager w) (errorLog w) (cache w).
Definition set_routeEndMarker (v : option nat) (w : world) : world :=
    World (clock w) (storage w) (net_log w) (dom w) (anon w) (reloads w)
    (layers w) (last_stamp w) (cursor w) (currentUser w) (authToken w)
    (isAuthMode w) (markers w) (startPoint w) (endPoint w) (routeStartMarker
    w) v (routeLine w) (placesManager w) (errorLog w) (cache w).
Definition set_routeLine (v : option nat) (w : world) : world :=
    World (clock w) (storage w) (net_log w) (dom w) (anon w) (reloads w)
    (layers w) (last_stamp w) (cursor w) (currentUser w) (authToken w)
    (isAuthMode w) (markers w) (startPoint w) (endPoint w) (routeStartMarker
    w) (routeEndMarker w) v (placesManager w) (errorLog w) (cache w).
Definition set_placesManager (v : option places_manager) (w : world) : world :=
    World (clock w) (storage w) (net_log w) (dom w) (anon w) (reloads w)
    (layers w) (last_stamp w) (cursor w) (currentUser w) (authToken w)
    (isAuthMode w) (markers w) (startPoint w) (endPoint w) (routeStartMarker
    w) (routeEndMarker w) (routeLine w) v (errorLog w) (cache w).
Definition set_errorLog (v : list error_info) (w : world) : world :=
    World (clock w) (storage w) (net_log w) (dom w) (anon w) (reloads w)
    (layers w) (last_stamp w) (cursor w) (currentUser w) (authToken w)
    (isAuthMode w) (markers w) (startPoint w) (endPoint w) (routeStartMarker
    w) (routeEndMarker w) (routeLine w) (placesManager w) v (cache w).
Definition set_cache (v : gmap string cache_entry) (w : world) : world :=
    World (clock w) (storage w) (net_log w) (dom w) (anon w) (reloads w)
    (layers w) (last_stamp w) (cursor w) (currentUser w) (authToken w)
    (isAuthMode w) (markers w) (startPoint w) (endPoint w) (routeStartMarker
    w) (routeEndMarker w) (routeLine w) (placesManager w) (errorLog w) v.

(** ** Code that reads and writes the world and may throw *)

Definition M (A : Type) : Type := world -> (Js.error + A) * world.

#[global] Instance M_ret : MRet M := fun A (a : A) (w : world) => (inr a, w).

#[global] Instance M_bind : MBind M := fun A B (f : A -> M B) (m : M A) (w : world) =>
  match m w with
  | (inr a, w') => f a w'
  | (inl e, w') => (inl e, w')
  end.

Definition throw {A} (e : Js.error) : M A := fun w => (inl e, w).

(** [try { body } catch (e) { handler e }] *)
Definition try_catch {A} (body : M A) (handler : Js.error -> M A) : M A := fun w =>
  match body w with
  | (inr a, w') => (inr a, w')
  | (inl e, w') => handler e w'
  end.

Definition gets {A} (f : world -> A) : M A := fun w => (inr (f w), w).
Definition modify (f : world -> world) : M unit := fun w => (inr tt, f w).

Definition when_ (b : bool) (m : M unit) : M unit := if b then m else mret tt.

(** [xs.forEach(x => body x)] *)
Fixpoint forEach {A} (xs : list A) (body : A -> M unit) : M unit :=
  match xs with
  | [] => mret tt
  | x :: xs' => body x ;; forEach xs' body
  end.

(** The state in which a call leaves the world, and what it returned. *)
Definition result_of {A} (m : M A) (w : world) : Js.error + A := fst (m w).
Definition world_after {A} (m : M A) (w : world) : world := snd (m w).

(** *** Footprints

    [ui_only w w'] says that [w'] differs from [w] at most in the document,
    the cursor and the state of the places manager; [touches_ui_only m] that
    running [m] never changes more than that, whether it returns or throws. *)

Definition ui_only (w w' : world) : Prop :=
  w' = set_placesManager (placesManager w')
         (set_cursor (cursor w') (set_anon (anon w') (set_dom (dom w') w))).

Definition touches_ui_only {A} (m : M A) : Prop :=
  forall w, ui_only w (snd (m w)).

(** *** Browser primitives *)

Definition Date_now : M Z := gets clock.

(** Time passing between two tasks. *)
Definition tick (d : Z) : M unit := modify (fun w => set_clock (clock w + d) w).

(** [fetch(url, config)]: the request goes out, time passes, the network
    answers with [reply]. *)
Definition send (req : fetch_request) : M unit :=
  modify (fun w => set_net_log (net_log w ++ [req]) w).

Definition fetch {B} (req : fetch_request) (reply : net_reply B) : M (fetch_outcome B) :=
  send req ;;
  tick (elapsed reply) ;;
  mret (outcome reply).

(** ** API client ([APIClient], frontend/map-places.js) *)

Module APIClient.

(** The [data] argument of [request]. *)
Inductive data :=
| DNull
| DFormData (entries : list (string * string))
| DParams (entries : list (string * string))
| DValue (j : Js.json).

Definition data_truthy (d : data) : bool :=
  match d with
  | DNull => false
  | DFormData _ | DParams _ => true
  | DValue j => Js.truthy j
  end.

(** [JSON.stringify(data)]: a [FormData] or [URLSearchParams] object has no
    enumerable properties of its own. *)
Definition stringify_data (d : data) : string :=
  match d with
  | DNull => "null"
  | DFormData _ | DParams _ => "{}"
  | DValue j => Js.stringify j
  end.

Definition getOperationType (endpoint : string) : string :=
  if Js.includes "/locations/search" endpoint then "search"
  else if Js.includes "/routes" endpoint then "routes"
  else "general".

Definition rate_limit_error (operationType : string) : Js.error :=
  Js.Error ("Rate limit exceeded for " ++ operationType ++ ". Please wait a moment.").

Definition is_GET (method : string) : bool := String.eqb method "GET".

(** A token is attached when [window.app?.authToken] is truthy. *)
Definition with_auth (token : option string) (h : gmap string string) : gmap string string :=
  match token with
  | Some t => if String.eqb t EmptyString then h else <["Authorization" := "Bearer " ++ t]> h
  | None => h
  end.

(** The [config] object handed to [fetch]: method, headers, body. *)
Definition build_config (method : string) (d : data) (headers : gmap string string)
    (token : option string) (url : string) : fetch_request :=
  let h := with_auth token (headers ∪ {["Content-Type" := "application/json"]}) in
  if data_truthy d && negb (is_GET method) then
    match d with
    | DFormData fd => FetchRequest url (Js.toUpperCase method) (delete "Content-Type" h) (SentFormData fd)
    | DParams ps => FetchRequest url (Js.toUpperCase method) h (SentParams ps)
    | _ => FetchRequest url (Js.toUpperCase method) h (SentText (stringify_data d))
    end
  else FetchRequest url (Js.toUpperCase method) h NoBody.

Definition cacheKey (method url : string) (d : data) : string :=
  method ++ ":" ++ url ++ ":" ++ stringify_data d.

Definition checkRateLimit (c : Config.t) (type : string) : M bool := fun w =>
  let '(ok, ls) := RateLimit.checkRateLimit c type (clock w) (storage w) in
  (inr ok, set_storage ls w).

(** The cached value a [GET] may answer with at time [now]. *)
Definition cache_hit (c : Config.t) (method key : string) (now : Z)
    (m : gmap string cache_entry) : option Js.json :=
  if is_GET method then
    match m !! key with
    | Some cached =>
        if now - ce_timestamp cached <? Config.CACHE_DURATION c
        then Some (ce_data cached) else None
    | None => None
    end
  else None.

(** The body of the [try] block: the network call and what follows it. *)
Definition perform (method key : string) (req : fetch_request) (reply : net_reply Js.json)
    : M Js.json :=
  o ← fetch req reply;
  match o with
  | Rejects e => throw e
  | Responds status statusText body =>
      if negb (response_ok status) then
        throw (Js.Error ("HTTP " ++ pretty status ++ ": " ++ statusText))
      else
        match body with
        | inl e => throw e
        | inr result =>
            (if is_GET method then
               now ← Date_now;
               modify (fun w => set_cache (<[key := CacheEntry result now]> (cache w)) w)
             else mret tt) ;;
            mret result
        end
  end.

(** [request], after the rate-limit check: build the call, look in the
    cache, go to the network. *)
Definition serve (c : Config.t) (method endpoint : string) (d : data)
    (headers : gmap string string) (reply : net_reply Js.json) : M Js.json :=
  token ← gets authToken;
  let url := Config.getEndpoint c endpoint in
  let req := build_config method d headers token url in
  let key := cacheKey method url d in
  now ← Date_now;
  m ← gets cache;
  match cache_hit c method key now m with
  | Some v => mret v
  | None =>
      try_catch (perform method key req reply)
        (fun error =>
           if String.eqb (Js.err_name error) "AbortError"
           then throw (Js.Error "Request timeout")
           else throw error)
  end.

Definition request (c : Config.t) (method endpoint : string) (d : data)
    (headers : gmap string string) (reply : net_reply Js.json) : M Js.json :=
  let operationType := getOperationType endpoint in
  ok ← checkRateLimit c operationType;
  if negb ok then throw (rate_limit_error operationType)
  else serve c method endpoint d headers reply.

(** [new URLSearchParams(params).toString()] for keys and values that need
    no escaping. *)
Definition query_string (params : list (string * string)) : string :=
  Js.join "&" (map (fun kv => fst kv ++ "=" ++ snd kv) params).

Definition get (c : Config.t) (endpoint : string) (params : list (string * string))
    (reply : net_reply Js.json) : M Js.json :=
  let query := query_string params in
  let url := if String.eqb query EmptyString then endpoint else endpoint ++ "?" ++ query in
  request c "GET" url DNull ∅ reply.

Definition post (c : Config.t) (endpoint : string) (d : data)
    (headers : gmap string string) (reply : net_reply Js.json) : M Js.json :=
  request c "POST" endpoint d headers reply.

Definition put (c : Config.t) (endpoint : string) (d : data) (reply : net_reply Js.json)
    : M Js.json :=
  request c "PUT" endpoint d ∅ reply.

Definition delete (c : Config.t) (endpoint : string) (reply : net_reply Js.json) : M Js.json :=
  request c "DELETE" endpoint DNull ∅ reply.

(** Whether the limiter stops a call of category [type] made in world [w]. *)
Definition limited (c : Config.t) (type : string) (w : world) : bool :=
  negb (fst (RateLimit.checkRateLimit c type (clock w) (storage w))).

(** A call a client makes after waiting [wait] milliseconds, together with
    what the network would answer if asked. *)
Record call := Call {
  wait : Z;
  c_method : string;
  c_endpoint : string;
  c_data : data;
  c_headers : gmap string string;
  c_reply : net_reply Js.json
}.

Definition issue (c : Config.t) (k : call) : M Js.json :=
  request c (c_method k) (c_endpoint k) (c_data k) (c_headers k) (c_reply k).

(** Calls made one after the other. For each call: the world it was made
    in and what it returned or threw. *)
Fixpoint run_calls (c : Config.t) (calls : list call) (w : world)
    : list (world * (Js.error + Js.json)) * world :=
  match calls with
  | [] => ([], w)
  | k :: ks =>
      let w0 := world_after (tick (wait k)) w in
      let '(r, w1) := issue c k w0 in
      let '(rs, w2) := run_calls c ks w1 in
      ((w0, r) :: rs, w2)
  end.

Definition of_type (type : string) (k : call) : bool :=
  String.eqb (getOperationType (c_endpoint k)) type.

Definition patient (k : call) : bool :=
  (0 <=? wait k) && (0 <=? elapsed (c_reply k)).

(** Time a sequence of calls can take at most: the waits and the answers. *)
Definition duration (ks : list call) : Z :=
  foldr (fun k acc => wait k + elapsed (c_reply k) + acc) 0 ks.

(** The same, counted from the moment the first call [k] is made. *)
Definition span (k : call) (ks : list call) : Z :=
  elapsed (c_reply k) + duration ks.

Definition rate_key (c : Config.t) (type : string) : string :=
  Config.getStorageKey c ("rate_limit_" ++ type).

End APIClient.

(** *** The document *)

Definition getElementById (id : string) : M (option element) :=
  gets (fun w => dom w !! id).

Definition null_error (id : string) : Js.error :=
  Js.TypeError ("Cannot set properties of null (" ++ id ++ ")").

(** [document.getElementById(id).p = v]: a missing element makes the
    property access throw. *)
Definition set_prop (id : string) (f : element -> element) : M unit :=
  e ← getElementById id;
  match e with
  | None => throw (null_error id)
  | Some e => modify (fun w => set_dom (<[id := f e]> (dom w)) w)
  end.

(** [const el = document.getElementById(id); if (el) el.p = v;] *)
Definition set_prop_if_present (id : string) (f : element -> element) : M unit :=
  e ← getElementById id;
  match e with
  | None => mret tt
  | Some e => modify (fun w => set_dom (<[id := f e]> (dom w)) w)
  end.

(** [document.querySelectorAll(sel).forEach(el => el.p = v)] for a selector
    on attributes: elements with and without an id are visited. *)
Definition set_prop_all (sel : element -> bool) (f : element -> element) : M unit :=
  modify (fun w =>
    set_dom ((fun e => if sel e then f e else e) <$> dom w)
      (set_anon (map (fun e => if sel e then f e else e) (anon w)) w)).

(** [TravelMateApp.showStatus]. The timer that hides the message four
    seconds later runs in a later task and is not part of the call. *)
Definition showStatus (message type : string) : M unit :=
  set_prop "statusMessage"
    (fun e => el_set_classes ["status-message"; type; "show"] (el_set_text message e)).

(** ** Error handler ([ErrorHandler], frontend/map-places.js) *)

Module ErrorHandler.

Definition maxLogSize : nat := 100.

(** [unshift] then [pop] when the log is too long. *)
Definition push (errorInfo : error_info) (log : list error_info) : list error_info :=
  let log' := errorInfo :: log in
  if (maxLogSize <? length log')%nat then removelast log' else log'.

(** [log(errorInfo)]. [writable] tells whether [localStorage.setItem]
    accepts the write; when it throws, the [catch] only warns. *)
Definition log (c : Config.t) (writable : bool) (errorInfo : error_info) : M unit :=
  modify (fun w => set_errorLog (push errorInfo (errorLog w)) w) ;;
  when_ writable
    (modify (fun w =>
       set_storage (set_ls_errors (Config.getStorageKey c "error_log")
                      (take 10 (errorLog w)) (storage w)) w)).

(** The fields of [errorInfo] kept here, as the object that is serialized. *)
Definition errorInfo_json (e : error_info) : Js.json :=
  Js.JObj [("timestamp", Js.JNum (inject_Z (ei_timestamp e)));
           ("context", Js.JStr (ei_context e));
           ("message", Js.JStr (ei_message e));
           ("type", Js.JStr (ei_type e))].

Definition friendly_message (error : Js.error) (context : string) : string :=
  let msg := Js.err_message error in
  if String.eqb (Js.err_name error) "TypeError" && Js.includes "fetch" msg
  then "Network connection failed. Please check your internet connection."
  else if Js.includes "timeout" msg then "Request timed out. Please try again."
  else if Js.includes "401" msg then "Your session has expired. Please sign in again."
  else if Js.includes "403" msg then "You don't have permission to perform this action."
  else if Js.includes "404" msg then "The requested resource was not found."
  else if Js.includes "500" msg then "Server error. Please try again later."
  else if String.eqb context "Login failed"
  then "Invalid email or password. Please try again."
  else if String.eqb context "Registration failed"
  then "Registration failed. Please check your information and try again."
  else if Js.includes "Route" context then "Route operation failed. Please try again."
  else if Js.includes "Search" context then "Search failed. Please try again."
  else "An unexpected error occurred".

(** [showUserFriendlyError] as it runs once [window.app] is assigned, which
    is the case for every call but the one [init] makes from its [catch]
    while the constructor of the application is still running;
    [ErrorHandlerAt] has both branches. *)
Definition showUserFriendlyError (error : Js.error) (context : string) : M unit :=
  showStatus (friendly_message error context) "error".

(** [reportError] is started and not awaited: the request goes out, its
    outcome is dropped. The body is the text of [errorInfo]; of its fields
    the model keeps the four of [error_info], so the text here lacks
    [stack], [userAgent] and [url]. *)
Definition reportError (c : Config.t) (errorInfo : error_info) : M unit :=
  send (FetchRequest (Config.getEndpoint c "/error-report") "POST"
          {["Content-Type" := "application/json"]}
          (SentText (Js.stringify (errorInfo_json errorInfo)))).

Definition is_production (c : Config.t) : bool :=
  match Config.env c with Config.production => true | _ => false end.

(** The [errorInfo] object of [handle], with the fields that do not
    depend on the browser. *)
Definition errorInfo_of (error : Js.error) (context : string) (now : Z) : error_info :=
  ErrorInfo now context
    (if String.eqb (Js.err_message error) EmptyString
     then "Unknown error" else Js.err_message error)
    (Js.err_name error).

Definition handle (c : Config.t) (writable : bool) (error : Js.error)
    (context : string) (showToUser : bool) : M unit :=
  now ← Date_now;
  let errorInfo := errorInfo_of error context now in
  log c writable errorInfo ;;
  when_ showToUser (showUserFriendlyError error context) ;;
  when_ (is_production c) (reportError c errorInfo).

End ErrorHandler.

(** ** The map widget *)

Module L.

(** [layer.addTo(map)]: the layer gets the next stamp and is registered
    under it. *)
Definition addTo (l : layer) : M nat := fun w =>
  let id := S (last_stamp w) in
  (inr id, set_layers (<[id := l]> (layers w)) (set_last_stamp id w)).

(** [map.removeLayer(layer)]; a layer that is not on the map is ignored. *)
Definition removeLayer (id : nat) : M unit :=
  modify (fun w => set_layers (base.delete id (layers w)) w).

(** [map.eachLayer(fn)] *)
Definition eachLayer (fn : nat -> layer -> M unit) : M unit :=
  ls ← gets (fun w => map_to_list (layers w));
  forEach ls (fun kl => fn kl.1 kl.2).

(** [if (this.x) { this.map.removeLayer(this.x); }] for a layer slot of the
    application. *)
Definition removeLayer_opt (slot : option nat) : M unit :=
  match slot with
  | Some id => removeLayer id
  | None => mret tt
  end.

End L.

(** [classList.add], [classList.remove], [classList.contains] *)
Definition class_add (c : string) (e : element) : element :=
  if bool_decide (c ∈ el_classes e) then e else el_set_classes (el_classes e ++ [c]) e.
Definition class_remove (c : string) (e : element) : element :=
  el_set_classes (filter (fun x => x ≠ c) (el_classes e)) e.
Definition class_contains (c : string) (e : element) : bool :=
  bool_decide (c ∈ el_classes e).

(** ** Map places ([MapPlacesManager]) *)

Module MapPlacesManager.

(** The class calls [this.hideStatusMessage()] and the global
    [showStatusMessage(...)]; neither is defined by any script of the
    repository, so each call throws where it stands. *)
Definition hideStatusMessage : M unit :=
  throw (Js.TypeError "this.hideStatusMessage is not a function").
Definition showStatusMessage (message : string) : M unit :=
  throw (Js.mkError "ReferenceError" "showStatusMessage is not defined").

(** [showNotification] appends a toast to the page; toasts are not part of
    the modelled document. *)
Definition showNotification (message type : string) : M unit := mret tt.

Definition user_signed_in (w : world) : bool :=
  match currentUser w with
  | Some u => Js.truthy u
  | None => false
  end.

Definition set_addPlaceMode (b : bool) : M unit :=
  modify (fun w =>
    match placesManager w with
    | Some pm => set_placesManager (Some (PlacesManager b (clickedCoordinates pm))) w
    | None => w
    end).

Definition in_addPlaceMode (w : world) : bool :=
  match placesManager w with
  | Some pm => addPlaceMode pm
  | None => false
  end.

Definition toggleAddPlaceMode : M unit :=
  u ← gets user_signed_in;
  if negb u then showNotification "Please sign in to add places" "warning"
  else
    mode ← gets in_addPlaceMode;
    set_addPlaceMode (negb mode) ;;
    if negb mode then
      set_prop "addPlaceModeBtn" (class_add "active") ;;
      showStatusMessage "Click on the map to add a place" ;;
      modify (set_cursor "crosshair")
    else
      set_prop "addPlaceModeBtn" (class_remove "active") ;;
      hideStatusMessage ;;
      modify (set_cursor EmptyString).

Definition place_marker (p : place) : layer :=
  Layer Marker [(place_latitude p, place_longitude p)] "custom-place-marker" (Some p).

Definition public_marker (p : place) : layer :=
  Layer Marker [(place_latitude p, place_longitude p)] "custom-public-marker" None.

(** [addPlaceMarker(place)]: the marker goes on the map and carries the
    place as [placeData]. *)
Definition addPlaceMarker (p : place) : M nat := L.addTo (place_marker p).

(** [addPublicPlaceMarker(place)]: no [placeData] is attached. *)
Definition addPublicPlaceMarker (p : place) : M nat := L.addTo (public_marker p).

(** [layer instanceof L.Marker && layer.placeData] *)
Definition is_place_marker (l : layer) : bool :=
  match l_kind l, l_placeData l with
  | Marker, Some _ => true
  | _, _ => false
  end.

Definition clearPlaceMarkers : M unit :=
  L.eachLayer (fun id l => when_ (is_place_marker l) (L.removeLayer id)).

Definition bearer (ls : local_storage) : string :=
  "Bearer " ++ default "null" (ls_token ls).

Definition places_request (c : Config.t) (ls : local_storage) : fetch_request :=
  FetchRequest (Config.API_BASE_URL c ++ "/profile/places") "GET"
    {["Authorization" := bearer ls]} NoBody.

(** What follows [await fetch(...)] inside the [try] of [loadUserPlaces].
    The body, when it can be read, is taken to be a list of places the
    map widget accepts. An answer that is read and turns out to be
    something else (not an array, or with an entry that makes
    [addPlaceMarker] throw) is outside this model: there the code throws
    after [clearPlaceMarkers] has run. *)
Definition show_places (o : fetch_outcome (list place)) : M unit :=
  match o with
  | Rejects e => throw e
  | Responds status _ body =>
      if negb (response_ok status) then throw (Js.Error "Failed to load places")
      else
        match body with
        | inl e => throw e
        | inr places =>
            clearPlaceMarkers ;;
            forEach places (fun p => addPlaceMarker p ;; mret tt)
        end
  end.

(** [loadUserPlaces()], with the body of [GET /profile/places] taken in
    decoded form. *)
Definition loadUserPlaces (c : Config.t) (reply : net_reply (list place)) : M unit :=
  u ← gets user_signed_in;
  if negb u then mret tt
  else
    try_catch
      (ls ← gets storage;
       o ← fetch (places_request c ls) reply;
       show_places o)
      (fun _ => mret tt).

(** The part of [loadUserPlaces()] that runs when the caller does not
    await it: up to the moment the request has gone out. *)
Definition loadUserPlaces_started (c : Config.t) : M unit :=
  u ← gets user_signed_in;
  if negb u then mret tt
  else ls ← gets storage; send (places_request c ls).

Definition public_places_request (c : Config.t) : fetch_request :=
  FetchRequest (Config.API_BASE_URL c ++ "/profile/places/public") "GET" ∅ NoBody.

Definition loadPublicPlaces (c : Config.t) (reply : net_reply (list place)) : M unit :=
  try_catch
    (o ← fetch (public_places_request c) reply;
     match o with
     | Rejects e => throw e
     | Responds status _ body =>
         if negb (response_ok status) then throw (Js.Error "Failed to load public places")
         else
           match body with
           | inl e => throw e
           | inr places => forEach places (fun p => addPublicPlaceMarker p ;; mret tt)
           end
     end)
    (fun _ => mret tt).

Definition enableControls : M unit :=
  u ← gets user_signed_in;
  when_ u (set_prop_if_present "addPlaceModeBtn" (el_set_disabled false)).

Definition disableControls : M unit :=
  set_prop_if_present "addPlaceModeBtn"
    (fun e => class_remove "active" (el_set_disabled true e)) ;;
  mode ← gets in_addPlaceMode;
  when_ mode
    (set_addPlaceMode false ;;
     modify (set_cursor EmptyString) ;;
     hideStatusMessage).

End MapPlacesManager.

(** ** The application ([TravelMateApp]) *)

Module TravelMateApp.

(** [localStorage.removeItem('token')], [localStorage.setItem('token', t)] *)
Definition removeToken : M unit :=
  modify (fun w => set_storage (set_ls_token None (storage w)) w).
Definition storeToken (t : string) : M unit :=
  modify (fun w => set_storage (set_ls_token (Some t) (storage w)) w).

(** [document.getElementById(id).value]; throws on a missing element. *)
Definition input_value (id : string) : M string :=
  e ← getElementById id;
  match e with
  | None => throw (Js.TypeError ("Cannot read properties of null (" ++ id ++ ")"))
  | Some e => mret (el_value e)
  end.

(** *** Validation helpers *)

Definition not_space_or_at (c : ascii) : bool :=
  negb (Js.is_space c || Ascii.eqb c "@").

(** [/^[^\s@]+@[^\s@]+\.[^\s@]+$/] *)
Definition emailRegex : Js.regex :=
  Js.Cat (Js.Plus (Js.Class not_space_or_at))
    (Js.Cat (Js.Class (Ascii.eqb "@"))
       (Js.Cat (Js.Plus (Js.Class not_space_or_at))
          (Js.Cat (Js.Class (Ascii.eqb "."))
             (Js.Plus (Js.Class not_space_or_at))))).

Definition validateEmail (email : string) : bool :=
  Js.test_anchored emailRegex email.

(** [password && password.length >= 6] *)
Definition validatePassword (password : string) : bool :=
  (6 <=? String.length password)%nat.

(** *** Controls *)

Definition controls : list string :=
  ["searchInput"; "transportMode"; "routeName"; "routeDescription";
   "realRouteBtn"; "createRouteBtn"].

(** [[onclick*="searchPlace"], [onclick*="loadRoutes"]] *)
Definition action_button (e : element) : bool :=
  Js.includes "searchPlace" (el_onclick e) || Js.includes "loadRoutes" (el_onclick e).

Definition has_places_manager (w : world) : bool :=
  match placesManager w with Some _ => true | None => false end.

Definition enableControls : M unit :=
  forEach controls (fun id => set_prop_if_present id (el_set_disabled false)) ;;
  set_prop_all action_button (el_set_disabled false) ;;
  pm ← gets has_places_manager;
  when_ pm MapPlacesManager.enableControls.

Definition disableControls : M unit :=
  forEach controls (fun id => set_prop_if_present id (el_set_disabled true)) ;;
  set_prop_all action_button (el_set_disabled true) ;;
  pm ← gets has_places_manager;
  when_ pm MapPlacesManager.disableControls.

(** *** Sidebar and sign-in dialog *)

Definition toggleSidebar (forceOpen : bool) : M unit :=
  sidebar ← getElementById "sidebar";
  let isOpen := match sidebar with Some e => class_contains "open" e | None => false end in
  match sidebar with
  | None => throw (Js.TypeError "Cannot read properties of null (sidebar)")
  | Some _ =>
      if forceOpen || negb isOpen then
        set_prop "sidebar" (class_add "open") ;;
        set_prop "sidebarToggle" (el_set_text ("<i class=" ++ Js.quote "fas fa-times" ++ "></i>"))
      else
        set_prop "sidebar" (class_remove "open") ;;
        set_prop "sidebarToggle" (el_set_text ("<i class=" ++ Js.quote "fas fa-bars" ++ "></i>"))
  end.

Definition auth_modal_parts : list string :=
  ["authModal"; "authTitle"; "authSubtitle"; "loginForm"; "registerForm";
   "authToggleText"; "authToggleBtn"].

Definition all_present (ids : list string) (w : world) : bool :=
  forallb (fun id => bool_decide (is_Some (dom w !! id))) ids.

Definition showAuthModal (mode : string) : M unit :=
  modify (set_isAuthMode mode) ;;
  ok ← gets (all_present auth_modal_parts);
  if negb ok then mret tt
  else
    (if String.eqb mode "login" then
       set_prop "authTitle" (el_set_text "Welcome Back") ;;
       set_prop "authSubtitle" (el_set_text "Sign in to your account") ;;
       set_prop "loginForm" (el_set_display "flex") ;;
       set_prop "registerForm" (el_set_display "none") ;;
       set_prop "authToggleBtn" (el_set_text "Sign up")
     else
       set_prop "authTitle" (el_set_text "Create Account") ;;
       set_prop "authSubtitle" (el_set_text "Join TravelMate today") ;;
       set_prop "loginForm" (el_set_display "none") ;;
       set_prop "registerForm" (el_set_display "flex") ;;
       set_prop "authToggleBtn" (el_set_text "Sign in")) ;;
    set_prop "authModal" (class_add "active").

Definition closeAuthModal : M unit :=
  modal ← getElementById "authModal";
  match modal with
  | None => mret tt
  | Some m =>
      if negb (class_contains "active" m) then mret tt
      else
        set_prop "authModal" (class_remove "active") ;;
        set_prop_all el_modal_input (el_set_value EmptyString) ;;
        modify (set_isAuthMode "login")
  end.

Definition toggleAuthMode : M unit :=
  mode ← gets isAuthMode;
  let mode' := if String.eqb mode "login" then "register" else "login" in
  modify (set_isAuthMode mode') ;;
  showAuthModal mode'.

(** *** Session *)

(** The text [#userName] gets from [user.name]; a missing or null name
    leaves it empty. *)
Definition name_text (user : Js.json) : string :=
  match Js.prop "name" user with
  | None | Some Js.JNull => EmptyString
  | v => Js.to_string v
  end.

Definition setAuthenticatedUser (c : Config.t) (user : Js.json) : M unit :=
  modify (set_currentUser (Some user)) ;;
  set_prop "loginBtn" (el_set_display "none") ;;
  set_prop "registerBtn" (el_set_display "none") ;;
  set_prop "userMenu" (el_set_display "flex") ;;
  match user with
  | Js.JNull => throw (Js.TypeError "Cannot read properties of null (reading 'name')")
  | _ => set_prop "userName" (el_set_text (name_text user))
  end ;;
  set_prop "guestBanner" (el_set_display "none") ;;
  enableControls ;;
  pm ← gets has_places_manager;
  when_ pm (MapPlacesManager.loadUserPlaces_started c) ;;
  toggleSidebar true.

Definition showGuestMode : M unit :=
  modify (set_currentUser None) ;;
  modify (set_authToken None) ;;
  set_prop "loginBtn" (el_set_display "inline-flex") ;;
  set_prop "registerBtn" (el_set_display "inline-flex") ;;
  set_prop "userMenu" (el_set_display "none") ;;
  set_prop "guestBanner" (el_set_display "block") ;;
  disableControls.

(** [validateToken()] *)
Definition validateToken (c : Config.t) (reply : net_reply Js.json) : M unit :=
  try_catch
    (response ← APIClient.get c "/auth/me" [] reply;
     setAuthenticatedUser c response)
    (fun _ =>
       removeToken ;;
       showGuestMode).

Definition token_truthy (t : option string) : bool :=
  match t with
  | Some s => negb (String.eqb s EmptyString)
  | None => false
  end.

(** [checkAuthStatus()] *)
Definition checkAuthStatus (c : Config.t) (reply : net_reply Js.json) : M unit :=
  try_catch
    (modify (fun w => set_authToken (ls_token (storage w)) w) ;;
     t ← gets authToken;
     if token_truthy t then validateToken c reply else showGuestMode)
    (fun _ => showGuestMode).

(** *** Sign in and sign up *)

(** [response.access_token], read off the body of [POST /auth/login]:
    [None] when it is [undefined] or [null]. *)
Definition access_token (response : Js.json) : M (option Js.json) :=
  match response with
  | Js.JNull => throw (Js.TypeError "Cannot read properties of null (reading 'access_token')")
  | _ => mret (Js.prop "access_token" response)
  end.

(** The token as the application holds it, and as [localStorage] stores
    it, which is its string form. *)
Definition held_token (t : option Js.json) : option string :=
  match t with
  | None | Some Js.JNull => None
  | Some _ => Some (Js.to_string t)
  end.

Definition handleLogin (c : Config.t) (writable : bool)
    (login_reply me_reply : net_reply Js.json) : M unit :=
  v ← input_value "loginEmail";
  let email := Js.trim v in
  password ← input_value "loginPassword";
  if negb (validateEmail email) then
    showStatus "Please enter a valid email address" "error"
  else if String.eqb password EmptyString then
    showStatus "Password is required" "error"
  else
    try_catch
      (showStatus "Signing in..." "info" ;;
       response ← APIClient.post c "/auth/login"
         (APIClient.DParams [("username", email); ("password", password)])
         {["Content-Type" := "application/x-www-form-urlencoded"]} login_reply;
       t ← access_token response;
       modify (set_authToken (held_token t)) ;;
       storeToken (Js.to_string t) ;;
       userResponse ← APIClient.get c "/auth/me" [] me_reply;
       setAuthenticatedUser c userResponse ;;
       closeAuthModal ;;
       showStatus "Welcome back!" "success")
      (fun error => ErrorHandler.handle c writable error "Login failed" true).

Definition handleRegister (c : Config.t) (writable : bool)
    (reply : net_reply Js.json) : M unit :=
  n ← input_value "registerName";
  let name := Js.trim n in
  v ← input_value "registerEmail";
  let email := Js.trim v in
  password ← input_value "registerPassword";
  if (String.length name <? 2)%nat then
    showStatus "Name must be at least 2 characters long" "error"
  else if negb (validateEmail email) then
    showStatus "Please enter a valid email address" "error"
  else if negb (validatePassword password) then
    showStatus "Password must be at least 6 characters long" "error"
  else
    try_catch
      (showStatus "Creating account..." "info" ;;
       APIClient.post c "/auth/register"
         (APIClient.DValue
            (Js.JObj [("name", Js.JStr name); ("email", Js.JStr email);
                      ("password", Js.JStr password)]))
         ∅ reply ;;
       showStatus "Account created successfully! Please sign in." "success" ;;
       toggleAuthMode)
      (fun error => ErrorHandler.handle c writable error "Registration failed" true).

(** *** Route end points and cleanup *)

Definition both_points_set (w : world) : bool :=
  match startPoint w, endPoint w with
  | Some _, Some _ => true
  | _, _ => false
  end.

Definition checkRouteReady : M unit :=
  ready ← gets both_points_set;
  set_prop "createRouteBtn" (el_set_disabled (negb ready)) ;;
  set_prop "realRouteBtn" (el_set_disabled (negb ready)).

Definition updateCreateRouteButton : M unit :=
  ready ← gets both_points_set;
  start ← gets startPoint;
  set_prop_if_present "createRouteBtn"
    (fun e =>
       if ready : bool then
         class_remove "disabled" (el_set_text "Calculate Route" (el_set_disabled false e))
       else
         class_add "disabled"
           (el_set_text (match start with Some _ => "Set End Point" | None => "Set Start Point" end)
              (el_set_disabled true e))).

Definition start_icon : string := "marker-icon-2x-green.png".
Definition end_icon : string := "marker-icon-2x-red.png".

(** [setStartPoint(lat, lng)], the setter used by the context menu. *)
Definition setStartPoint (lat lng : Q) : M unit :=
  modify (set_startPoint (Some (LatLng lat lng))) ;;
  old ← gets routeStartMarker;
  L.removeLayer_opt old ;;
  id ← L.addTo (Layer Marker [(lat, lng)] start_icon None);
  modify (set_routeStartMarker (Some id)) ;;
  updateCreateRouteButton ;;
  checkRouteReady ;;
  showStatus "Start point set" "success".

Definition setEndPoint (lat lng : Q) : M unit :=
  modify (set_endPoint (Some (LatLng lat lng))) ;;
  old ← gets routeEndMarker;
  L.removeLayer_opt old ;;
  id ← L.addTo (Layer Marker [(lat, lng)] end_icon None);
  modify (set_routeEndMarker (Some id)) ;;
  updateCreateRouteButton ;;
  checkRouteReady ;;
  showStatus "End point set" "success".

Definition clearRouteDisplay : M unit :=
  m ← gets routeStartMarker;
  L.removeLayer_opt m ;;
  modify (set_routeStartMarker None) ;;
  m ← gets routeEndMarker;
  L.removeLayer_opt m ;;
  modify (set_routeEndMarker None) ;;
  m ← gets routeLine;
  L.removeLayer_opt m ;;
  modify (set_routeLine None) ;;
  modify (set_startPoint None) ;;
  modify (set_endPoint None) ;;
  checkRouteReady.

Definition clearMap : M unit :=
  ms ← gets markers;
  forEach ms L.removeLayer ;;
  modify (set_markers []) ;;
  clearRouteDisplay ;;
  showStatus "Map cleared" "info".

(** [window.location.reload()] asks the browser to load the page again;
    the script runs on to the end of its task. The field counts the
    requests the page has made. What the browser then does to the page,
    once the task has ended, is [Reload.page_after]. *)
Definition reload : M unit := modify (fun w => set_reloads (S (reloads w)) w).

Definition logout : M unit :=
  try_catch
    (removeToken ;;
     showGuestMode ;;
     clearRouteDisplay ;;
     clearMap ;;
     showStatus "You have been signed out" "info")
    (fun _ =>
       removeToken ;;
       reload).

End TravelMateApp.

(** ** Feature functions (frontend/features.js) *)

Module Features.

(** [typeof p.latitude === 'undefined'] fails exactly for the
    [{latitude, longitude, name}] shape. *)
Definition coordinates_of (p : option point) : option (Q * Q) :=
  match p with
  | Some (NamedPoint la lo _) => Some (la, lo)
  | _ => None
  end.

(** [document.getElementById('transportMode')?.value || 'driving'] *)
Definition transportMode (w : world) : string :=
  match dom w !! "transportMode" with
  | Some e => if String.eqb (el_value e) EmptyString then "driving" else el_value e
  | None => "driving"
  end.

(** [x.length > 0] *)
Definition length_positive (j : Js.json) : bool :=
  match j with
  | Js.JArr items => (0 <? length items)%nat
  | Js.JStr s => (0 <? String.length s)%nat
  | Js.JObj fs =>
      match Js.assoc "length" fs with
      | Some (Js.JNum q) => negb (Qle_bool q 0)
      | _ => false
      end
  | _ => false
  end.

Definition truthy_opt (o : option Js.json) : bool :=
  match o with Some j => Js.truthy j | None => false end.

(** [routeData.geometry && routeData.geometry.coordinates &&
     routeData.geometry.coordinates.length > 0], giving the coordinates
    when the test passes. *)
Definition route_geometry (routeData : Js.json) : option Js.json :=
  match Js.prop "geometry" routeData with
  | Some g =>
      if Js.truthy g then
        match Js.prop "coordinates" g with
        | Some cs => if Js.truthy cs && length_positive cs then Some cs else None
        | None => None
        end
      else None
  | None => None
  end.

(** [coord[i]] *)
Definition index (i : nat) (coord : Js.json) : Js.error + option Js.json :=
  match coord with
  | Js.JNull => inl (Js.TypeError "Cannot read properties of null")
  | Js.JArr items => inr (items !! i)
  | _ => inr None
  end.

(** One point of the line: [[coord[1], coord[0]]] must be a pair of
    numbers for the map widget to accept it. *)
Definition swap_point (coord : Js.json) : Js.error + (Q * Q) :=
  match index 1 coord, index 0 coord with
  | inl e, _ | _, inl e => inl e
  | inr (Some (Js.JNum lat)), inr (Some (Js.JNum lng)) => inr (lat, lng)
  | _, _ => inl (Js.Error "Invalid LatLng object")
  end.

Fixpoint swap_points (coords : list Js.json) : Js.error + list (Q * Q) :=
  match coords with
  | [] => inr []
  | c :: cs =>
      match swap_point c with
      | inl e => inl e
      | inr p =>
          match swap_points cs with
          | inl e => inl e
          | inr ps => inr (p :: ps)
          end
      end
  end.

(** [coordinates.map(coord => [coord[1], coord[0]])] followed by
    [L.polyline(...)]; only an array has [map]. *)
Definition polyline_of (cs : Js.json) (color : string) : Js.error + layer :=
  match cs with
  | Js.JArr items =>
      match swap_points items with
      | inl e => inl e
      | inr pts => inr (Layer Polyline pts color None)
      end
  | _ => inl (Js.TypeError "coordinates.map is not a function")
  end.

Definition getTransportColor (mode : string) : string :=
  if String.eqb mode "cycling" then "#22c55e"
  else if String.eqb mode "walking" then "#f59e0b"
  else "#6366f1".

(** The text of the success message; the formatting of distance and
    duration is not modelled. *)
Definition route_summary (routeData : Js.json) : string :=
  "Route: " ++ default "undefined" (Js.stringify <$> Js.prop "distance_km" routeData) ++ ", "
    ++ default "undefined" (Js.stringify <$> Js.prop "duration_minutes" routeData).

(** [if (app.routeLine) { app.map.removeLayer(app.routeLine); app.routeLine = null; }] *)
Definition clear_route_line : M unit :=
  line ← gets routeLine;
  match line with
  | Some id => L.removeLayer id ;; modify (set_routeLine None)
  | None => mret tt
  end.

Definition route_params (s e : Q * Q) (mode : string) : list (string * string) :=
  [("start_lat", Js.number_to_string s.1); ("start_lon", Js.number_to_string s.2);
   ("end_lat", Js.number_to_string e.1); ("end_lon", Js.number_to_string e.2);
   ("profile", mode)].

(** [new L.featureGroup([start, end, line])] needs the two markers. *)
Definition feature_group : M unit :=
  a ← gets routeStartMarker;
  b ← gets routeEndMarker;
  match a, b with
  | Some _, Some _ => mret tt
  | _, _ => throw (Js.TypeError "Cannot use 'in' operator to search for '_leaflet_id' in null")
  end.

Definition draw (routeData : Js.json) (mode : string) : M unit :=
  if negb (Js.truthy routeData) || negb (bool_decide (is_Some (Js.prop "distance_km" routeData)))
  then throw (Js.Error "Invalid route data received")
  else
    clear_route_line ;;
    match route_geometry routeData with
    | Some cs =>
        match polyline_of cs (getTransportColor mode) with
        | inl e => throw e
        | inr line =>
            id ← L.addTo line;
            modify (set_routeLine (Some id)) ;;
            feature_group ;;
            showStatus (route_summary routeData) "success"
        end
    | None =>
        showStatus "No route found - try different points or transport mode" "error"
    end.

(** An outcome of the routing call without a route: the call failed, or
    the data describes no line to draw. *)
Definition no_route (r : Js.error + Js.json) : bool :=
  match r with
  | inl _ => true
  | inr routeData =>
      match route_geometry routeData with
      | Some _ => false
      | None => true
      end
  end.

Definition calculateRealRoute (c : Config.t) (writable : bool)
    (reply : net_reply Js.json) : M unit :=
  u ← gets MapPlacesManager.user_signed_in;
  if negb u then TravelMateApp.showAuthModal "login"
  else
    s ← gets (fun w => coordinates_of (startPoint w));
    e ← gets (fun w => coordinates_of (endPoint w));
    match s, e with
    | Some s, Some e =>
        mode ← gets transportMode;
        showStatus ("Calculating " ++ mode ++ " route...") "info" ;;
        try_catch
          (routeData ← APIClient.get c "/routes/real-route" (route_params s e mode) reply;
           draw routeData mode)
          (fun error =>
             ErrorHandler.handle c writable error "Route calculation failed" true ;;
             clear_route_line)
    | _, _ => showStatus "Please set both start and end points first" "error"
    end.

End Features.

(** ** Signing out, as one step

    What [logout] makes of a world in which it runs to its end, written
    without the monad: the same updates, in the order [logout] makes them. *)

Module SignedOut.

Definition disable_action (e : element) : element :=
  if TravelMateApp.action_button e then el_set_disabled true e else e.

(** The document after [showGuestMode]. *)
Definition guest_dom (pm : bool) (d : gmap string element) : gmap string element :=
  (if pm
   then alter (fun e => class_remove "active" (el_set_disabled true e)) "addPlaceModeBtn"
   else id)
    (disable_action <$>
     foldl (fun d id => alter (el_set_disabled true) id d)
       (alter (el_set_display "block") "guestBanner"
          (alter (el_set_display "none") "userMenu"
             (alter (el_set_display "inline-flex") "registerBtn"
                (alter (el_set_display "inline-flex") "loginBtn" d))))
       TravelMateApp.controls).

(** The document after [checkRouteReady] with an end point missing. *)
Definition not_ready_dom (d : gmap string element) : gmap string element :=
  alter (el_set_disabled true) "realRouteBtn" (alter (el_set_disabled true) "createRouteBtn" d).

(** The document after [showStatus message type]. *)
Definition status_dom (message type : string) (d : gmap string element)
    : gmap string element :=
  alter (fun e => el_set_classes ["status-message"; type; "show"] (el_set_text message e))
    "statusMessage" d.

Definition without_layer (slot : option nat) (m : gmap nat layer) : gmap nat layer :=
  match slot with
  | Some id => base.delete id m
  | None => m
  end.

(** The map after [clearRouteDisplay] and [clearMap]. *)
Definition cleared_layers (w : world) : gmap nat layer :=
  foldl (fun m id => base.delete id m)
    (without_layer (routeLine w)
       (without_layer (routeEndMarker w)
          (without_layer (routeStartMarker w) (layers w))))
    (markers w).

Definition signed_out_dom (pm : bool) (d : gmap string element) : gmap string element :=
  status_dom "You have been signed out" "info"
    (status_dom "Map cleared" "info"
       (not_ready_dom (not_ready_dom (guest_dom pm d)))).

Definition signed_out (w : world) : world :=
  set_dom (signed_out_dom (TravelMateApp.has_places_manager w) (dom w))
    (set_anon (map disable_action (anon w))
       (set_layers (cleared_layers w)
          (set_markers []
             (set_routeStartMarker None
                (set_routeEndMarker None
                   (set_routeLine None
                      (set_startPoint None
                         (set_endPoint None
                            (set_currentUser None
                               (set_authToken None
                                  (set_storage (set_ls_token None (storage w)) w))))))))))).

(** The elements [logout] cannot do without. *)
Definition needed : list string :=
  ["loginBtn"; "registerBtn"; "userMenu"; "guestBanner"; "createRouteBtn";
   "realRouteBtn"; "statusMessage"].

End SignedOut.

(** ** A page to run the code on *)

Module Example.

Definition blank : element :=
  Element EmptyString false [] EmptyString EmptyString EmptyString false.

Definition input (v : string) : element :=
  Element EmptyString false [] EmptyString v EmptyString true.

Definition ids : list string :=
  ["statusMessage"; "loginBtn"; "registerBtn"; "userMenu"; "userName";
   "guestBanner"; "createRouteBtn"; "realRouteBtn"; "searchInput";
   "transportMode"; "routeName"; "routeDescription"; "addPlaceModeBtn";
   "sidebar"; "sidebarToggle"; "authModal"; "authTitle"; "authSubtitle";
   "loginForm"; "registerForm"; "authToggleText"; "authToggleBtn"].

Definition inputs : list string :=
  ["loginEmail"; "loginPassword"; "registerName"; "registerEmail"; "registerPassword"].

Definition page : gmap string element :=
  list_to_map (map (fun id => (id, blank)) ids ++ map (fun id => (id, input EmptyString)) inputs).

(** The world when the scripts have loaded: nothing stored, nothing on
    the map, nobody signed in. *)
Definition loaded : world :=
  World 1700000000000 empty_storage [] page [] 0
    ∅ 0 EmptyString
    None None "login" [] None None None None None (Some (PlacesManager false None))
    [] ∅.

Definition dev : Config.t := Config.configs Config.development.

Definition alice : Js.json :=
  Js.JObj [("name", Js.JStr "Alice"); ("email", Js.JStr "alice@example.org")].

Definition ok_reply (body : Js.json) : net_reply Js.json :=
  NetReply 120 (Responds 200 "OK" (inr body)).

Definition unauthorized : net_reply Js.json :=
  NetReply 80 (Responds 401 "Unauthorized" (inr (Js.JObj [("detail", Js.JStr "Not authenticated")]))).

Definition server_error : net_reply Js.json :=
  NetReply 80 (Responds 500 "Internal Server Error" (inr Js.JNull)).

Definition offline : net_reply Js.json :=
  NetReply 5 (Rejects (Js.TypeError "Failed to fetch")).

Definition prod : Config.t := Config.configs Config.production.

Definition search_call : APIClient.call :=
  APIClient.Call 100 "GET" "/locations/search?query=Belgrade&limit=5" APIClient.DNull ∅
    (ok_reply (Js.JObj [("results", Js.JArr [])])).

Definition me_call : APIClient.call :=
  APIClient.Call 100 "GET" "/auth/me" APIClient.DNull ∅ (ok_reply alice).

(** The world after ten searches in a row, a moment later. *)
Definition busy : world :=
  world_after (tick 100) (APIClient.run_calls dev (replicate 10 search_call) loaded).2.

Definition failing_call : APIClient.call :=
  APIClient.Call 100 "GET" "/auth/me" APIClient.DNull ∅ server_error.

Definition credentials : list (string * string) :=
  [("username", "alice@example.org"); ("password", "secret1")].

Definition form_headers : gmap string string :=
  {["Content-Type" := "application/x-www-form-urlencoded"]}.

Definition photo_form : list (string * string) :=
  [("name", "Fortress"); ("category", "attraction"); ("photo", "fortress.jpg")].

Definition fortress : place := Place 1 "Fortress" "attraction" (448231 # 10000) (204503 # 10000).
Definition bakery : place := Place 2 "Bakery" "restaurant" (448150 # 10000) (204600 # 10000).
Definition museum : place := Place 7 "Museum" "museum" (448120 # 10000) (204610 # 10000).

(** Alice is signed in; her place Fortress and the public place Museum
    are on the map. *)
Definition with_places : world :=
  world_after
    (MapPlacesManager.addPlaceMarker fortress ;;
     MapPlacesManager.addPublicPlaceMarker museum)
    (set_currentUser (Some alice) loaded).

Definition places_reply (ps : list place) : net_reply (list place) :=
  NetReply 90 (Responds 200 "OK" (inr ps)).

Definition belgrade : point := NamedPoint (448176 # 10000) (204633 # 10000) "Start (44.8176, 20.4633)".
Definition novi_sad : point := NamedPoint (452671 # 10000) (198335 # 10000) "End (45.2671, 19.8335)".

Definition old_line : layer :=
  Layer Polyline [(448176 # 10000, 204633 # 10000); (452671 # 10000, 198335 # 10000)]
    "#6366f1" None.

(** Alice is signed in, both end points are set and the line of an earlier
    calculation is on the map. *)
Definition with_route : world :=
  set_routeLine (Some 1%nat)
    (set_layers {[1%nat := old_line]}
       (set_last_stamp 1
          (set_startPoint (Some belgrade)
             (set_endPoint (Some novi_sad)
                (set_currentUser (Some alice) loaded))))).

(** A well-formed answer of the routing endpoint that has no geometry. *)
Definition no_geometry : net_reply Js.json :=
  ok_reply (Js.JObj [("distance_km", Js.JNum 0); ("duration_minutes", Js.JNum 0);
                     ("geometry", Js.JObj [("coordinates", Js.JArr [])])]).

(** The page has loaded for someone who signed in on an earlier visit. *)
Definition returning : world :=
  set_storage (set_ls_token (Some "eyJhbGciOiJIUzI1NiJ9.e30.abc") empty_storage) loaded.

(** The sign-in form filled in, with a blank typed before the address. *)
Definition padded_login : world :=
  set_dom (<["loginEmail" := input " alice@example.org"]>
             (<["loginPassword" := input "secret1"]> page)) loaded.

(** The sign-in form filled in with an address that has no dot. *)
Definition bad_login : world :=
  set_dom (<["loginEmail" := input "alice@example"]>
             (<["loginPassword" := input "secret1"]> page)) loaded.

Definition token_reply : net_reply Js.json :=
  ok_reply (Js.JObj [("access_token", Js.JStr "eyJhbGciOiJIUzI1NiJ9.e30.abc");
                     ("token_type", Js.JStr "bearer")]).

(** Alice has signed in and picked a start point on the map. *)
Definition planning : world :=
  world_after
    (TravelMateApp.setAuthenticatedUser dev alice ;;
     TravelMateApp.storeToken "eyJhbGciOiJIUzI1NiJ9.e30.abc" ;;
     modify (set_authToken (Some "eyJhbGciOiJIUzI1NiJ9.e30.abc")) ;;
     TravelMateApp.setStartPoint (448176 # 10000) (204633 # 10000))
    loaded.

(** She then pressed the button that switches to adding places. *)
Definition adding : world :=
  world_after MapPlacesManager.toggleAddPlaceMode planning.

Definition answered (r : Js.error + Js.json) : bool :=
  match r with inr _ => true | inl _ => false end.

End Example.

(** ** Loading the configuration and logging (frontend/config.js) *)

Module ConfigLoad.

Import Config.

Definition detectEnvironment (hostname : string) : environment :=
  if String.eqb hostname "localhost" || String.eqb hostname "127.0.0.1" then development
  else if Js.includes "staging" hostname || Js.includes "dev" hostname then staging
  else production.

(** [new URLSearchParams(window.location.search)]: [has] and [get], the
    latter giving the first value of a key. *)
Fixpoint param_get (k : string) (params : list (string * string)) : option string :=
  match params with
  | [] => None
  | (k', v) :: params' => if String.eqb k k' then Some v else param_get k params'
  end.

Definition with_API_BASE_URL (url : string) (c : t) : t :=
  mk (env c) url (DEBUG c) (CACHE_DURATION c) (REQUEST_TIMEOUT c) (RATE_LIMIT c).

Definition with_DEBUG (b : bool) (c : t) : t :=
  mk (env c) (API_BASE_URL c) b (CACHE_DURATION c) (REQUEST_TIMEOUT c) (RATE_LIMIT c).

Definition overrideFromURL (params : list (string * string)) (c : t) : t :=
  let c1 := match param_get "api" params with
            | Some url => with_API_BASE_URL url c
            | None => c
            end in
  match param_get "debug" params with
  | Some v => with_DEBUG (String.eqb v "true") c1
  | None => c1
  end.

Definition loadConfig (e : environment) (params : list (string * string)) : t :=
  let c := configs e in
  if DEBUG c then overrideFromURL params c else c.

(** [new Config()] on a page served from [hostname] with query [params]. *)
Definition create (hostname : string) (params : list (string * string)) : t :=
  loadConfig (detectEnvironment hostname) params.

(** [LOG_LEVEL], which only [loadConfig] sets, from the table. *)
Definition LOG_LEVEL (e : environment) : string :=
  match e with
  | development => "debug"
  | staging => "info"
  | production => "error"
  end.

(** The [levels] table of [log]; [None] is [undefined]. *)
Definition levels (level : string) : option Z :=
  if String.eqb level "debug" then Some 0
  else if String.eqb level "info" then Some 1
  else if String.eqb level "warn" then Some 2
  else if String.eqb level "error" then Some 3
  else None.

(** [levels[this.LOG_LEVEL] || 1] *)
Definition currentLevel (c : t) : Z :=
  match levels (LOG_LEVEL (env c)) with
  | Some n => if n =? 0 then 1 else n
  | None => 1
  end.

(** Whether [log(level, ...)] writes to the console. *)
Definition log_emits (c : t) (level : string) : bool :=
  if negb (DEBUG c) && String.eqb level "debug" then false
  else
    match levels level with
    | Some l => currentLevel c <=? l
    | None => false
    end.

End ConfigLoad.

(** ** Local storage manager ([StorageManager], frontend/map-places.js) *)

Module StorageManager.

(** What [set] stores under a key: [{ value, timestamp, ttl }]. *)
Record item := Item { it_value : Js.json; it_timestamp : Z; it_ttl : option Z }.

(** [localStorage] with the entries of the storage manager beside the
    families of keys written elsewhere. Keys are the full key strings; a key
    is held by one family at a time, the one that wrote it last. *)
Record store := Store { base : local_storage; items : gmap string item }.

(** [localStorage.removeItem(k)] *)
Definition removeItem (k : string) (s : store) : store :=
  Store
    (LocalStorage (base.delete k (ls_rate (base s))) (base.delete k (ls_errors (base s)))
       (if String.eqb k "token" then None else ls_token (base s)))
    (base.delete k (items s)).

(** [set(key, value, ttl)] at time [now]; [writable] tells whether
    [localStorage.setItem] accepts the write. *)
Definition set (c : Config.t) (writable : bool) (now : Z) (key : string) (value : Js.json)
    (ttl : option Z) (s : store) : bool * store :=
  if writable
  then
    let k := Config.getStorageKey c key in
    let s' := removeItem k s in
    (true, Store (base s') (<[k := Item value now ttl]> (items s')))
  else (false, s).

Definition remove (c : Config.t) (key : string) (s : store) : bool * store :=
  (true, removeItem (Config.getStorageKey c key) s).

(** [item.ttl && Date.now() - item.timestamp > item.ttl] *)
Definition expired (now : Z) (i : item) : bool :=
  match it_ttl i with
  | Some ttl => negb (ttl =? 0) && (ttl <? now - it_timestamp i)
  | None => false
  end.

(** What [get] returns: [null], the [undefined] of an entry that has no
    [value] property, or the stored value. *)
Inductive got := Null | Undefined | Value (v : Js.json).

(** [get(key)] at time [now]. An entry that another part of the program
    wrote (a limiter window, the error log) parses to an object without
    [ttl] and without [value]. *)
Definition get (c : Config.t) (now : Z) (key : string) (s : store) : got * store :=
  let k := Config.getStorageKey c key in
  match items s !! k with
  | Some i =>
      if expired now i then (Null, snd (remove c key s))
      else (Value (it_value i), s)
  | None =>
      match ls_rate (base s) !! k, ls_errors (base s) !! k with
      | None, None => (Null, s)
      | _, _ => (Undefined, s)
      end
  end.

Definition namespaced (c : Config.t) (k : string) : bool :=
  Js.startsWith (Config.getStorageKey c EmptyString) k.

(** [clear()]: every key of [localStorage] that starts with the prefix of
    this environment goes, whoever wrote it. *)
Definition clear (c : Config.t) (s : store) : bool * store :=
  (true,
   Store
     (LocalStorage
        (filter (fun kv => namespaced c kv.1 = false) (ls_rate (base s)))
        (filter (fun kv => namespaced c kv.1 = false) (ls_errors (base s)))
        (if namespaced c "token" then None else ls_token (base s)))
     (filter (fun kv => namespaced c kv.1 = false) (items s))).

End StorageManager.

(** ** What stays outside the page

    [page_only w w'] says that [w'] differs from [w] at most in what is
    shown: the document, the map and what the application remembers of
    them. The browser storage, the network log, the clock, the session,
    the error log and the cache of the API client are the same. *)

Definition page_only (w w' : world) : Prop :=
  clock w' = clock w /\ storage w' = storage w /\ net_log w' = net_log w /\
  reloads w' = reloads w /\ currentUser w' = currentUser w /\
  authToken w' = authToken w /\ errorLog w' = errorLog w /\ cache w' = cache w.

Definition touches_page_only {A} (m : M A) : Prop :=
  forall w, page_only w (snd (m w)).

(** ** Removing one end point of the route ([TravelMateApp]) *)

Module RoutePoints.

Definition clearStartPoint : M unit :=
  m ← gets routeStartMarker;
  match m with
  | Some id => L.removeLayer id ;; modify (set_routeStartMarker None)
  | None => mret tt
  end ;;
  Features.clear_route_line ;;
  modify (set_startPoint None) ;;
  showStatus "Start point removed" "info" ;;
  TravelMateApp.checkRouteReady.

Definition clearEndPoint : M unit :=
  m ← gets routeEndMarker;
  match m with
  | Some id => L.removeLayer id ;; modify (set_routeEndMarker None)
  | None => mret tt
  end ;;
  Features.clear_route_line ;;
  modify (set_endPoint None) ;;
  showStatus "End point removed" "info" ;;
  TravelMateApp.checkRouteReady.

End RoutePoints.

(** ** Searching and saving (frontend/features.js) *)

Module Search.

(** [document.getElementById(id)?.value?.trim()]; [None] is [undefined]. *)
Definition trimmed_value (id : string) (w : world) : option string :=
  match dom w !! id with
  | Some e => Some (Js.trim (el_value e))
  | None => None
  end.

(** [results.results[0]] for a value whose [length] is positive. *)
Definition first_result (rs : Js.json) : option Js.json :=
  match rs with
  | Js.JArr items => items !! 0%nat
  | Js.JStr (String a _) => Some (Js.JStr (String a EmptyString))
  | Js.JObj fs => Js.assoc "0" fs
  | _ => None
  end.

(** [L.marker([firstResult.latitude, firstResult.longitude])], with no
    icon option; the map widget takes a pair of numbers. *)
Definition result_marker (firstResult : option Js.json) : Js.error + layer :=
  match firstResult with
  | None => inl (Js.TypeError "Cannot read properties of undefined (reading 'latitude')")
  | Some Js.JNull => inl (Js.TypeError "Cannot read properties of null (reading 'latitude')")
  | Some r =>
      match Js.prop "latitude" r, Js.prop "longitude" r with
      | Some (Js.JNum lat), Some (Js.JNum lng) => inr (Layer Marker [(lat, lng)] EmptyString None)
      | _, _ => inl (Js.Error "Invalid LatLng object")
      end
  end.

(** What [searchPlace] does with the answer of the search endpoint. *)
Definition show_result (results : Js.json) : M unit :=
  match results with
  | Js.JNull => throw (Js.TypeError "Cannot read properties of null (reading 'results')")
  | _ =>
      let rs := Js.prop "results" results in
      if Features.truthy_opt rs && Features.length_positive (default Js.JNull rs) then
        let firstResult := first_result (default Js.JNull rs) in
        match result_marker firstResult with
        | inl e => throw e
        | inr marker =>
            id ← L.addTo marker;
            modify (fun w => set_markers (markers w ++ [id]) w) ;;
            showStatus
              ("Found: " ++ Js.to_string (from_option (Js.prop "display_name") None firstResult))
              "success"
        end
      else showStatus "No places found" "error"
  end.

(** [searchPlace()]; [encodeURIComponent] is the browser's. *)
Definition searchPlace (c : Config.t) (writable : bool)
    (encodeURIComponent : string -> string) (reply : net_reply Js.json) : M unit :=
  u ← gets MapPlacesManager.user_signed_in;
  if negb u then TravelMateApp.showAuthModal "login"
  else
    q ← gets (trimmed_value "searchInput");
    match q with
    | None => showStatus "Please enter a search query" "error"
    | Some query =>
        if String.eqb query EmptyString then showStatus "Please enter a search query" "error"
        else if (String.length query <? 2)%nat then
          showStatus "Search query must be at least 2 characters long" "error"
        else
          try_catch
            (showStatus "Searching..." "info" ;;
             results ← APIClient.get c "/locations/search"
               [("query", encodeURIComponent query); ("limit", "5")] reply;
             show_result results)
            (fun error => ErrorHandler.handle c writable error "Search failed" true)
    end.

End Search.

Module SavedRoutes.

(** The [start_point] and [end_point] objects of the request, as
    [JSON.stringify] writes them: a property that is [undefined] is left
    out, and a point of the [{lat, lng}] shape has none of the three. *)
Definition point_json (p : point) : Js.json :=
  match p with
  | NamedPoint latitude longitude name =>
      Js.JObj [("latitude", Js.JNum latitude); ("longitude", Js.JNum longitude);
               ("name", Js.JStr name)]
  | LatLng _ _ => Js.JObj []
  end.

Definition routeData (routeName : string) (routeDescription : option string)
    (s e : point) : Js.json :=
  Js.JObj [("name", Js.JStr routeName);
           ("description", Js.JStr (default EmptyString routeDescription));
           ("start_point", point_json s);
           ("end_point", point_json e)].

Definition saved_message (savedRoute : Js.json) : string :=
  "Route " ++ Js.quote (Js.to_string (Js.prop "name" savedRoute)) ++ " saved successfully!".

(** [createRoute()] *)
Definition createRoute (c : Config.t) (writable : bool) (reply : net_reply Js.json) : M unit :=
  u ← gets MapPlacesManager.user_signed_in;
  if negb u then TravelMateApp.showAuthModal "login"
  else
    s ← gets startPoint;
    e ← gets endPoint;
    match s, e with
    | Some s, Some e =>
        n ← gets (Search.trimmed_value "routeName");
        d ← gets (Search.trimmed_value "routeDescription");
        match n with
        | None => showStatus "Please enter a route name" "error"
        | Some routeName =>
            if String.eqb routeName EmptyString then
              showStatus "Please enter a route name" "error"
            else if (String.length routeName <? 2)%nat then
              showStatus "Route name must be at least 2 characters long" "error"
            else
              try_catch
                (showStatus "Saving route..." "info" ;;
                 savedRoute ← APIClient.post c "/routes/"
                   (APIClient.DValue (routeData routeName d s e)) ∅ reply;
                 match savedRoute with
                 | Js.JNull =>
                     throw (Js.TypeError "Cannot read properties of null (reading 'name')")
                 | _ => showStatus (saved_message savedRoute) "success"
                 end ;;
                 set_prop "routeName" (el_set_value EmptyString) ;;
                 set_prop "routeDescription" (el_set_value EmptyString))
                (fun error => ErrorHandler.handle c writable error "Failed to save route" true)
        end
    | _, _ => showStatus "Please set both start and end points first" "error"
    end.

End SavedRoutes.

(** ** The session

    [same_session w w'] says that the sign-in state is the same in both
    worlds: the stored token, the token the application holds and the user
    it knows. *)

Definition same_session (w w' : world) : Prop :=
  ls_token (storage w') = ls_token (storage w) /\
  authToken w' = authToken w /\ currentUser w' = currentUser w.

Definition keeps_session {A} (m : M A) : Prop :=
  forall w, same_session w (snd (m w)).

(** An answer of the network that carries no value: [fetch] rejects, the
    status is outside 200..299, or the body cannot be read. *)
Definition fails {B} (reply : net_reply B) : bool :=
  match outcome reply with
  | Rejects _ => true
  | Responds status _ body =>
      negb (response_ok status) || match body with inl _ => true | inr _ => false end
  end.

(** ** The start marker

    [start_marker_unique w]: a marker with the start icon that is on the
    map is the one the application remembers as its start marker. *)

Definition start_marker_unique (w : world) : Prop :=
  map_Forall
    (fun k l => l_icon l = TravelMateApp.start_icon -> routeStartMarker w = Some k)
    (layers w).

(** ** More pages to run the code on *)

Module Scenario.

Import Example.

(** Alice came back to the page with her token in storage, the token was
    validated, and she signed out. *)
Definition alice_left : world :=
  world_after TravelMateApp.logout
    (world_after (TravelMateApp.checkAuthStatus dev (ok_reply alice)) returning).

Definition bob : Js.json :=
  Js.JObj [("name", Js.JStr "Bob"); ("email", Js.JStr "bob@example.org")].

(** Bob fills in the sign-in form on the page Alice left. *)
Definition bob_at_the_form : world :=
  set_dom (<["loginEmail" := input "bob@example.org"]>
             (<["loginPassword" := input "hunter22"]> (dom alice_left))) alice_left.

Definition bob_token : net_reply Js.json :=
  ok_reply (Js.JObj [("access_token", Js.JStr "eyJhbGciOiJIUzI1NiJ9.e30.bob");
                     ("token_type", Js.JStr "bearer")]).

(** The sign-up form with a one-letter name. *)
Definition short_name_form : world :=
  set_dom (<["registerName" := input "A"]>
             (<["registerEmail" := input "a@example.org"]>
                (<["registerPassword" := input "secret1"]> page))) loaded.

(** The sign-in dialog is open and filled in. *)
Definition dialog_open : world :=
  world_after (TravelMateApp.showAuthModal "login") padded_login.

(** Alice is signed in and has picked both end points from the context
    menu of the map. *)
Definition picked_on_map : world :=
  world_after
    (TravelMateApp.setStartPoint (448176 # 10000) (204633 # 10000) ;;
     TravelMateApp.setEndPoint (452671 # 10000) (198335 # 10000))
    (set_currentUser (Some alice) loaded).

Definition naming_the_route : world :=
  set_dom (<["routeName" := input " Trip "]> (dom picked_on_map)) picked_on_map.

(** Alice is signed in and has typed [q] into the search box. *)
Definition searching (q : string) : world :=
  set_dom (<["searchInput" := input q]> page) (set_currentUser (Some alice) loaded).

Definition found : Js.json :=
  Js.JObj [("results",
            Js.JArr [Js.JObj [("latitude", Js.JNum (448176 # 10000));
                              ("longitude", Js.JNum (204633 # 10000));
                              ("display_name", Js.JStr "Belgrade, Serbia")];
                     Js.JObj [("latitude", Js.JNum (394601 # 10000));
                              ("longitude", Js.JNum (-809584 # 10000));
                              ("display_name", Js.JStr "Belgrade, Montana")]])].

End Scenario.

(** [only_sends m]: whatever [m] does to the network log, it adds to its
    end. *)
Definition only_sends {A} (m : M A) : Prop :=
  forall w, exists extra, net_log (snd (m w)) = (net_log w ++ extra)%list.

(** ** The error handler before and after [window.app] is assigned

    [window.app = new TravelMateApp()] assigns the application when its
    constructor has returned. [init], which the constructor starts, runs
    [initializeMap] before that; an error there is handled while
    [window.app] is still undefined. [app] tells which of the two moments
    a call is made at. *)

Module ErrorHandlerAt.

(** [alert(message)]: a dialog of the browser, outside the document. *)
Definition alert (message : string) : M unit := mret tt.

(** [if (window.app) { window.app.showStatus(message, 'error'); }
     else { alert(message); }] *)
Definition showUserFriendlyError (app : bool) (error : Js.error) (context : string)
    : M unit :=
  if app then showStatus (ErrorHandler.friendly_message error context) "error"
  else alert (ErrorHandler.friendly_message error context).

Definition handle (app : bool) (c : Config.t) (writable : bool) (error : Js.error)
    (context : string) (showToUser : bool) : M unit :=
  now ← Date_now;
  let errorInfo := ErrorHandler.errorInfo_of error context now in
  ErrorHandler.log c writable errorInfo ;;
  when_ showToUser (showUserFriendlyError app error context) ;;
  when_ (ErrorHandler.is_production c) (ErrorHandler.reportError c errorInfo).

End ErrorHandlerAt.

(** ** Loading the page again

    A reload throws away the document and the JavaScript heap: the map,
    the application object with its error handler and API client, the
    places manager. The browser storage stays; the clock and the record of
    what went over the network are the world's, not the page's. *)

Module Reload.

(** The world when the page has been loaded anew and the constructors of
    [TravelMateApp], [ErrorHandler] and [APIClient] have set their fields,
    which is where [init] starts from. The repository holds no HTML: the
    document the server sends is [html], with the elements without an id in
    [loose]. *)
Definition constructed (html : gmap string element) (loose : list element) (w : world)
    : world :=
  World (clock w) (storage w) (net_log w) html loose 0
    ∅ 0 EmptyString
    None None "login" [] None None None None None None
    [] ∅.

(** Whether the code that took the world from [before] to [after] asked
    for a reload. *)
Definition asked (before after : world) : bool := (reloads before <? reloads after)%nat.

(** The page the user is left with when the task has ended. *)
Definition page_after (html : gmap string element) (loose : list element)
    (before after : world) : world :=
  if asked before after then constructed html loose after else after.

End Reload.

(** ** What code needs of the page

    [same_ids w w']: the two documents have the same elements with an id.
    [fails_when P m]: started in a world with [P], [m] throws.
    [lacks id w]: the document has no element [id]. *)

Definition threw {A} (r : (Js.error + A) * world) : bool :=
  match fst r with
  | inl _ => true
  | inr _ => false
  end.

Definition same_ids (w w' : world) : Prop :=
  forall id, is_Some (dom w' !! id) <-> is_Some (dom w !! id).

Definition keeps_ids {A} (m : M A) : Prop :=
  forall w, same_ids w (snd (m w)).

Definition keeps_places_manager {A} (m : M A) : Prop :=
  forall w, placesManager (snd (m w)) = placesManager w.

Definition preserves {A} (P : world -> Prop) (m : M A) : Prop :=
  forall w, P w -> P (snd (m w)).

Definition fails_when {A} (P : world -> Prop) (m : M A) : Prop :=
  forall w, P w -> threw (m w) = true.

Definition lacks (id : string) (w : world) : Prop := dom w !! id = None.

Definition in_add_mode (w : world) : Prop := MapPlacesManager.in_addPlaceMode w = true.

(** * Properties *)

(** ** Running code of the monad *)

Lemma run_bind {A B} (m : M A) (f : A -> M B) (w : world) :
  (m ≫= f) w = match m w with
               | (inr a, w') => f a w'
               | (inl e, w') => (inl e, w')
               end.
Proof. reflexivity. Qed.

Lemma run_ret {A} (a : A) (w : world) : (mret a : M A) w = (inr a, w).
Proof. reflexivity. Qed.

Lemma run_modify (f : world -> world) (w : world) : modify f w = (inr tt, f w).
Proof. reflexivity. Qed.

Lemma run_gets {A} (f : world -> A) (w : world) : gets f w = (inr (f w), w).
Proof. reflexivity. Qed.

(** ** The error log *)

Section ErrorLog.

Variable c : Config.t.

Lemma push_take (e : error_info) (log : list error_info) :
  (length log <= ErrorHandler.maxLogSize)%nat ->
  ErrorHandler.push e log = take ErrorHandler.maxLogSize (e :: log).
Proof.
  intros Hlen. unfold ErrorHandler.push.
  destruct (Nat.ltb_spec ErrorHandler.maxLogSize (length (e :: log))) as [Hlt | Hge].
  - assert (length (e :: log) = S ErrorHandler.maxLogSize) as Hfull
      by (simpl in *; lia).
    destruct (exists_last (l := e :: log) ltac:(discriminate)) as (front & x & Heq).
    rewrite Heq in *. rewrite removelast_last.
    rewrite length_app in Hfull. simpl in Hfull.
    rewrite take_app_length'; [reflexivity | lia].
  - rewrite take_ge; [reflexivity | lia].
Qed.

End ErrorLog.

(** ** Writes to the document leave the rest of the world alone *)

Lemma set_prop_run (id : string) (f : element -> element) (w : world) :
  set_prop id f w =
  match dom w !! id with
  | Some e => (inr tt, set_dom (<[id := f e]> (dom w)) w)
  | None => (inl (null_error id), w)
  end.
Proof. unfold set_prop. rewrite run_bind. simpl. destruct (dom w !! id); reflexivity. Qed.

Lemma showStatus_run (message type : string) (w : world) :
  showStatus message type w =
  match dom w !! "statusMessage" with
  | Some e =>
      (inr tt,
       set_dom (<["statusMessage" :=
                  el_set_classes ["status-message"; type; "show"] (el_set_text message e)]>
                  (dom w)) w)
  | None => (inl (null_error "statusMessage"), w)
  end.
Proof. apply set_prop_run. Qed.

Section ErrorLogClaim.

Variable c : Config.t.

Lemma handle_errorLog writable error context showToUser w :
  errorLog (world_after (ErrorHandler.handle c writable error context showToUser) w)
  = ErrorHandler.push (ErrorHandler.errorInfo_of error context (clock w)) (errorLog w).
Proof.
  unfold world_after, ErrorHandler.handle, ErrorHandler.log, ErrorHandler.showUserFriendlyError,
    ErrorHandler.reportError, send, when_, Date_now.
  repeat (rewrite ?run_bind, ?run_gets, ?run_modify, ?run_ret, ?showStatus_run; simpl).
  destruct writable, showToUser, (ErrorHandler.is_production c);
    repeat (rewrite ?run_bind, ?run_gets, ?run_modify, ?run_ret, ?showStatus_run; simpl);
    try destruct (dom w !! "statusMessage"); reflexivity.
Qed.

Lemma handle_stored writable error context showToUser w :
  let w' := world_after (ErrorHandler.handle c writable error context showToUser) w in
  ls_errors (storage w') !! Config.getStorageKey c "error_log"
  = if writable then Some (take 10 (errorLog w'))
    else ls_errors (storage w) !! Config.getStorageKey c "error_log".
Proof.
  unfold world_after, ErrorHandler.handle, ErrorHandler.log, ErrorHandler.showUserFriendlyError,
    ErrorHandler.reportError, send, when_, Date_now.
  repeat (rewrite ?run_bind, ?run_gets, ?run_modify, ?run_ret, ?showStatus_run; simpl).
  destruct writable, showToUser, (ErrorHandler.is_production c);
    repeat (rewrite ?run_bind, ?run_gets, ?run_modify, ?run_ret, ?showStatus_run; simpl);
    try destruct (dom w !! "statusMessage"); simpl;
    rewrite ?lookup_insert_eq; reflexivity.
Qed.

(** C10. Handling an error keeps the in-memory log within 100 entries:
    the new entry goes first, the entries before it follow in their
    order, and whatever would be the 101st is dropped. What is written
    to durable storage is the first ten entries of that log; when the
    storage refuses the write nothing is written. *)
Theorem error_log_invariant writable error context showToUser w :
  (length (errorLog w) <= 100)%nat ->
  let w' := world_after (ErrorHandler.handle c writable error context showToUser) w in
  errorLog w' = take 100 (ErrorHandler.errorInfo_of error context (clock w) :: errorLog w) /\
  (length (errorLog w') <= 100)%nat /\
  ls_errors (storage w') !! Config.getStorageKey c "error_log"
  = (if writable then Some (take 10 (errorLog w'))
     else ls_errors (storage w) !! Config.getStorageKey c "error_log").
Proof.
  intros Hlen w'.
  assert (errorLog w' = take 100 (ErrorHandler.errorInfo_of error context (clock w) :: errorLog w)) as Hlog.
  { subst w'. rewrite handle_errorLog. now apply push_take. }
  split; [exact Hlog |]. split.
  - rewrite Hlog, length_take. lia.
  - apply handle_stored.
Qed.

End ErrorLogClaim.

Lemma error_log_invariant_witness :
  (length (errorLog Example.loaded) <= 100)%nat /\
  let w' := world_after (ErrorHandler.handle Example.dev true (Js.Error "HTTP 500: oops")
                           "Search failed" true) Example.loaded in
  errorLog w'
  = take 100 (ErrorHandler.errorInfo_of (Js.Error "HTTP 500: oops") "Search failed"
                (clock Example.loaded) :: errorLog Example.loaded) /\
  (length (errorLog w') <= 100)%nat /\
  ls_errors (storage w') !! Config.getStorageKey Example.dev "error_log"
  = Some (take 10 (errorLog w')).
Proof.
  split; [vm_compute; lia |].
  apply (error_log_invariant Example.dev true). vm_compute; lia.
Defined.

(** ** The rate limiter *)

Lemma set_storage_same (w : world) : set_storage (storage w) w = w.
Proof. destruct w; reflexivity. Qed.

Section RateLimiter.

Variable c : Config.t.

Import APIClient.

Lemma load_set_ls_rate key d ls :
  RateLimit.load key (set_ls_rate key d ls) = d.
Proof. unfold RateLimit.load, set_ls_rate. simpl. now rewrite lookup_insert_eq. Qed.

(** A call the limiter stops throws and leaves the world as it was. *)
Lemma request_limited method endpoint d h reply w :
  limited c (getOperationType endpoint) w = true ->
  request c method endpoint d h reply w
  = (inl (rate_limit_error (getOperationType endpoint)), w).
Proof.
  unfold limited, request, checkRateLimit. intros Hlim.
  rewrite run_bind.
  destruct (RateLimit.checkRateLimit c _ (clock w) (storage w)) as [ok ls] eqn:Hchk.
  simpl in Hlim. destruct ok; [discriminate |]. simpl.
  unfold RateLimit.checkRateLimit in Hchk.
  destruct (RateLimit.over_limit _ _ _); inversion Hchk; subst.
  now rewrite set_storage_same.
Qed.

(** A call the limiter lets through is counted, then served. *)
Lemma request_passed method endpoint d h reply w :
  limited c (getOperationType endpoint) w = false ->
  request c method endpoint d h reply w
  = serve c method endpoint d h reply
      (set_storage (snd (RateLimit.checkRateLimit c (getOperationType endpoint)
                           (clock w) (storage w))) w).
Proof.
  unfold limited, request, checkRateLimit. intros Hlim.
  rewrite run_bind.
  destruct (RateLimit.checkRateLimit c _ (clock w) (storage w)) as [ok ls] eqn:Hchk.
  simpl in Hlim. destruct ok; [| discriminate]. reflexivity.
Qed.

(** Serving a call never touches the storage, and takes at most the time
    the network takes to answer. *)
Lemma serve_frame method endpoint d h reply w :
  0 <= elapsed reply ->
  let w' := snd (serve c method endpoint d h reply w) in
  storage w' = storage w /\ clock w <= clock w' <= clock w + elapsed reply.
Proof.
  intros Hel. unfold serve, Date_now.
  repeat (rewrite ?run_bind, ?run_gets; simpl).
  destruct (cache_hit c method _ (clock w) (cache w)) as [v |].
  - rewrite run_ret. simpl. split; [reflexivity | lia].
  - unfold try_catch, perform, fetch, send, tick, Date_now, throw.
    repeat (rewrite ?run_bind, ?run_gets, ?run_modify, ?run_ret; simpl).
    destruct (outcome reply) as [e | status text [e | result]]; simpl.
    + destruct (String.eqb _ _); simpl; (split; [reflexivity | lia]).
    + destruct (response_ok status); simpl;
        repeat (destruct (String.eqb _ _); simpl); (split; [reflexivity | lia]).
    + destruct (response_ok status); simpl.
      * destruct (is_GET method); simpl;
          repeat (rewrite ?run_bind, ?run_gets, ?run_modify, ?run_ret; simpl);
          (split; [reflexivity | lia]).
      * repeat (destruct (String.eqb _ _); simpl); (split; [reflexivity | lia]).
Qed.

Lemma limited_eq type w :
  limited c type w
  = RateLimit.over_limit c type
      (RateLimit.reset_if_elapsed (clock w) (RateLimit.load (rate_key c type) (storage w))).
Proof.
  unfold limited, RateLimit.checkRateLimit, rate_key.
  now destruct (RateLimit.over_limit _ _ _).
Qed.

Lemma counted type w :
  limited c type w = false ->
  snd (RateLimit.checkRateLimit c type (clock w) (storage w))
  = let d := RateLimit.reset_if_elapsed (clock w) (RateLimit.load (rate_key c type) (storage w)) in
    set_ls_rate (rate_key c type) (RateData (rd_count d + 1) (rd_timestamp d)) (storage w).
Proof.
  rewrite limited_eq. unfold RateLimit.checkRateLimit, rate_key. intros ->. reflexivity.
Qed.

Lemma no_reset now d :
  now - rd_timestamp d <= 60000 -> RateLimit.reset_if_elapsed now d = d.
Proof.
  intros H. unfold RateLimit.reset_if_elapsed.
  destruct (Z.ltb_spec 60000 (now - rd_timestamp d)); [lia | reflexivity].
Qed.

Lemma reset now d :
  60000 < now - rd_timestamp d -> RateLimit.reset_if_elapsed now d = RateData 0 now.
Proof.
  intros H. unfold RateLimit.reset_if_elapsed.
  destruct (Z.ltb_spec 60000 (now - rd_timestamp d)); [reflexivity | lia].
Qed.

Lemma duration_nonneg ks : forallb patient ks = true -> 0 <= duration ks.
Proof.
  induction ks as [| k ks IH]; simpl; [lia |].
  intros [Hk Hks]%andb_prop. apply IH in Hks.
  unfold patient in Hk. apply andb_prop in Hk as [? ?]. lia.
Qed.

Lemma after_tick d w : world_after (tick d) w = set_clock (clock w + d) w.
Proof. reflexivity. Qed.

Lemma run_calls_cons k ks w :
  run_calls c (k :: ks) w
  = let w0 := world_after (tick (wait k)) w in
    let r := issue c k w0 in
    let rs := run_calls c ks (snd r) in
    ((w0, fst r) :: fst rs, snd rs).
Proof.
  simpl. destruct (issue c k _) as [r w1]. simpl.
  destruct (run_calls c ks w1) as [rs w2]. reflexivity.
Qed.

(** Inside a window that started at [t1] with [n] calls counted, the calls
    that still fit in the budget go through and the next one is stopped. *)
Lemma run_calls_budget type L :
  Config.RATE_LIMIT c !! type = Some L ->
  forall ks last w n t1,
    RateLimit.load (rate_key c type) (storage w) = RateData n t1 ->
    forallb (of_type type) (ks ++ [last]) = true ->
    forallb patient (ks ++ [last]) = true ->
    clock w - t1 + duration ks + wait last <= 60000 ->
    n + Z.of_nat (length ks) = L ->
    exists first at_last,
      run_calls c (ks ++ [last]) w
      = ((first ++ [(at_last, inl (rate_limit_error type))])%list, at_last) /\
      length first = length ks /\
      Forall (fun s => limited c type s.1 = false) first /\
      limited c type at_last = true /\
      RateLimit.load (rate_key c type) (storage at_last) = RateData L t1.
Proof.
  intros HL. induction ks as [| k ks IH]; intros last w n t1 Hload Htype Hpat Htime Hn.
  - simpl in *. rewrite !andb_true_r in *.
    apply String.eqb_eq in Htype.
    set (w0 := world_after (tick (wait last)) w).
    assert (limited c type w0 = true) as Hlim.
    { rewrite limited_eq. subst w0. rewrite after_tick. simpl.
      rewrite Hload, no_reset by (simpl; lia).
      unfold RateLimit.over_limit. rewrite HL. simpl. apply Z.leb_le. lia. }
    exists [], w0. unfold issue. rewrite <- Htype in Hlim |- *.
    rewrite request_limited by exact Hlim. simpl.
    repeat split; auto. rewrite Htype, Hload. f_equal. lia.
  - rewrite <- app_comm_cons, run_calls_cons.
    simpl in Htype, Hpat, Htime, Hn.
    apply andb_prop in Htype as [Hk Htype]. apply andb_prop in Hpat as [Hpk Hpat].
    apply String.eqb_eq in Hk.
    pose proof Hpat as Hpat'. rewrite forallb_app in Hpat'.
    apply andb_prop in Hpat' as [Hpks Hplast].
    pose proof (duration_nonneg ks Hpks) as Hdur.
    simpl in Hplast. rewrite andb_true_r in Hplast.
    unfold patient in Hpk, Hplast.
    apply andb_prop in Hpk as [Hwk%Z.leb_le Hek%Z.leb_le].
    apply andb_prop in Hplast as [Hwl%Z.leb_le Hel%Z.leb_le].
    set (w0 := world_after (tick (wait k)) w).
    assert (clock w0 = clock w + wait k /\ storage w0 = storage w) as [Hclock Hstore].
    { subst w0. rewrite after_tick. now simpl. }
    assert (limited c type w0 = false) as Hlim.
    { rewrite limited_eq, Hstore, Hload, no_reset by (simpl; lia).
      unfold RateLimit.over_limit. rewrite HL. simpl. apply Z.leb_gt. lia. }
    assert (exists w0', issue c k w0 = serve c (c_method k) (c_endpoint k) (c_data k)
                                         (c_headers k) (c_reply k) w0' /\
                        clock w0' = clock w0 /\
                        storage w0' = set_ls_rate (rate_key c type) (RateData (n + 1) t1)
                                        (storage w))
      as (w0' & Hissue & Hc0 & Hs0).
    { exists (set_storage (set_ls_rate (rate_key c type) (RateData (n + 1) t1)
                            (storage w0)) w0).
      split; [| split].
      - unfold issue. rewrite <- Hk in Hlim. rewrite request_passed by exact Hlim.
        rewrite Hk in *. rewrite counted by exact Hlim. cbv zeta.
        rewrite Hstore, Hload, no_reset by (simpl; lia). reflexivity.
      - reflexivity.
      - cbn [storage set_storage]. now rewrite Hstore. }
    cbv zeta. rewrite Hissue.
    pose proof (serve_frame (c_method k) (c_endpoint k) (c_data k) (c_headers k)
                  (c_reply k) w0' Hek) as [Hst Hcl].
    set (w1 := snd (serve c _ _ _ _ _ w0')) in *.
    destruct (IH last w1 (n + 1) t1) as (first & at_last & Hrun & Hlen & Hall & Hstop & Hfin).
    + rewrite Hst, Hs0. apply load_set_ls_rate.
    + exact Htype.
    + exact Hpat.
    + lia.
    + lia.
    + exists ((w0, fst (serve c (c_method k) (c_endpoint k) (c_data k) (c_headers k)
                          (c_reply k) w0')) :: first), at_last.
      rewrite Hrun. simpl. repeat split; auto.
Qed.

Lemma duration_app ks last :
  duration (ks ++ [last]) = duration ks + (wait last + elapsed (c_reply last)).
Proof. induction ks as [| k ks IH]; simpl; [lia | rewrite IH; lia]. Qed.

(** C1, for the categories that have a limit. With [L] the limit
    configured for a category, [L + 1] calls of that category, the first of
    which opens a new window and all of which fall within 60 seconds of it,
    go as follows: the first [L] pass the limiter, and call [L + 1] throws
    the rate-limit error in the very world it was made in, so without any
    network call. Once more than 60 seconds have passed since the first
    call, the limiter starts counting from zero again. *)
Theorem rate_limit_window type L k ks w :
  Config.RATE_LIMIT c !! type = Some L ->
  0 <= L ->
  length ks = Z.to_nat L ->
  forallb (of_type type) (k :: ks) = true ->
  forallb patient (k :: ks) = true ->
  60000 < clock w + wait k - rd_timestamp (RateLimit.load (rate_key c type) (storage w)) ->
  span k ks <= 60000 ->
  exists first at_last after,
    run_calls c (k :: ks) w
    = ((first ++ [(at_last, inl (rate_limit_error type))])%list, after) /\
    length first = Z.to_nat L /\
    Forall (fun s => limited c type s.1 = false) first /\
    limited c type at_last = true /\
    after = at_last /\
    forall now,
      60000 < now - (clock w + wait k) ->
      RateLimit.reset_if_elapsed now (RateLimit.load (rate_key c type) (storage after))
      = RateData 0 now.
Proof.
  intros HL Hpos Hlen Htype Hpat Hfresh Hspan.
  simpl in Htype, Hpat.
  apply andb_prop in Htype as [Hk Htype]. apply andb_prop in Hpat as [Hpk Hpat].
  apply String.eqb_eq in Hk.
  pose proof Hpk as Hpk'. unfold patient in Hpk'.
  apply andb_prop in Hpk' as [Hwk%Z.leb_le Hek%Z.leb_le].
  set (w0 := world_after (tick (wait k)) w).
  assert (clock w0 = clock w + wait k /\ storage w0 = storage w) as [Hclock Hstore].
  { subst w0. rewrite after_tick. now simpl. }
  assert (RateLimit.reset_if_elapsed (clock w0) (RateLimit.load (rate_key c type) (storage w0))
          = RateData 0 (clock w0)) as Hreset.
  { rewrite Hstore. apply reset. lia. }
  destruct (Z.eq_dec L 0) as [-> | Hne].
  - (* no budget at all: the first call is the one that is stopped *)
    destruct ks; [| discriminate].
    assert (limited c type w0 = true) as Hlim.
    { rewrite limited_eq, Hreset. unfold RateLimit.over_limit. now rewrite HL. }
    exists [], w0, w0. rewrite run_calls_cons. cbv zeta. fold w0.
    unfold issue. rewrite <- Hk in Hlim |- *.
    rewrite request_limited by exact Hlim. simpl.
    repeat split; auto.
    intros now Hnow. rewrite ?Hstore, ?Hk. apply reset. simpl. lia.
  - assert (limited c type w0 = false) as Hlim.
    { rewrite limited_eq, Hreset. unfold RateLimit.over_limit. rewrite HL.
      simpl. apply Z.leb_gt. lia. }
    destruct (exists_last (l := ks)) as (ks' & last & ->).
    { intros ->. simpl in Hlen. lia. }
    rewrite length_app in Hlen. simpl in Hlen.
    assert (exists w0', issue c k w0 = serve c (c_method k) (c_endpoint k) (c_data k)
                                         (c_headers k) (c_reply k) w0' /\
                        clock w0' = clock w0 /\
                        storage w0' = set_ls_rate (rate_key c type) (RateData 1 (clock w0))
                                        (storage w))
      as (w0' & Hissue & Hc0 & Hs0).
    { exists (set_storage (set_ls_rate (rate_key c type) (RateData 1 (clock w0))
                            (storage w0)) w0).
      split; [| split].
      - unfold issue. rewrite <- Hk in Hlim. rewrite request_passed by exact Hlim.
        rewrite Hk in *. rewrite counted by exact Hlim. cbv zeta.
        rewrite Hreset. reflexivity.
      - reflexivity.
      - cbn [storage set_storage]. now rewrite Hstore. }
    pose proof (serve_frame (c_method k) (c_endpoint k) (c_data k) (c_headers k)
                  (c_reply k) w0' Hek) as [Hst Hcl].
    set (w1 := snd (serve c _ _ _ _ _ w0')) in *.
    pose proof Hpat as Hpat'. rewrite forallb_app in Hpat'.
    apply andb_prop in Hpat' as [Hpks Hplast].
    pose proof (duration_nonneg ks' Hpks) as Hdur.
    simpl in Hplast. rewrite andb_true_r in Hplast. unfold patient in Hplast.
    apply andb_prop in Hplast as [Hwl%Z.leb_le Hel%Z.leb_le].
    unfold span in Hspan. rewrite duration_app in Hspan.
    destruct (run_calls_budget type L HL ks' last w1 1 (clock w0))
      as (first & at_last & Hrun & Hlen' & Hall & Hstop & Hfin).
    + rewrite Hst, Hs0. apply load_set_ls_rate.
    + exact Htype.
    + exact Hpat.
    + lia.
    + lia.
    + exists ((w0, fst (serve c (c_method k) (c_endpoint k) (c_data k) (c_headers k)
                          (c_reply k) w0')) :: first), at_last, at_last.
      rewrite run_calls_cons. cbv zeta. fold w0. rewrite Hissue. fold w1. rewrite Hrun.
      simpl. repeat split; auto.
      * lia.
      * intros now Hnow. rewrite Hfin. apply reset. simpl. lia.
Qed.

(** A category without an entry in [RATE_LIMIT] is never stopped. *)
Lemma unlimited type w :
  Config.RATE_LIMIT c !! type = None -> limited c type w = false.
Proof. intros H. rewrite limited_eq. unfold RateLimit.over_limit. now rewrite H. Qed.

End RateLimiter.

Lemma rate_limit_window_witness :
  exists first at_last after,
    APIClient.run_calls Example.dev (Example.search_call :: replicate 10 Example.search_call)
      Example.loaded
    = ((first ++ [(at_last, inl (APIClient.rate_limit_error "search"))])%list, after) /\
    length first = Z.to_nat 10 /\
    Forall (fun s => APIClient.limited Example.dev "search" s.1 = false) first /\
    APIClient.limited Example.dev "search" at_last = true /\
    after = at_last /\
    forall now,
      60000 < now - (clock Example.loaded + APIClient.wait Example.search_call) ->
      RateLimit.reset_if_elapsed now
        (RateLimit.load (APIClient.rate_key Example.dev "search") (storage after))
      = RateData 0 now.
Proof.
  apply (rate_limit_window Example.dev "search" 10).
  - vm_compute. reflexivity.
  - lia.
  - reflexivity.
  - vm_compute. reflexivity.
  - vm_compute. reflexivity.
  - vm_compute. reflexivity.
  - vm_compute. discriminate.
Defined.

(** C1 as stated also names the category [general]. No environment
    configures a limit for it, and the limiter never stops it: 51 calls in
    a row, one more than the largest limit configured anywhere plus one,
    are all answered. *)
Lemma general_calls_are_not_limited :
  Config.RATE_LIMIT Example.prod !! "general" = None /\
  let trace := (APIClient.run_calls Example.prod (replicate 51 Example.me_call)
                  Example.loaded).1 in
  length trace = 51%nat /\
  forallb (fun s => negb (APIClient.limited Example.prod "general" s.1)
                    && Example.answered s.2) trace = true.
Proof. vm_compute. repeat split; reflexivity. Qed.

Lemma general_has_no_limit (e : Config.environment) :
  Config.RATE_LIMIT (Config.configs e) !! "general" = None.
Proof. destruct e; reflexivity. Qed.

(** ** The cache *)

Section Cache.

Variable c : Config.t.

Import APIClient.

(** The request [serve] hands to [fetch] in world [w]. *)
Lemma serve_hit method endpoint d h reply w v :
  cache_hit c method (cacheKey method (Config.getEndpoint c endpoint) d) (clock w) (cache w)
  = Some v ->
  serve c method endpoint d h reply w = (inr v, w).
Proof.
  intros Hhit. unfold serve, Date_now.
  repeat (rewrite ?run_bind, ?run_gets; simpl). now rewrite Hhit.
Qed.

Lemma serve_miss method endpoint d h reply w :
  cache_hit c method (cacheKey method (Config.getEndpoint c endpoint) d) (clock w) (cache w)
  = None ->
  net_log (snd (serve c method endpoint d h reply w))
  = (net_log w ++
     [build_config method d h (authToken w) (Config.getEndpoint c endpoint)])%list.
Proof.
  intros Hmiss. unfold serve, Date_now.
  repeat (rewrite ?run_bind, ?run_gets; simpl). rewrite Hmiss.
  unfold try_catch, perform, fetch, send, tick, Date_now, throw.
  repeat (rewrite ?run_bind, ?run_gets, ?run_modify, ?run_ret; simpl).
  destruct (outcome reply) as [e | status text [e | result]]; simpl.
  - now destruct (String.eqb _ _).
  - destruct (response_ok status); simpl; repeat (destruct (String.eqb _ _); simpl); reflexivity.
  - destruct (response_ok status); simpl.
    + destruct (is_GET method); simpl;
        repeat (rewrite ?run_bind, ?run_gets, ?run_modify, ?run_ret; simpl); reflexivity.
    + repeat (destruct (String.eqb _ _); simpl); reflexivity.
Qed.

(** A [GET] that misses the cache and is answered well stores the answer
    with the time at which it arrived. *)
Lemma serve_get_ok endpoint d h reply w status text v :
  cache_hit c "GET" (cacheKey "GET" (Config.getEndpoint c endpoint) d) (clock w) (cache w)
  = None ->
  outcome reply = Responds status text (inr v) ->
  response_ok status = true ->
  serve c "GET" endpoint d h reply w
  = (inr v,
     set_cache (<[cacheKey "GET" (Config.getEndpoint c endpoint) d
                  := CacheEntry v (clock w + elapsed reply)]> (cache w))
       (set_clock (clock w + elapsed reply)
          (set_net_log
             (net_log w ++
              [build_config "GET" d h (authToken w) (Config.getEndpoint c endpoint)]) w))).
Proof.
  intros Hmiss Hout Hok. unfold serve, Date_now.
  repeat (rewrite ?run_bind, ?run_gets; simpl). rewrite Hmiss.
  unfold try_catch, perform, fetch, send, tick, Date_now, throw.
  repeat (rewrite ?run_bind, ?run_gets, ?run_modify, ?run_ret; simpl).
  rewrite Hout, Hok. simpl.
  repeat (rewrite ?run_bind, ?run_gets, ?run_modify, ?run_ret; simpl). reflexivity.
Qed.

(** C9. The limiter runs before the cache is looked at. A [GET] whose
    answer is in the cache and still fresh is counted against the budget
    of its category all the same: when the limiter lets it through, the
    stored counter goes up by one and the cached value comes back without a
    network call; when the budget is used up, the call throws the
    rate-limit error although the cache held the answer. *)
Theorem cached_get_spends_budget endpoint d h reply w v :
  cache_hit c "GET" (cacheKey "GET" (Config.getEndpoint c endpoint) d) (clock w) (cache w)
  = Some v ->
  let type := getOperationType endpoint in
  let counter := RateLimit.reset_if_elapsed (clock w)
                   (RateLimit.load (rate_key c type) (storage w)) in
  let r := request c "GET" endpoint d h reply w in
  limited c type w = RateLimit.over_limit c type counter /\
  if limited c type w
  then r = (inl (rate_limit_error type), w)
  else fst r = inr v /\
       net_log (snd r) = net_log w /\
       RateLimit.load (rate_key c type) (storage (snd r))
       = RateData (rd_count counter + 1) (rd_timestamp counter).
Proof.
  intros Hhit type counter r. subst r.
  split; [apply limited_eq |].
  destruct (limited c type w) eqn:Hlim.
  - now apply request_limited.
  - rewrite request_passed by exact Hlim.
    rewrite serve_hit with (v := v) by exact Hhit. simpl.
    split; [reflexivity |]. split; [reflexivity |].
    fold type. rewrite counted by exact Hlim. cbv zeta.
    fold type. apply load_set_ls_rate.
Qed.

Lemma run_calls_two k1 k2 w :
  run_calls c [k1; k2] w
  = let w1 := world_after (tick (wait k1)) w in
    let r1 := issue c k1 w1 in
    let w2 := world_after (tick (wait k2)) (snd r1) in
    let r2 := issue c k2 w2 in
    ([(w1, fst r1); (w2, fst r2)], snd r2).
Proof. rewrite run_calls_cons. cbv zeta. rewrite run_calls_cons. reflexivity. Qed.

(** C2, as the code has it. Two identical [GET] calls, neither stopped by
    the limiter, the first of which finds nothing fresh in the cache and is
    answered with a 2xx response and a JSON body [v]. If the second call
    is made less than [CACHE_DURATION] after that answer was stored, it
    returns [v] and the pair has made exactly one network call; if it is
    made [CACHE_DURATION] or more after, the pair has made two. *)
Theorem cached_pair k1 k2 w status text v :
  c_method k1 = "GET" -> c_method k2 = "GET" ->
  c_endpoint k2 = c_endpoint k1 -> c_data k2 = c_data k1 ->
  let type := getOperationType (c_endpoint k1) in
  let url := Config.getEndpoint c (c_endpoint k1) in
  let w1 := world_after (tick (wait k1)) w in
  forallb (fun s => negb (limited c type s.1)) (run_calls c [k1; k2] w).1 = true ->
  cache_hit c "GET" (cacheKey "GET" url (c_data k1)) (clock w1) (cache w1) = None ->
  outcome (c_reply k1) = Responds status text (inr v) ->
  response_ok status = true ->
  let run := run_calls c [k1; k2] w in
  let req1 := build_config "GET" (c_data k1) (c_headers k1) (authToken w) url in
  let req2 := build_config "GET" (c_data k1) (c_headers k2) (authToken w) url in
  (wait k2 < Config.CACHE_DURATION c ->
   map snd run.1 = [inr v; inr v] /\ net_log run.2 = (net_log w ++ [req1])%list) /\
  (Config.CACHE_DURATION c <= wait k2 ->
   net_log run.2 = (net_log w ++ [req1; req2])%list).
Proof.
  intros Hm1 Hm2 Hep Hd type url w1 Hpass Hmiss Hout Hok run req1 req2.
  subst run. rewrite run_calls_two in *. cbv zeta in *. fold w1 in Hpass |- *.
  unfold issue in *. rewrite Hm1, Hm2, Hep, Hd in *.
  cbn [fst snd map] in *.
  cbn [forallb] in Hpass. rewrite andb_true_r in Hpass.
  apply andb_prop in Hpass as [Hl1%negb_true_iff Hl2%negb_true_iff].
  cbn [fst] in Hl1, Hl2. fold type in Hl1, Hl2.
  rewrite request_passed in Hl2 |- * by exact Hl1.
  set (w1' := set_storage _ w1) in *.
  rewrite (serve_get_ok (c_endpoint k1) (c_data k1) (c_headers k1) (c_reply k1) w1'
             status text v Hmiss Hout Hok) in Hl2 |- *.
  cbn [fst snd] in *.
  set (w1'' := set_cache _ _) in *.
  set (w2 := world_after (tick (wait k2)) w1'') in *.
  rewrite request_passed by exact Hl2.
  set (w2' := set_storage _ w2).
  assert (cache_hit c "GET" (cacheKey "GET" url (c_data k1)) (clock w2') (cache w2')
          = if wait k2 <? Config.CACHE_DURATION c then Some v else None) as Hsecond.
  { unfold cache_hit. simpl. rewrite lookup_insert_eq. simpl.
    replace (clock w + wait k1 + elapsed (c_reply k1) + wait k2
             - (clock w + wait k1 + elapsed (c_reply k1))) with (wait k2) by lia.
    reflexivity. }
  split; intros Hwait.
  - destruct (Z.ltb_spec (wait k2) (Config.CACHE_DURATION c)); [| lia].
    rewrite (serve_hit "GET" (c_endpoint k1) (c_data k1) (c_headers k2) (c_reply k2) w2' v)
      by exact Hsecond.
    split; reflexivity.
  - destruct (Z.ltb_spec (wait k2) (Config.CACHE_DURATION c)); [lia |].
    rewrite (serve_miss "GET" (c_endpoint k1) (c_data k1) (c_headers k2) (c_reply k2) w2')
      by exact Hsecond.
    simpl. now rewrite <- app_assoc.
Qed.

End Cache.

Lemma cached_get_spends_budget_witness :
  APIClient.cache_hit Example.dev "GET"
    (APIClient.cacheKey "GET"
       (Config.getEndpoint Example.dev (APIClient.c_endpoint Example.search_call))
       APIClient.DNull)
    (clock Example.busy) (cache Example.busy)
  = Some (Js.JObj [("results", Js.JArr [])]) /\
  APIClient.request Example.dev "GET" (APIClient.c_endpoint Example.search_call)
    APIClient.DNull ∅ Example.offline Example.busy
  = (inl (APIClient.rate_limit_error "search"), Example.busy).
Proof.
  assert (APIClient.cache_hit Example.dev "GET"
            (APIClient.cacheKey "GET"
               (Config.getEndpoint Example.dev (APIClient.c_endpoint Example.search_call))
               APIClient.DNull)
            (clock Example.busy) (cache Example.busy)
          = Some (Js.JObj [("results", Js.JArr [])])) as Hhit
    by (vm_compute; reflexivity).
  split; [exact Hhit |].
  pose proof (cached_get_spends_budget Example.dev
                (APIClient.c_endpoint Example.search_call) APIClient.DNull ∅
                Example.offline Example.busy _ Hhit) as [_ H].
  assert (APIClient.limited Example.dev
            (APIClient.getOperationType (APIClient.c_endpoint Example.search_call))
            Example.busy = true) as Hlim by (vm_compute; reflexivity).
  rewrite Hlim in H. exact H.
Defined.

Lemma cached_pair_witness :
  APIClient.wait Example.search_call < Config.CACHE_DURATION Example.dev /\
  let run := APIClient.run_calls Example.dev [Example.search_call; Example.search_call]
               Example.loaded in
  map snd run.1 = [inr (Js.JObj [("results", Js.JArr [])]);
                   inr (Js.JObj [("results", Js.JArr [])])] /\
  length (net_log run.2) = 1%nat.
Proof.
  split; [vm_compute; reflexivity |].
  pose proof (cached_pair Example.dev Example.search_call Example.search_call Example.loaded
                200 "OK" (Js.JObj [("results", Js.JArr [])])
                eq_refl eq_refl eq_refl eq_refl) as H.
  cbv zeta in H.
  destruct H as [H _].
  - vm_compute. reflexivity.
  - vm_compute. reflexivity.
  - reflexivity.
  - reflexivity.
  - cbv zeta. destruct H as [Hv Hlog]; [vm_compute; reflexivity |].
    split; [exact Hv |]. rewrite Hlog. reflexivity.
Defined.

(** C2 as stated fails when the first call is not answered well: only a
    successful answer is stored, so an identical call made a tenth of a
    second later goes to the network again. *)
Lemma failed_get_is_fetched_again :
  APIClient.wait Example.failing_call < Config.CACHE_DURATION Example.dev /\
  let run := APIClient.run_calls Example.dev [Example.failing_call; Example.failing_call]
               Example.loaded in
  length (net_log run.2) = 2%nat /\
  forallb (fun s => negb (APIClient.limited Example.dev "general" s.1)) run.1 = true.
Proof. vm_compute. repeat split; reflexivity. Qed.

(** ** Request bodies *)

Section Bodies.

Variable c : Config.t.

Import APIClient.

Lemma content_type_kept (h : gmap string string) token :
  with_auth token (h ∪ {["Content-Type" := "application/json"]}) !! "Content-Type"
  = Some (default "application/json" (h !! "Content-Type")).
Proof.
  assert ((h ∪ {["Content-Type" := "application/json"]}) !! "Content-Type"
          = Some (default "application/json" (h !! "Content-Type"))) as Hu.
  { rewrite lookup_union. destruct (h !! "Content-Type") eqn:Hh; simpl.
    - now rewrite lookup_singleton_eq.
    - now rewrite lookup_singleton_eq. }
  unfold with_auth. destruct token as [t |]; [| exact Hu].
  destruct (String.eqb t EmptyString); [exact Hu |].
  rewrite lookup_insert_ne by discriminate. exact Hu.
Qed.

(** C3, as the code has it. A call whose method is not [GET] and which the
    limiter lets through goes to the network with the request
    [build_config] makes. A [FormData] body is sent as it is and the
    request has no [Content-Type] header; a [URLSearchParams] body is sent
    as it is too, with the headers untouched; any other truthy value is
    sent as its JSON text; a falsy value is not sent at all. Where the
    header is kept it is the caller's, or [application/json]. *)
Theorem non_get_body method endpoint d h reply w :
  is_GET method = false ->
  limited c (getOperationType endpoint) w = false ->
  let req := build_config method d h (authToken w) (Config.getEndpoint c endpoint) in
  let kept := Some (default "application/json" (h !! "Content-Type")) in
  net_log (snd (request c method endpoint d h reply w)) = (net_log w ++ [req])%list /\
  match d with
  | DFormData fd =>
      fr_body req = SentFormData fd /\ fr_headers req !! "Content-Type" = None
  | DParams ps =>
      fr_body req = SentParams ps /\ fr_headers req !! "Content-Type" = kept
  | DValue j =>
      if Js.truthy j
      then fr_body req = SentText (Js.stringify j) /\ fr_headers req !! "Content-Type" = kept
      else fr_body req = NoBody
  | DNull => fr_body req = NoBody
  end.
Proof.
  intros Hget Hlim req kept. split.
  - rewrite request_passed by exact Hlim.
    rewrite serve_miss; [reflexivity |].
    unfold cache_hit. now rewrite Hget.
  - subst req kept. unfold build_config. rewrite Hget.
    destruct d as [| fd | ps | j]; simpl.
    + reflexivity.
    + split; [reflexivity |]. apply lookup_delete_eq.
    + split; [reflexivity |]. apply content_type_kept.
    + destruct (Js.truthy j); simpl; [| reflexivity].
      split; [reflexivity |]. apply content_type_kept.
Qed.

End Bodies.

Lemma non_get_body_witness :
  let req := APIClient.build_config "POST" (APIClient.DFormData Example.photo_form) ∅
               (authToken Example.loaded)
               (Config.getEndpoint Example.dev "/profile/places") in
  net_log (snd (APIClient.request Example.dev "POST" "/profile/places"
                  (APIClient.DFormData Example.photo_form) ∅
                  (Example.ok_reply Js.JNull) Example.loaded))
  = [req] /\
  fr_body req = SentFormData Example.photo_form /\
  fr_headers req !! "Content-Type" = None.
Proof.
  pose proof (non_get_body Example.dev "POST" "/profile/places"
                (APIClient.DFormData Example.photo_form) ∅
                (Example.ok_reply Js.JNull) Example.loaded) as H.
  cbv zeta in H. destruct H as [Hlog Hbody].
  - reflexivity.
  - vm_compute. reflexivity.
  - cbv zeta. split; [exact Hlog | exact Hbody].
Defined.

(** C3 as stated fails for a [URLSearchParams] body, which is what the
    sign-in form posts: it goes out as form parameters, not as JSON text. *)
Lemma form_parameters_are_not_sent_as_json :
  net_log (snd (APIClient.post Example.dev "/auth/login"
                  (APIClient.DParams Example.credentials) Example.form_headers
                  (Example.ok_reply Js.JNull) Example.loaded))
  = [FetchRequest "http://localhost:8088/auth/login" "POST" Example.form_headers
       (SentParams Example.credentials)].
Proof. vm_compute. reflexivity. Qed.

(** ** Markers of the user's places *)

Lemma set_layers_same (w : world) : set_layers (layers w) w = w.
Proof. destruct w; reflexivity. Qed.

Lemma set_layers_twice a b (w : world) : set_layers a (set_layers b w) = set_layers a w.
Proof. reflexivity. Qed.

Section PlaceMarkers.

Import MapPlacesManager.

(** Removing the place markers among [ls], one after the other. *)
Lemma forEach_remove (ls : list (nat * layer)) (w : world) :
  forEach ls (fun kl => when_ (is_place_marker kl.2) (L.removeLayer kl.1)) w
  = (inr tt,
     set_layers
       (foldl (fun m kl => if is_place_marker kl.2 then base.delete kl.1 m else m)
          (layers w) ls) w).
Proof.
  revert w. induction ls as [| [k l] ls IH]; intros w; cbn [forEach foldl fst snd].
  - now rewrite run_ret, set_layers_same.
  - rewrite run_bind. unfold when_, L.removeLayer.
    destruct (is_place_marker l).
    + rewrite run_modify, IH. reflexivity.
    + rewrite run_ret, IH. reflexivity.
Qed.

Lemma foldl_remove_lookup (ls : list (nat * layer)) (m : gmap nat layer) (k : nat) :
  foldl (fun m kl => if is_place_marker kl.2 then base.delete kl.1 m else m) m ls !! k
  = if existsb (fun kl => (kl.1 =? k)%nat && is_place_marker kl.2) ls
    then None else m !! k.
Proof.
  revert m. induction ls as [| [k' l] ls IH]; intros m; simpl; [reflexivity |].
  rewrite IH. destruct (existsb _ ls); [now rewrite orb_true_r |].
  rewrite orb_false_r.
  destruct (Nat.eqb_spec k' k) as [-> | Hne]; simpl.
  - destruct (is_place_marker l); [apply lookup_delete_eq | reflexivity].
  - destruct (is_place_marker l); [now apply lookup_delete_ne | reflexivity].
Qed.

(** [clearPlaceMarkers] takes exactly the markers that carry place data
    off the map and touches nothing else. *)
Lemma clearPlaceMarkers_run (w : world) :
  exists m,
    clearPlaceMarkers w = (inr tt, set_layers m w) /\
    forall k,
      m !! k = match layers w !! k with
               | Some l => if is_place_marker l then None else Some l
               | None => None
               end.
Proof.
  eexists. split.
  - unfold clearPlaceMarkers, L.eachLayer. rewrite run_bind, run_gets. simpl.
    apply forEach_remove.
  - intros k. rewrite foldl_remove_lookup.
    destruct (layers w !! k) as [l |] eqn:Hk.
    + destruct (is_place_marker l) eqn:Hl.
      * assert (existsb (fun kl => (kl.1 =? k)%nat && is_place_marker kl.2)
                  (map_to_list (layers w)) = true) as ->; [| reflexivity].
        apply existsb_exists. exists (k, l). split.
        -- apply list_elem_of_In, elem_of_map_to_list. exact Hk.
        -- simpl. now rewrite Nat.eqb_refl.
      * destruct (existsb _ _) eqn:Hex; [| reflexivity].
        apply existsb_exists in Hex as ([k' l'] & Hin & Hkl). simpl in Hkl.
        apply andb_prop in Hkl as [->%Nat.eqb_eq Hl'].
        apply list_elem_of_In, elem_of_map_to_list in Hin. congruence.
    + destruct (existsb _ _) eqn:Hex; [| reflexivity].
      apply existsb_exists in Hex as ([k' l'] & Hin & Hkl). simpl in Hkl.
      apply andb_prop in Hkl as [->%Nat.eqb_eq Hl'].
      apply list_elem_of_In, elem_of_map_to_list in Hin. congruence.
Qed.

Lemma addPlaceMarker_run (p : place) (w : world) :
  (addPlaceMarker p ;; mret tt) w
  = (inr tt,
     set_layers (<[S (last_stamp w) := place_marker p]> (layers w))
       (set_last_stamp (S (last_stamp w)) w)).
Proof. reflexivity. Qed.

(** Adding one marker per place: the markers get the next stamps, in the
    order of the places. *)
Lemma add_markers_run (ps : list place) (w : world) :
  exists m,
    forEach ps (fun p => addPlaceMarker p ;; mret tt) w
    = (inr tt, set_layers m (set_last_stamp (last_stamp w + length ps)%nat w)) /\
    forall k,
      m !! k = if decide (last_stamp w < k <= last_stamp w + length ps)%nat
               then place_marker <$> ps !! (k - S (last_stamp w))%nat
               else layers w !! k.
Proof.
  revert w. induction ps as [| p ps IH]; intros w.
  - exists (layers w). split.
    + simpl. rewrite run_ret, Nat.add_0_r. now destruct w.
    + intros k. simpl. case_decide; [lia | reflexivity].
  - cbn [forEach]. rewrite run_bind, addPlaceMarker_run.
    destruct (IH (set_layers (<[S (last_stamp w) := place_marker p]> (layers w))
                    (set_last_stamp (S (last_stamp w)) w)))
      as (m & Hrun & Hm).
    exists m. split.
    + rewrite Hrun. f_equal. unfold set_layers, set_last_stamp. cbn. f_equal. lia.
    + intros k. rewrite Hm. simpl.
      repeat case_decide; try lia.
      * destruct (decide (k = S (last_stamp w))) as [-> | Hne]; [lia |].
        replace (k - S (last_stamp w))%nat with (S (k - S (S (last_stamp w)))) by lia.
        reflexivity.
      * assert (k = S (last_stamp w)) as -> by lia.
        rewrite lookup_insert_eq, Nat.sub_diag. reflexivity.
      * rewrite lookup_insert_ne by lia. reflexivity.
Qed.

Variable c : Config.t.

(** The layers on the map after a successful [loadUserPlaces]. *)
Lemma loadUserPlaces_layers reply w status text ps :
  user_signed_in w = true ->
  outcome reply = Responds status text (inr ps) ->
  response_ok status = true ->
  forall k,
    layers (world_after (loadUserPlaces c reply) w) !! k
    = if decide (last_stamp w < k <= last_stamp w + length ps)%nat
      then place_marker <$> ps !! (k - S (last_stamp w))%nat
      else match layers w !! k with
           | Some l => if is_place_marker l then None else Some l
           | None => None
           end.
Proof.
  intros Hu Hout Hok k. unfold world_after, loadUserPlaces.
  rewrite run_bind, run_gets, Hu. cbn [negb].
  unfold try_catch, fetch, send, tick.
  repeat (rewrite ?run_bind, ?run_gets, ?run_modify, ?run_ret; cbn [fst snd]).
  rewrite Hout. unfold show_places. rewrite Hok. cbn [negb].
  rewrite run_bind.
  match goal with |- context [clearPlaceMarkers ?w1] =>
    destruct (clearPlaceMarkers_run w1) as (m1 & -> & Hm1)
  end.
  match goal with |- context [forEach ps _ ?w2] =>
    destruct (add_markers_run ps w2) as (m2 & -> & Hm2)
  end.
  cbn [fst snd layers set_layers]. rewrite Hm2. cbn [last_stamp set_layers set_clock set_net_log].
  case_decide; [reflexivity |]. rewrite Hm1. reflexivity.
Qed.

(** C4. Without a signed-in user [loadUserPlaces] does nothing. With
    one, and the places [ps] fetched: every marker that carried place data
    is off the map; each fetched place has its own new marker, in order;
    no other marker carries place data, so a place that was not fetched
    has no marker referring to it; and the layers without place data,
    which is what [addPublicPlaceMarker] makes, are where they were. *)
Theorem user_places_refreshed reply w status text ps :
  user_signed_in w = true ->
  outcome reply = Responds status text (inr ps) ->
  response_ok status = true ->
  map_Forall (fun k _ => (k <= last_stamp w)%nat) (layers w) ->
  let w' := world_after (loadUserPlaces c reply) w in
  (forall guest any, user_signed_in guest = false ->
                     loadUserPlaces c any guest = (inr tt, guest)) /\
  (forall k l, layers w !! k = Some l -> is_place_marker l = true -> layers w' !! k = None) /\
  (forall i p, ps !! i = Some p ->
               layers w' !! S (last_stamp w + i) = Some (place_marker p)) /\
  (forall k l, layers w' !! k = Some l -> is_place_marker l = true ->
               exists i p, k = S (last_stamp w + i) /\ ps !! i = Some p /\ l = place_marker p) /\
  (forall p, p ∉ ps ->
             forall k l, layers w' !! k = Some l -> l_kind l = Marker ->
                         l_placeData l <> Some p) /\
  (forall k l, layers w !! k = Some l -> is_place_marker l = false ->
               layers w' !! k = Some l) /\
  (forall k p, layers w !! k = Some (public_marker p) ->
               layers w' !! k = Some (public_marker p)).
Proof.
  intros Hu Hout Hok Hfresh w'.
  pose proof (loadUserPlaces_layers reply w status text ps Hu Hout Hok) as Hlayers.
  fold w' in Hlayers.
  assert (forall k l, layers w' !! k = Some l -> is_place_marker l = true ->
                      exists i p, k = S (last_stamp w + i) /\ ps !! i = Some p /\
                                  l = place_marker p) as Hnew.
  { intros k l Hk Hl. rewrite Hlayers in Hk. case_decide as Hrange.
    - destruct (ps !! (k - S (last_stamp w))%nat) as [p |] eqn:Hp; [| discriminate].
      exists (k - S (last_stamp w))%nat, p. simpl in Hk.
      repeat split; [lia | exact Hp | congruence].
    - destruct (layers w !! k) as [l0 |]; [| discriminate].
      destruct (is_place_marker l0) eqn:Hl0; [discriminate |]. congruence. }
  assert (forall k l, layers w !! k = Some l -> is_place_marker l = false ->
                      layers w' !! k = Some l) as Hkept.
  { intros k l Hk Hl. rewrite Hlayers. case_decide as Hrange.
    - apply Hfresh in Hk. lia.
    - now rewrite Hk, Hl. }
  split; [| split; [| split; [| split; [| split; [| split]]]]].
  - intros guest any Hguest. unfold loadUserPlaces.
    rewrite run_bind, run_gets, Hguest. reflexivity.
  - intros k l Hk Hl. rewrite Hlayers. case_decide as Hrange.
    + apply Hfresh in Hk. lia.
    + now rewrite Hk, Hl.
  - intros i p Hp. rewrite Hlayers.
    pose proof (lookup_lt_Some _ _ _ Hp) as Hlt.
    case_decide as Hrange; [| lia].
    replace (S (last_stamp w + i) - S (last_stamp w))%nat with i by lia.
    now rewrite Hp.
  - exact Hnew.
  - intros p Hp k l Hk Hkind Hdata.
    destruct (Hnew k l Hk) as (i & q & _ & Hq & ->).
    { unfold is_place_marker. now rewrite Hkind, Hdata. }
    simpl in Hdata. injection Hdata as ->.
    apply Hp. eapply list_elem_of_lookup_2. exact Hq.
  - exact Hkept.
  - intros k p Hk. now apply Hkept.
Qed.

End PlaceMarkers.

Lemma user_places_refreshed_witness :
  let w' := world_after (MapPlacesManager.loadUserPlaces Example.dev
                           (Example.places_reply [Example.bakery])) Example.with_places in
  layers Example.with_places !! 1%nat = Some (MapPlacesManager.place_marker Example.fortress) /\
  layers w' !! 1%nat = None /\
  layers w' !! 2%nat = Some (MapPlacesManager.public_marker Example.museum) /\
  layers w' !! 3%nat = Some (MapPlacesManager.place_marker Example.bakery).
Proof.
  assert (layers Example.with_places !! 1%nat
          = Some (MapPlacesManager.place_marker Example.fortress)) as H1
    by (vm_compute; reflexivity).
  assert (layers Example.with_places !! 2%nat
          = Some (MapPlacesManager.public_marker Example.museum)) as H2
    by (vm_compute; reflexivity).
  destruct (user_places_refreshed Example.dev (Example.places_reply [Example.bakery])
              Example.with_places 200 "OK" [Example.bakery])
    as (_ & Hgone & Hnew & _ & _ & _ & Hpublic).
  - vm_compute. reflexivity.
  - reflexivity.
  - reflexivity.
  - apply map_Forall_to_list. vm_compute. repeat constructor.
  - cbv zeta. split; [exact H1 |]. split; [| split].
    + apply (Hgone 1%nat _ H1). reflexivity.
    + apply (Hpublic 2%nat _ H2).
    + apply (Hnew 0%nat Example.bakery). reflexivity.
Defined.

(** ** Route calculation that finds no route *)

Section RouteFailure.

Variable c : Config.t.

(** An API call changes the clock, the storage, the network log and the
    cache, and nothing else. *)
Lemma request_frame method endpoint d h reply w :
  let w' := snd (APIClient.request c method endpoint d h reply w) in
  w' = set_cache (cache w') (set_net_log (net_log w')
         (set_storage (storage w') (set_clock (clock w') w))).
Proof.
  destruct (APIClient.limited c (APIClient.getOperationType endpoint) w) eqn:Hlim.
  - rewrite request_limited by exact Hlim. now destruct w.
  - rewrite request_passed by exact Hlim. clear Hlim.
    generalize (RateLimit.checkRateLimit c (APIClient.getOperationType endpoint)
                  (clock w) (storage w)).2.
    intros st. destruct w.
    unfold APIClient.serve, Date_now.
    repeat (rewrite ?run_bind, ?run_gets; cbn [fst snd]).
    match goal with |- context [APIClient.cache_hit ?a ?b ?k ?n ?m] =>
      destruct (APIClient.cache_hit a b k n m) end.
    + rewrite run_ret. reflexivity.
    + unfold try_catch, APIClient.perform, fetch, send, tick, Date_now, throw.
      repeat (rewrite ?run_bind, ?run_gets, ?run_modify, ?run_ret; cbn [fst snd]).
      destruct (outcome reply) as [e | status text [e | result]].
      * destruct (String.eqb _ _); reflexivity.
      * destruct (response_ok status); cbn [negb];
          repeat (destruct (String.eqb _ _)); reflexivity.
      * destruct (response_ok status); cbn [negb].
        -- destruct (APIClient.is_GET method);
             repeat (rewrite ?run_bind, ?run_gets, ?run_modify, ?run_ret; cbn [fst snd]);
             reflexivity.
        -- repeat (destruct (String.eqb _ _)); reflexivity.
Qed.

Lemma clear_route_line_run w :
  Features.clear_route_line w
  = (inr tt,
     match routeLine w with
     | Some id => set_routeLine None (set_layers (base.delete id (layers w)) w)
     | None => w
     end).
Proof.
  unfold Features.clear_route_line. rewrite run_bind, run_gets. cbn [fst snd].
  destruct (routeLine w); reflexivity.
Qed.

(** What the [catch] block of [calculateRealRoute] leaves behind. *)
Lemma catch_block writable error w el :
  dom w !! "statusMessage" = Some el ->
  let w' := snd ((ErrorHandler.handle c writable error "Route calculation failed" true ;;
                  Features.clear_route_line) w) in
  routeLine w' = None /\
  (forall id, routeLine w = Some id -> layers w' !! id = None) /\
  (exists e, dom w' !! "statusMessage" = Some e /\ "error" ∈ el_classes e) /\
  startPoint w' = startPoint w /\ endPoint w' = endPoint w.
Proof.
  intros Hel.
  unfold ErrorHandler.handle, ErrorHandler.log, ErrorHandler.showUserFriendlyError,
    ErrorHandler.reportError, send, when_, Date_now.
  repeat (rewrite ?run_bind, ?run_gets, ?run_modify, ?run_ret, ?showStatus_run,
            ?clear_route_line_run; cbn [fst snd]).
  destruct writable, (ErrorHandler.is_production c);
    repeat (rewrite ?run_bind, ?run_gets, ?run_modify, ?run_ret, ?showStatus_run,
              ?clear_route_line_run; cbn);
    rewrite Hel;
    repeat (rewrite ?run_bind, ?run_gets, ?run_modify, ?run_ret, ?showStatus_run,
              ?clear_route_line_run; cbn);
    destruct (routeLine w) as [line |] eqn:Hline; cbn; rewrite ?Hline;
    (split; [reflexivity |]);
    (split; [intros id Hid; try discriminate; injection Hid as <-; apply lookup_delete_eq |]);
    (split; [eexists; split; [apply lookup_insert_eq | cbn; set_solver] |]);
    split; reflexivity.
Qed.

(** What the "no route found" branch leaves behind. *)
Lemma no_route_branch w el :
  dom w !! "statusMessage" = Some el ->
  let w' := snd ((Features.clear_route_line ;;
                  showStatus "No route found - try different points or transport mode"
                    "error") w) in
  routeLine w' = None /\
  (forall id, routeLine w = Some id -> layers w' !! id = None) /\
  (exists e, dom w' !! "statusMessage" = Some e /\ "error" ∈ el_classes e) /\
  startPoint w' = startPoint w /\ endPoint w' = endPoint w.
Proof.
  intros Hel.
  rewrite run_bind, clear_route_line_run.
  destruct (routeLine w) as [line |] eqn:Hline; rewrite showStatus_run; cbn; rewrite Hel; cbn;
    rewrite ?Hline;
    (split; [reflexivity |]);
    (split; [intros id Hid; try discriminate; injection Hid as <-; apply lookup_delete_eq |]);
    (split; [eexists; split; [apply lookup_insert_eq | cbn; set_solver] |]);
    split; reflexivity.
Qed.


End RouteFailure.


(** ** Code that only touches the user interface *)

Lemma ui_only_refl w : ui_only w w.
Proof. unfold ui_only. now destruct w. Qed.

Lemma ui_only_trans w1 w2 w3 : ui_only w1 w2 -> ui_only w2 w3 -> ui_only w1 w3.
Proof.
  unfold ui_only. intros H12 H23.
  destruct w1, w2, w3.
  unfold set_placesManager, set_cursor, set_anon, set_dom in *. cbn in *.
  injection H12 as -> -> -> -> -> -> -> -> -> -> -> -> -> -> -> -> ->.
  injection H23 as -> -> -> -> -> -> -> -> -> -> -> -> -> -> -> -> ->.
  reflexivity.
Qed.

Lemma ui_ret {A} (a : A) : touches_ui_only (mret a : M A).
Proof. intros w. apply ui_only_refl. Qed.

Lemma ui_throw {A} e : touches_ui_only (throw e : M A).
Proof. intros w. apply ui_only_refl. Qed.

Lemma ui_gets {A} (f : world -> A) : touches_ui_only (gets f).
Proof. intros w. apply ui_only_refl. Qed.

Lemma ui_bind {A B} (m : M A) (f : A -> M B) :
  touches_ui_only m -> (forall a, touches_ui_only (f a)) -> touches_ui_only (m ≫= f).
Proof.
  intros Hm Hf w. rewrite run_bind. specialize (Hm w).
  destruct (m w) as [[e | a] w1]; simpl in *; [exact Hm |].
  eapply ui_only_trans; [exact Hm | apply Hf].
Qed.

Lemma ui_try_catch {A} (m : M A) (h : Js.error -> M A) :
  touches_ui_only m -> (forall e, touches_ui_only (h e)) -> touches_ui_only (try_catch m h).
Proof.
  intros Hm Hh w. unfold try_catch. specialize (Hm w).
  destruct (m w) as [[e | a] w1]; simpl in *; [| exact Hm].
  eapply ui_only_trans; [exact Hm | apply Hh].
Qed.

Lemma ui_when b (m : M unit) : touches_ui_only m -> touches_ui_only (when_ b m).
Proof. intros Hm. destruct b; [exact Hm | apply ui_ret]. Qed.

Lemma ui_forEach {A} (xs : list A) (body : A -> M unit) :
  (forall x, touches_ui_only (body x)) -> touches_ui_only (forEach xs body).
Proof.
  intros Hbody. induction xs as [| x xs IH]; simpl.
  - apply ui_ret.
  - apply ui_bind; [apply Hbody | intros _; exact IH].
Qed.

Lemma ui_set_dom f : touches_ui_only (modify (fun w => set_dom (f w) w)).
Proof. intros w. rewrite run_modify. unfold ui_only. now destruct w. Qed.

Lemma ui_set_prop id f : touches_ui_only (set_prop id f).
Proof.
  unfold set_prop. apply ui_bind; [apply ui_gets |].
  intros [e |]; [apply ui_set_dom | apply ui_throw].
Qed.

Lemma ui_set_prop_if_present id f : touches_ui_only (set_prop_if_present id f).
Proof.
  unfold set_prop_if_present. apply ui_bind; [apply ui_gets |].
  intros [e |]; [apply ui_set_dom | apply ui_ret].
Qed.

Lemma ui_set_prop_all sel f : touches_ui_only (set_prop_all sel f).
Proof. intros w. unfold set_prop_all. rewrite run_modify. unfold ui_only. now destruct w. Qed.

Lemma ui_showStatus message type : touches_ui_only (showStatus message type).
Proof. apply ui_set_prop. Qed.

Lemma ui_set_cursor s : touches_ui_only (modify (set_cursor s)).
Proof. intros w. rewrite run_modify. unfold ui_only. now destruct w. Qed.

Lemma ui_set_addPlaceMode b : touches_ui_only (MapPlacesManager.set_addPlaceMode b).
Proof.
  intros w. unfold MapPlacesManager.set_addPlaceMode. rewrite run_modify.
  unfold ui_only. destruct w as [? ? ? ? ? ? ? ? ? ? ? ? ? ? ? ? ? ? [pm |] ? ?]; reflexivity.
Qed.

Create HintDb ui discriminated.

#[local] Hint Resolve ui_ret ui_throw ui_gets ui_when ui_forEach ui_set_dom ui_set_prop
  ui_set_prop_if_present ui_set_prop_all ui_showStatus ui_set_cursor ui_set_addPlaceMode
  ui_try_catch : ui.

Ltac ui_step :=
  first [ solve [auto with ui]
        | apply ui_when
        | apply ui_forEach; intros ?
        | apply ui_try_catch; [| intros ?]
        | apply ui_bind; [| intros ?] ].

Lemma ui_hideStatusMessage : touches_ui_only MapPlacesManager.hideStatusMessage.
Proof. apply ui_throw. Qed.

#[local] Hint Resolve ui_hideStatusMessage : ui.

Lemma ui_places_disableControls : touches_ui_only MapPlacesManager.disableControls.
Proof. unfold MapPlacesManager.disableControls. repeat ui_step. Qed.

#[local] Hint Resolve ui_places_disableControls : ui.

Lemma ui_disableControls : touches_ui_only TravelMateApp.disableControls.
Proof. unfold TravelMateApp.disableControls. repeat ui_step. Qed.

#[local] Hint Resolve ui_disableControls : ui.

(** What code that only touches the user interface leaves as it was. *)
Lemma ui_only_session w w' :
  ui_only w w' ->
  currentUser w' = currentUser w /\ authToken w' = authToken w /\
  storage w' = storage w /\ net_log w' = net_log w /\ reloads w' = reloads w.
Proof. unfold ui_only. intros ->. now destruct w. Qed.

Lemma ui_only_map w w' :
  ui_only w w' ->
  layers w' = layers w /\ markers w' = markers w /\
  startPoint w' = startPoint w /\ endPoint w' = endPoint w /\
  routeStartMarker w' = routeStartMarker w /\ routeEndMarker w' = routeEndMarker w /\
  routeLine w' = routeLine w.
Proof. unfold ui_only. intros ->. now destruct w. Qed.

(** ** Falling back to guest mode *)

Section GuestMode.

Variable c : Config.t.

(** However far [showGuestMode] gets, the session is cleared first. *)
Lemma showGuestMode_session w :
  let w' := snd (TravelMateApp.showGuestMode w) in
  currentUser w' = None /\ authToken w' = None /\
  storage w' = storage w /\ net_log w' = net_log w /\ reloads w' = reloads w.
Proof.
  unfold TravelMateApp.showGuestMode.
  rewrite run_bind, run_modify. cbn [fst snd]. rewrite run_bind, run_modify. cbn [fst snd].
  match goal with |- context [(?m (set_authToken None ?w0)).2] =>
    assert (touches_ui_only m) as Hui by (repeat ui_step);
    destruct (ui_only_session _ _ (Hui (set_authToken None w0))) as (Hu & Ht & Hs & Hn & Hr)
  end.
  cbv zeta. rewrite Hu, Ht, Hs, Hn, Hr. now destruct w.
Qed.

(** A call through the API client puts at most one request on the wire. *)
Lemma request_sends_at_most_once method endpoint d h reply w :
  let w' := snd (APIClient.request c method endpoint d h reply w) in
  (length (net_log w') <= S (length (net_log w)))%nat.
Proof.
  destruct (APIClient.limited c (APIClient.getOperationType endpoint) w) eqn:Hlim.
  - rewrite request_limited by exact Hlim. simpl. lia.
  - rewrite request_passed by exact Hlim. cbv zeta.
    match goal with |- context [APIClient.serve _ _ _ _ _ _ ?w0] => set (w1 := w0) end.
    destruct (APIClient.cache_hit c method
                (APIClient.cacheKey method (Config.getEndpoint c endpoint) d)
                (clock w1) (cache w1)) as [v |] eqn:Hhit.
    + rewrite (serve_hit c method endpoint d h reply w1 v Hhit). subst w1. simpl. lia.
    + rewrite (serve_miss c method endpoint d h reply w1 Hhit).
      rewrite length_app. subst w1. simpl. lia.
Qed.

Lemma validateToken_failure reply w err :
  fst (APIClient.get c "/auth/me" [] reply w) = inl err ->
  let w' := snd (TravelMateApp.validateToken c reply w) in
  currentUser w' = None /\ authToken w' = None /\ ls_token (storage w') = None /\
  net_log w' = net_log (snd (APIClient.get c "/auth/me" [] reply w)) /\
  reloads w' = reloads w.
Proof.
  intros Hfail. unfold TravelMateApp.validateToken, try_catch.
  rewrite run_bind.
  pose proof (request_frame c "GET" "/auth/me" APIClient.DNull ∅ reply w) as Hframe.
  unfold APIClient.get in *. cbn [APIClient.query_string map Js.join String.eqb] in *.
  destruct (APIClient.request c "GET" "/auth/me" APIClient.DNull ∅ reply w) as [res w1].
  cbn [fst snd] in *. subst res.
  rewrite run_bind. unfold TravelMateApp.removeToken. rewrite run_modify. cbn [fst snd].
  match goal with |- context [TravelMateApp.showGuestMode ?w0] =>
    destruct (showGuestMode_session w0) as (Hu & Ht & Hs & Hn & Hr)
  end.
  cbv zeta. rewrite Hu, Ht, Hs, Hn, Hr.
  repeat split; try reflexivity.
  cbv zeta in Hframe. rewrite Hframe. reflexivity.
Qed.

(** C7. At start-up a token is in storage and the call that validates
    it fails, for whatever reason. Then nobody is signed in, the
    application holds no token, the token is gone from storage, and the
    network log is the one the single failed call left: nothing was sent
    again. *)
Theorem failed_validation_falls_back reply w token err :
  ls_token (storage w) = Some token ->
  token <> EmptyString ->
  fst (APIClient.get c "/auth/me" [] reply (set_authToken (Some token) w)) = inl err ->
  let w' := world_after (TravelMateApp.checkAuthStatus c reply) w in
  currentUser w' = None /\ authToken w' = None /\ ls_token (storage w') = None /\
  net_log w'
  = net_log (snd (APIClient.get c "/auth/me" [] reply (set_authToken (Some token) w))) /\
  (length (net_log w') <= S (length (net_log w)))%nat /\
  reloads w' = reloads w.
Proof.
  intros Htoken Hne Hfail w'. subst w'.
  unfold world_after, TravelMateApp.checkAuthStatus, try_catch.
  rewrite run_bind, run_modify. cbn [fst snd].
  rewrite run_bind, run_gets. cbn [fst snd authToken set_authToken].
  rewrite Htoken. unfold TravelMateApp.token_truthy.
  destruct (String.eqb_spec token EmptyString) as [-> | _]; [congruence |]. cbn [negb].
  destruct (validateToken_failure reply (set_authToken (Some token) w) err Hfail)
    as (Hu & Ht & Hs & Hn & Hr).
  pose proof (request_sends_at_most_once "GET" "/auth/me" APIClient.DNull ∅ reply
                (set_authToken (Some token) w)) as Honce.
  assert (length (net_log (snd (TravelMateApp.validateToken c reply
                                  (set_authToken (Some token) w))))
          <= S (length (net_log w)))%nat as Hlen.
  { rewrite Hn. exact Honce. }
  destruct (TravelMateApp.validateToken c reply (set_authToken (Some token) w))
    as [[e |] w1]; cbn [fst snd] in *.
  - destruct (showGuestMode_session w1) as (Hu' & Ht' & Hs' & Hn' & Hr').
    cbv zeta in *. rewrite Hu', Ht', Hs', Hn', Hr'. repeat split; auto.
  - repeat split; auto.
Qed.

End GuestMode.

Lemma failed_validation_falls_back_witness :
  let w' := world_after (TravelMateApp.checkAuthStatus Example.dev Example.unauthorized)
              Example.returning in
  ls_token (storage Example.returning) = Some "eyJhbGciOiJIUzI1NiJ9.e30.abc" /\
  currentUser w' = None /\ authToken w' = None /\ ls_token (storage w') = None /\
  length (net_log w') = 1%nat.
Proof.
  destruct (failed_validation_falls_back Example.dev Example.unauthorized Example.returning
              "eyJhbGciOiJIUzI1NiJ9.e30.abc" (Js.Error "HTTP 401: Unauthorized"))
    as (Hu & Ht & Hs & Hn & _ & _).
  - reflexivity.
  - discriminate.
  - vm_compute. reflexivity.
  - cbv zeta. split; [reflexivity |]. split; [exact Hu |]. split; [exact Ht |].
    split; [exact Hs |]. rewrite Hn. vm_compute. reflexivity.
Defined.

(** ** Validation before the network *)

Section Validation.

Variable c : Config.t.

Import TravelMateApp.

Lemma input_value_run id w :
  input_value id w
  = match dom w !! id with
    | Some e => (inr (el_value e), w)
    | None => (inl (Js.TypeError ("Cannot read properties of null (" ++ id ++ ")")), w)
    end.
Proof.
  unfold input_value, getElementById. rewrite run_bind, run_gets. cbn [fst snd].
  destruct (dom w !! id); reflexivity.
Qed.

Lemma handleLogin_bad_email writable r1 r2 w el :
  dom w !! "loginEmail" = Some el ->
  validateEmail (Js.trim (el_value el)) = false ->
  handleLogin c writable r1 r2 w
  = match dom w !! "loginPassword" with
    | Some _ => showStatus "Please enter a valid email address" "error" w
    | None => (inl (Js.TypeError "Cannot read properties of null (loginPassword)"), w)
    end.
Proof.
  intros Hel Hbad. unfold handleLogin.
  rewrite run_bind, input_value_run, Hel. cbn [fst snd].
  rewrite run_bind, input_value_run.
  destruct (dom w !! "loginPassword"); [| reflexivity].
  cbn [fst snd]. now rewrite Hbad.
Qed.

Lemma handleRegister_bad_email writable r w el :
  dom w !! "registerEmail" = Some el ->
  validateEmail (Js.trim (el_value el)) = false ->
  exists message,
    handleRegister c writable r w
    = match dom w !! "registerName", dom w !! "registerPassword" with
      | Some _, Some _ => showStatus message "error" w
      | None, _ => (inl (Js.TypeError "Cannot read properties of null (registerName)"), w)
      | _, None => (inl (Js.TypeError "Cannot read properties of null (registerPassword)"), w)
      end.
Proof.
  intros Hel Hbad. unfold handleRegister.
  rewrite run_bind, input_value_run.
  destruct (dom w !! "registerName") as [n |];
    [| exists EmptyString; reflexivity].
  cbn [fst snd]. rewrite run_bind, input_value_run, Hel. cbn [fst snd].
  rewrite run_bind, input_value_run.
  destruct (dom w !! "registerPassword") as [p |];
    [| exists EmptyString; reflexivity].
  cbn [fst snd]. rewrite Hbad. cbn [negb].
  destruct (String.length (Js.trim (el_value n)) <? 2)%nat; eexists; reflexivity.
Qed.

(** C6, as the code has it. The address the two forms validate is the
    field's value with the white space around it removed. When that does
    not match the pattern, signing in and signing up both stop at the
    validation: the API client is not called (nothing goes on the wire, no
    rate-limit budget is spent, the cache is as it was); and with the form
    fields and the status line in the page, the call shows an error
    message and returns. *)
Theorem invalid_email_stops_before_network writable email :
  validateEmail (Js.trim email) = false ->
  (forall r1 r2 w el,
      dom w !! "loginEmail" = Some el -> el_value el = email ->
      let run := handleLogin c writable r1 r2 w in
      net_log run.2 = net_log w /\ storage run.2 = storage w /\ cache run.2 = cache w /\
      forall pw st,
        dom w !! "loginPassword" = Some pw -> dom w !! "statusMessage" = Some st ->
        run.1 = inr tt /\
        dom run.2 !! "statusMessage"
        = Some (el_set_classes ["status-message"; "error"; "show"]
                  (el_set_text "Please enter a valid email address" st))) /\
  (forall r w el,
      dom w !! "registerEmail" = Some el -> el_value el = email ->
      let run := handleRegister c writable r w in
      net_log run.2 = net_log w /\ storage run.2 = storage w /\ cache run.2 = cache w /\
      forall n pw st,
        dom w !! "registerName" = Some n -> dom w !! "registerPassword" = Some pw ->
        dom w !! "statusMessage" = Some st ->
        run.1 = inr tt /\
        exists st', dom run.2 !! "statusMessage" = Some st' /\
                    el_classes st' = ["status-message"; "error"; "show"]).
Proof.
  intros Hbad. split.
  - intros r1 r2 w el Hel <- run. subst run.
    rewrite (handleLogin_bad_email writable r1 r2 w el Hel Hbad).
    destruct (dom w !! "loginPassword") as [pw |] eqn:Hpw.
    + rewrite showStatus_run.
      destruct (dom w !! "statusMessage") as [st |] eqn:Hst; cbn;
        (split; [reflexivity |]); (split; [reflexivity |]); (split; [reflexivity |]);
        intros pw' st' _ Hst'; [| discriminate].
      injection Hst' as <-. split; [reflexivity | apply lookup_insert_eq].
    + cbn. (split; [reflexivity |]); (split; [reflexivity |]); (split; [reflexivity |]).
      intros pw' st' Hpw'. discriminate.
  - intros r w el Hel <- run. subst run.
    destruct (handleRegister_bad_email writable r w el Hel Hbad) as [message ->].
    destruct (dom w !! "registerName") as [n |] eqn:Hn.
    2: { cbn. (split; [reflexivity |]); (split; [reflexivity |]); (split; [reflexivity |]).
         intros n' pw' st' Hn'. discriminate. }
    destruct (dom w !! "registerPassword") as [pw |] eqn:Hpw.
    2: { cbn. (split; [reflexivity |]); (split; [reflexivity |]); (split; [reflexivity |]).
         intros n' pw' st' _ Hpw'. discriminate. }
    rewrite showStatus_run.
    destruct (dom w !! "statusMessage") as [st |] eqn:Hst; cbn;
      (split; [reflexivity |]); (split; [reflexivity |]); (split; [reflexivity |]);
      intros n' pw' st' _ _ Hst'; [| discriminate].
    split; [reflexivity |].
    eexists. split; [apply lookup_insert_eq | reflexivity].
Qed.

End Validation.

Lemma invalid_email_stops_before_network_witness :
  TravelMateApp.validateEmail (Js.trim "alice@example") = false /\
  let run := TravelMateApp.handleLogin Example.dev true Example.token_reply
               (Example.ok_reply Example.alice) Example.bad_login in
  net_log run.2 = [] /\ storage run.2 = empty_storage /\ cache run.2 = ∅.
Proof.
  assert (TravelMateApp.validateEmail (Js.trim "alice@example") = false) as Hbad
    by (vm_compute; reflexivity).
  split; [exact Hbad |].
  destruct (invalid_email_stops_before_network Example.dev true "alice@example" Hbad)
    as [Hlogin _].
  destruct (Hlogin Example.token_reply (Example.ok_reply Example.alice) Example.bad_login
              (Example.input "alice@example"))
    as (Hnet & Hstore & Hcache & _).
  - vm_compute. reflexivity.
  - reflexivity.
  - cbv zeta. repeat split; assumption.
Defined.

(** C6 as stated speaks of the string typed into the field. A blank in
    front of a good address makes that string fail the pattern, yet
    signing in goes ahead: the forms validate the trimmed value, and the
    first thing on the wire is the sign-in request. *)
Lemma padded_email_is_sent :
  TravelMateApp.validateEmail " alice@example.org" = false /\
  head (net_log (world_after
                   (TravelMateApp.handleLogin Example.dev true Example.token_reply
                      (Example.ok_reply Example.alice)) Example.padded_login))
  = Some (FetchRequest "http://localhost:8088/auth/login" "POST" Example.form_headers
            (SentParams [("username", "alice@example.org"); ("password", "secret1")])).
Proof. vm_compute. split; reflexivity. Qed.

(** ** Signing out *)

(** Signing out of an ordinary session twice leaves what signing out once
    leaves. *)
Example logout_twice_when_planning :
  MapPlacesManager.in_addPlaceMode Example.planning = false /\
  TravelMateApp.logout (world_after TravelMateApp.logout Example.planning)
  = (inr tt, world_after TravelMateApp.logout Example.planning).
Proof. split; vm_compute; reflexivity. Qed.

(** Leaving add-place mode calls [hideStatusMessage], which no script
    defines. The error ends a sign-out from that mode in its [catch] block,
    after the session was cleared and before the map was, with a reload
    asked for. Until the browser reloads, the start marker is still in the
    heap; a second sign-out in that interval clears it. What the reload
    makes of both is [Reload.page_after]. *)
Lemma hideStatusMessage_ends_logout_in_catch :
  let once := world_after TravelMateApp.logout Example.adding in
  let twice := world_after TravelMateApp.logout once in
  (currentUser Example.adding = Some Example.alice /\
   MapPlacesManager.in_addPlaceMode Example.adding = true /\
   routeStartMarker Example.adding = Some 1%nat) /\
  (currentUser once = None /\ authToken once = None /\ ls_token (storage once) = None /\
   reloads once = 1%nat /\
   routeStartMarker once = Some 1%nat /\
   startPoint once = Some (LatLng (448176 # 10000) (204633 # 10000)) /\
   is_Some (layers once !! 1%nat)) /\
  (fst (TravelMateApp.logout once) = inr tt /\
   routeStartMarker twice = None /\ startPoint twice = None /\
   layers twice !! 1%nat = None) /\
  twice <> once.
Proof.
  cbv zeta.
  assert (routeStartMarker (world_after TravelMateApp.logout Example.adding) = Some 1%nat)
    as Honce by (vm_compute; reflexivity).
  assert (routeStartMarker (world_after TravelMateApp.logout
                              (world_after TravelMateApp.logout Example.adding)) = None)
    as Htwice by (vm_compute; reflexivity).
  split; [repeat split; vm_compute; reflexivity |].
  split; [repeat split; try (vm_compute; reflexivity); vm_compute; eexists; reflexivity |].
  split; [repeat split; vm_compute; reflexivity |].
  intros Heq. rewrite Heq in Htwice. congruence.
Qed.

(** ** The model on small inputs *)

Example validateEmail_accepts :
  map TravelMateApp.validateEmail ["a@b.c"; "alice@example.org"; "a.b@c.d.e"; "a@b..c"]
  = [true; true; true; true].
Proof. reflexivity. Qed.

Example validateEmail_rejects :
  map TravelMateApp.validateEmail
    [EmptyString; "alice"; "alice@example"; "@b.c"; "a@.c"; "a@b."; "a@@b.c"; "a b@c.d";
     " a@b.c"; "a@b.c "]
  = [false; false; false; false; false; false; false; false; false; false].
Proof. reflexivity. Qed.

Example trim_examples :
  map Js.trim ["  a b  "; "a"; "   "; EmptyString] = ["a b"; "a"; EmptyString; EmptyString].
Proof. reflexivity. Qed.

Example operation_types :
  map APIClient.getOperationType
    ["/locations/search?query=x"; "/routes/"; "/routes/real-route?profile=driving";
     "/auth/me"; "/profile/places"]
  = ["search"; "routes"; "routes"; "general"; "general"].
Proof. reflexivity. Qed.

Example first_check_counts_one :
  RateLimit.checkRateLimit Example.dev "search" 1700000000000 empty_storage
  = (true, set_ls_rate "travelmate_development_rate_limit_search"
             (RateData 1 1700000000000) empty_storage).
Proof. reflexivity. Qed.

(** ** Signing out when nothing is in the way *)

Section SignOut.

Import SignedOut.

Lemma insert_as_alter (f : element -> element) (id : string) (d : gmap string element) e :
  d !! id = Some e -> <[id := f e]> d = alter f id d.
Proof.
  intros He. apply map_eq. intros k. rewrite lookup_alter, lookup_insert.
  case_decide; subst; [now rewrite He | reflexivity].
Qed.

Lemma set_prop_alter id f w :
  is_Some (dom w !! id) ->
  set_prop id f w = (inr tt, set_dom (alter f id (dom w)) w).
Proof.
  intros [e He]. rewrite set_prop_run, He. now rewrite (insert_as_alter f id _ e He).
Qed.

Lemma set_prop_if_present_alter id f w :
  set_prop_if_present id f w = (inr tt, set_dom (alter f id (dom w)) w).
Proof.
  unfold set_prop_if_present, getElementById. rewrite run_bind, run_gets. cbn [fst snd].
  destruct (dom w !! id) as [e |] eqn:He.
  - rewrite run_modify. now rewrite (insert_as_alter f id _ e He).
  - rewrite run_ret. f_equal.
    assert (alter f id (dom w) = dom w) as ->.
    { apply map_eq. intros k. rewrite lookup_alter. case_decide; subst; [now rewrite He | reflexivity]. }
    now destruct w.
Qed.

Lemma forEach_alter (ids : list string) f w :
  forEach ids (fun id => set_prop_if_present id f) w
  = (inr tt, set_dom (foldl (fun d id => alter f id d) (dom w) ids) w).
Proof.
  revert w. induction ids as [| id ids IH]; intros w; cbn [forEach foldl].
  - rewrite run_ret. now destruct w.
  - rewrite run_bind, set_prop_if_present_alter. cbn [fst snd]. rewrite IH. reflexivity.
Qed.

Lemma foldl_alter_is_Some (ids : list string) (f : element -> element)
    (d : gmap string element) (k : string) :
  is_Some (foldl (fun d id => alter f id d) d ids !! k) <-> is_Some (d !! k).
Proof.
  revert d. induction ids as [| id ids IH]; intros d; cbn [foldl]; [reflexivity |].
  rewrite IH. apply lookup_alter_is_Some.
Qed.

Ltac run_step :=
  repeat (rewrite ?run_bind, ?run_modify, ?run_gets, ?run_ret; cbn [fst snd]).

Ltac still_there :=
  repeat first [ rewrite lookup_alter_is_Some
               | rewrite lookup_fmap, fmap_is_Some
               | rewrite foldl_alter_is_Some ];
  assumption.

Lemma places_disableControls_run w :
  MapPlacesManager.in_addPlaceMode w = false ->
  MapPlacesManager.disableControls w
  = (inr tt,
     set_dom (alter (fun e => class_remove "active" (el_set_disabled true e))
                "addPlaceModeBtn" (dom w)) w).
Proof.
  intros Hmode. unfold MapPlacesManager.disableControls.
  rewrite run_bind, set_prop_if_present_alter. run_step.
  assert (MapPlacesManager.in_addPlaceMode
            (set_dom (alter (fun e => class_remove "active" (el_set_disabled true e))
                        "addPlaceModeBtn" (dom w)) w) = false) as ->
    by exact Hmode.
  reflexivity.
Qed.

Lemma disableControls_run w :
  MapPlacesManager.in_addPlaceMode w = false ->
  TravelMateApp.disableControls w
  = (inr tt,
     set_dom
       ((if TravelMateApp.has_places_manager w
         then alter (fun e => class_remove "active" (el_set_disabled true e)) "addPlaceModeBtn"
         else id)
          (disable_action <$>
           foldl (fun d id => alter (el_set_disabled true) id d) (dom w)
             TravelMateApp.controls))
       (set_anon (map disable_action (anon w)) w)).
Proof.
  intros Hmode. unfold TravelMateApp.disableControls.
  rewrite run_bind, forEach_alter. cbn [fst snd].
  rewrite run_bind. unfold set_prop_all. run_step.
  match goal with |- context [TravelMateApp.has_places_manager ?w0] =>
    change (TravelMateApp.has_places_manager w0) with (TravelMateApp.has_places_manager w)
  end.
  destruct (TravelMateApp.has_places_manager w); cbn [when_].
  - rewrite places_disableControls_run by exact Hmode. reflexivity.
  - rewrite run_ret. reflexivity.
Qed.

Lemma showGuestMode_run w :
  MapPlacesManager.in_addPlaceMode w = false ->
  is_Some (dom w !! "loginBtn") -> is_Some (dom w !! "registerBtn") ->
  is_Some (dom w !! "userMenu") -> is_Some (dom w !! "guestBanner") ->
  TravelMateApp.showGuestMode w
  = (inr tt,
     set_dom (guest_dom (TravelMateApp.has_places_manager w) (dom w))
       (set_anon (map disable_action (anon w))
          (set_authToken None (set_currentUser None w)))).
Proof.
  intros Hmode H1 H2 H3 H4. unfold TravelMateApp.showGuestMode. run_step.
  rewrite set_prop_alter by (cbn; still_there). run_step.
  rewrite set_prop_alter by (cbn; still_there). run_step.
  rewrite set_prop_alter by (cbn; still_there). run_step.
  rewrite set_prop_alter by (cbn; still_there). run_step.
  rewrite disableControls_run by exact Hmode. reflexivity.
Qed.

Lemma guest_dom_is_Some pm (d : gmap string element) (k : string) :
  is_Some (guest_dom pm d !! k) <-> is_Some (d !! k).
Proof.
  unfold guest_dom. destruct pm; cbn [id];
    rewrite ?lookup_alter_is_Some, lookup_fmap, fmap_is_Some, foldl_alter_is_Some,
      !lookup_alter_is_Some; reflexivity.
Qed.

Lemma not_ready_dom_is_Some (d : gmap string element) (k : string) :
  is_Some (not_ready_dom d !! k) <-> is_Some (d !! k).
Proof. unfold not_ready_dom. now rewrite !lookup_alter_is_Some. Qed.

Lemma status_dom_is_Some message type (d : gmap string element) (k : string) :
  is_Some (status_dom message type d !! k) <-> is_Some (d !! k).
Proof. unfold status_dom. now rewrite lookup_alter_is_Some. Qed.

Ltac kept :=
  cbn;
  repeat first [ rewrite guest_dom_is_Some
               | rewrite not_ready_dom_is_Some
               | rewrite status_dom_is_Some
               | rewrite lookup_alter_is_Some ];
  assumption.

Lemma checkRouteReady_not_ready w :
  TravelMateApp.both_points_set w = false ->
  is_Some (dom w !! "createRouteBtn") -> is_Some (dom w !! "realRouteBtn") ->
  TravelMateApp.checkRouteReady w = (inr tt, set_dom (not_ready_dom (dom w)) w).
Proof.
  intros Hready H1 H2. unfold TravelMateApp.checkRouteReady. run_step. rewrite Hready.
  cbn [negb]. rewrite set_prop_alter by exact H1. run_step.
  rewrite set_prop_alter by kept. reflexivity.
Qed.

Lemma clearRouteDisplay_run w :
  is_Some (dom w !! "createRouteBtn") -> is_Some (dom w !! "realRouteBtn") ->
  TravelMateApp.clearRouteDisplay w
  = (inr tt,
     set_dom (not_ready_dom (dom w))
       (set_layers
          (without_layer (routeLine w)
             (without_layer (routeEndMarker w)
                (without_layer (routeStartMarker w) (layers w))))
          (set_routeStartMarker None
             (set_routeEndMarker None
                (set_routeLine None (set_startPoint None (set_endPoint None w))))))).
Proof.
  intros H1 H2. unfold TravelMateApp.clearRouteDisplay, L.removeLayer_opt, L.removeLayer.
  destruct w as [? ? ? d ? ? ly ? ? ? ? ? ? ? ? a b l ? ? ?]. cbn in H1, H2.
  destruct a, b, l; cbn [without_layer];
    repeat (run_step; cbn -[not_ready_dom TravelMateApp.checkRouteReady]);
    (rewrite checkRouteReady_not_ready; [reflexivity | reflexivity | kept | kept]).
Qed.

Lemma forEach_removeLayer (ids : list nat) w :
  forEach ids L.removeLayer w
  = (inr tt, set_layers (foldl (fun m id => base.delete id m) (layers w) ids) w).
Proof.
  revert w. induction ids as [| id ids IH]; intros w; cbn [forEach foldl].
  - rewrite run_ret. now destruct w.
  - rewrite run_bind. unfold L.removeLayer at 1. rewrite run_modify. cbn [fst snd].
    rewrite IH. reflexivity.
Qed.

Lemma showStatus_alter message type w :
  is_Some (dom w !! "statusMessage") ->
  showStatus message type w = (inr tt, set_dom (status_dom message type (dom w)) w).
Proof. intros H. unfold showStatus. now rewrite set_prop_alter. Qed.

Lemma clearMap_run w :
  routeStartMarker w = None -> routeEndMarker w = None -> routeLine w = None ->
  is_Some (dom w !! "createRouteBtn") -> is_Some (dom w !! "realRouteBtn") ->
  is_Some (dom w !! "statusMessage") ->
  TravelMateApp.clearMap w
  = (inr tt,
     set_dom (status_dom "Map cleared" "info" (not_ready_dom (dom w)))
       (set_layers (foldl (fun m id => base.delete id m) (layers w) (markers w))
          (set_markers [] (set_startPoint None (set_endPoint None w))))).
Proof.
  intros Ha Hb Hl H1 H2 H3. unfold TravelMateApp.clearMap. run_step.
  rewrite forEach_removeLayer. run_step.
  rewrite clearRouteDisplay_run by kept. cbn [fst snd].
  rewrite showStatus_alter by kept.
  destruct w. cbn in Ha, Hb, Hl. subst. reflexivity.
Qed.

(** Outside add-place mode, and with the elements it needs in the page,
    [logout] runs to its end and leaves [signed_out w]. *)
Lemma logout_run w :
  MapPlacesManager.in_addPlaceMode w = false ->
  Forall (fun id => is_Some (dom w !! id)) needed ->
  TravelMateApp.logout w = (inr tt, signed_out w).
Proof.
  intros Hmode Hneeded.
  repeat (apply Forall_cons in Hneeded as [? Hneeded]).
  unfold TravelMateApp.logout, try_catch, TravelMateApp.removeToken. run_step.
  rewrite showGuestMode_run by (try exact Hmode; kept). cbn [fst snd].
  rewrite run_bind, clearRouteDisplay_run by kept. cbn [fst snd].
  rewrite run_bind, clearMap_run by (try reflexivity; kept). cbn [fst snd].
  rewrite showStatus_alter by kept.
  destruct w. reflexivity.
Qed.

Lemma disable_action_idem e : disable_action (disable_action e) = disable_action e.
Proof.
  unfold disable_action. destruct (TravelMateApp.action_button e) eqn:Hb.
  - change (TravelMateApp.action_button (el_set_disabled true e))
      with (TravelMateApp.action_button e). now rewrite Hb.
  - now rewrite Hb.
Qed.

Lemma filter_twice (c : string) (l : list string) :
  filter (fun x => x <> c) (filter (fun x => x <> c) l) = filter (fun x => x <> c) l.
Proof.
  induction l as [| x l IH]; [reflexivity |].
  rewrite filter_cons. case_decide as Hx.
  - rewrite filter_cons. case_decide; [now rewrite IH | contradiction].
  - exact IH.
Qed.

Lemma class_remove_idem c e : class_remove c (class_remove c e) = class_remove c e.
Proof. unfold class_remove. destruct e. cbn. now rewrite filter_twice. Qed.

Lemma action_button_set_disabled b e :
  TravelMateApp.action_button (el_set_disabled b e) = TravelMateApp.action_button e.
Proof. reflexivity. Qed.

Ltac lookup_through :=
  repeat first [ rewrite lookup_alter_eq
               | rewrite lookup_alter_ne by (first [discriminate | congruence])
               | rewrite lookup_fmap ].

Ltac element_fields :=
  cbn [el_onclick el_set_disabled el_set_display el_set_classes el_set_text
       el_display el_disabled el_classes el_text el_value el_modal_input].

(** Two elements built by the setters from the same element are equal. *)
Ltac element_eq :=
  f_equal;
  let oc := fresh "oc" in
  let Hc := fresh "Hc" in
  match goal with e : element |- _ => destruct e as [? ? ? ? ? oc ?] end;
  unfold disable_action, TravelMateApp.action_button, class_remove;
  element_fields;
  destruct (Js.includes "searchPlace" oc || Js.includes "loadRoutes" oc) eqn:Hc;
  repeat (element_fields; rewrite ?Hc);
  rewrite ?filter_twice; reflexivity.

(** What signing out makes of the document, it makes once. *)
Lemma signed_out_dom_idem pm (d : gmap string element) :
  signed_out_dom pm (signed_out_dom pm d) = signed_out_dom pm d.
Proof.
  apply map_eq. intros k.
  unfold signed_out_dom, status_dom, not_ready_dom, guest_dom, TravelMateApp.controls.
  cbn [foldl].
  destruct (decide (k ∈ "addPlaceModeBtn" :: TravelMateApp.controls ++ needed)) as [Hin | Hout].
  - cbn [app TravelMateApp.controls needed] in Hin.
    repeat (apply elem_of_cons in Hin as [-> | Hin]);
      [.. | now apply elem_of_nil in Hin];
      destruct pm; cbn [id]; lookup_through;
      destruct (d !! _) as [e |]; cbn [fmap option_fmap option_map]; try reflexivity;
      element_eq.
  - assert (Forall (fun i => i <> k) ("addPlaceModeBtn" :: TravelMateApp.controls ++ needed))
      as Hne by (apply Forall_forall; intros i Hi ->; contradiction).
    cbn [app TravelMateApp.controls needed] in Hne.
    repeat (apply Forall_cons in Hne as [? Hne]).
    destruct pm; cbn [id];
      repeat first [ rewrite lookup_alter_ne by assumption | rewrite lookup_fmap ];
      destruct (d !! k) as [e |]; cbn [fmap option_fmap option_map]; try reflexivity;
      element_eq.
Qed.

Lemma signed_out_dom_is_Some pm (d : gmap string element) (k : string) :
  is_Some (signed_out_dom pm d !! k) <-> is_Some (d !! k).
Proof.
  unfold signed_out_dom.
  now rewrite !status_dom_is_Some, !not_ready_dom_is_Some, guest_dom_is_Some.
Qed.

Ltac world_fields :=
  cbv beta iota zeta delta
    [clock storage net_log dom anon reloads layers last_stamp cursor
     currentUser authToken isAuthMode markers startPoint endPoint
     routeStartMarker routeEndMarker routeLine placesManager errorLog cache
     set_clock set_storage set_net_log set_dom set_anon set_reloads
     set_layers set_last_stamp set_cursor set_currentUser set_authToken
     set_isAuthMode set_markers set_startPoint set_endPoint
     set_routeStartMarker set_routeEndMarker set_routeLine
     set_placesManager set_errorLog set_cache].

Lemma signed_out_idem w : signed_out (signed_out w) = signed_out w.
Proof.
  destruct w as [? ? ? d an ? ? ? ? ? ? ? ? ? ? ? ? ? pm ? ?].
  unfold signed_out, cleared_layers, TravelMateApp.has_places_manager.
  world_fields. cbn [without_layer foldl ls_token ls_rate ls_errors set_ls_token].
  rewrite signed_out_dom_idem, map_map.
  rewrite (map_ext _ _ disable_action_idem). reflexivity.
Qed.


End SignOut.

(** * Further properties of the code *)

(** ** Loading the configuration *)

Section Configuration.

Import Config ConfigLoad.

(** X1. On a host that [detectEnvironment] takes for production, the
    query string of the page changes nothing: the configuration is the
    production table, whatever [api] and [debug] parameters the address
    carries. *)
Theorem url_cannot_override_production hostname params :
  detectEnvironment hostname = production ->
  create hostname params = configs production.
Proof. unfold create. intros ->. reflexivity. Qed.

(** X2. The limits, the cache duration and the time-out come from the
    table of the detected environment on every host and for every query
    string: the two overrides reach the API address and the debug flag
    only. *)
Theorem url_overrides_leave_limits hostname params :
  let c := create hostname params in
  env c = detectEnvironment hostname /\
  RATE_LIMIT c = RATE_LIMIT (configs (env c)) /\
  CACHE_DURATION c = CACHE_DURATION (configs (env c)) /\
  REQUEST_TIMEOUT c = REQUEST_TIMEOUT (configs (env c)).
Proof.
  unfold create, loadConfig, overrideFromURL.
  destruct (detectEnvironment hostname); cbn [configs DEBUG];
    destruct (param_get "api" params), (param_get "debug" params); repeat split.
Qed.

(** X3. [log] never writes a message of level [debug], in no
    environment and whatever the debug flag: the level [debug] has number
    [0], which [levels[this.LOG_LEVEL] || 1] turns into [1]. Messages of
    level [error] are always written. *)
Theorem debug_is_never_logged (c : Config.t) :
  log_emits c "debug" = false /\ log_emits c "error" = true.
Proof.
  unfold log_emits, currentLevel.
  destruct c as [e url dbg cd rt rl]; cbn [env DEBUG].
  split; destruct e, dbg; reflexivity.
Qed.

End Configuration.

Lemma url_cannot_override_production_witness :
  ConfigLoad.detectEnvironment "travelmate.app" = Config.production /\
  ConfigLoad.create "travelmate.app" [("api", "http://localhost:9999"); ("debug", "true")]
  = Config.configs Config.production.
Proof.
  split; [reflexivity |].
  apply (url_cannot_override_production "travelmate.app"). reflexivity.
Defined.

(** ** The storage manager *)

Lemma prefix_app (a b d : string) : String.prefix (a ++ b) (a ++ d) = String.prefix b d.
Proof.
  induction a as [| x a IH]; [reflexivity |].
  simpl. destruct (ascii_dec x x); [exact IH | contradiction].
Qed.

Lemma append_inj (a b d : string) : a ++ b = a ++ d -> b = d.
Proof.
  induction a as [| x a IH]; [trivial |].
  cbn [String.append]. intros H. injection H as H. auto.
Qed.

Lemma getStorageKey_inj c k1 k2 :
  Config.getStorageKey c k1 = Config.getStorageKey c k2 -> k1 = k2.
Proof.
  unfold Config.getStorageKey. intros H.
  apply append_inj in H. apply append_inj in H. now apply append_inj in H.
Qed.

Lemma namespaced_key c key :
  StorageManager.namespaced c (Config.getStorageKey c key) = true.
Proof.
  unfold StorageManager.namespaced, Js.startsWith, Config.getStorageKey.
  rewrite !prefix_app. now destruct key.
Qed.

Section Storage.

Import StorageManager.

Variable c : Config.t.

(** X4. What [set] stored comes back from [get] until its time to live
    has passed; an entry stored without one, or with [0], never lapses.
    After that, [get] answers [null] and leaves the storage as [remove]
    would have left it before the [set]. A write the browser refuses
    changes nothing. *)
Theorem storage_round_trip now now' key v ttl s :
  let s1 := (set c true now key v ttl s).2 in
  get c now' key s1
  = (if expired now' (Item v now ttl) then (Null, (remove c key s).2) else (Value v, s1)) /\
  set c false now key v ttl s = (false, s).
Proof.
  split; [| reflexivity].
  unfold get, set. cbn [fst snd items base]. rewrite lookup_insert_eq.
  cbn [it_value]. destruct (expired now' (Item v now ttl)); [| reflexivity].
  unfold remove, removeItem. cbn [fst snd items base ls_rate ls_errors ls_token].
  rewrite delete_insert_eq, !delete_delete_eq.
  now destruct (String.eqb _ _).
Qed.

(** X5. An entry is private to its key: [set] on one key does not
    change what [get] answers for another. *)
Theorem storage_keys_are_independent now now' key key' v ttl s :
  key <> key' ->
  (get c now' key' (set c true now key v ttl s).2).1 = (get c now' key' s).1.
Proof.
  intros Hne.
  assert (Config.getStorageKey c key <> Config.getStorageKey c key') as Hk
    by (intros H; apply Hne; exact (getStorageKey_inj _ _ _ H)).
  unfold get, set, removeItem. cbn [fst snd items base ls_rate ls_errors].
  rewrite lookup_insert_ne by exact Hk. rewrite !lookup_delete_ne by exact Hk.
  destruct (items s !! Config.getStorageKey c key') as [i |].
  - now destruct (expired now' i).
  - destruct (ls_rate (base s) !! Config.getStorageKey c key');
      now destruct (ls_errors (base s) !! Config.getStorageKey c key').
Qed.

(** X6. [clear] empties the name space of the environment, whoever
    wrote the entries: afterwards [get] answers [null] for every key, every
    window of the rate limiter starts anew, and the stored error log is
    gone. The sign-in token, whose key is outside the name space, stays. *)
Theorem clear_also_resets_the_limiter s key type now :
  let s' := (clear c s).2 in
  (get c now key s').1 = Null /\
  RateLimit.load (APIClient.rate_key c type) (base s') = RateData 0 0 /\
  ls_errors (base s') !! Config.getStorageKey c "error_log" = None /\
  ls_token (base s') = ls_token (base s).
Proof.
  assert (forall (A : Type) (m : gmap string A) k,
            filter (fun kv => namespaced c kv.1 = false) m !! Config.getStorageKey c k = None)
    as Hgone.
  { intros A m k. apply map_lookup_filter_None. right. intros x _ H. cbn [fst] in H.
    rewrite namespaced_key in H. discriminate. }
  unfold clear, get, RateLimit.load, APIClient.rate_key.
  cbn [fst snd items base ls_rate ls_errors ls_token].
  rewrite !Hgone. repeat split.
Qed.

End Storage.

Lemma storage_keys_are_independent_witness :
  (StorageManager.get Example.dev 2000 "theme"
     (StorageManager.set Example.dev true 1000 "units" (Js.JStr "km") (Some 500)
        (StorageManager.Store empty_storage ∅)).2).1
  = (StorageManager.get Example.dev 2000 "theme" (StorageManager.Store empty_storage ∅)).1.
Proof. apply (storage_keys_are_independent Example.dev). discriminate. Defined.

(** ** More on the API client *)

Section Client.

Import APIClient.

Variable c : Config.t.

Lemma rate_key_inj t1 t2 : rate_key c t1 = rate_key c t2 -> t1 = t2.
Proof.
  unfold rate_key. intros H. apply getStorageKey_inj in H.
  now apply append_inj in H.
Qed.

(** What [serve] makes of the cache, the storage and the result, case by
    case. *)
Lemma serve_cases method endpoint d h reply w :
  let url := Config.getEndpoint c endpoint in
  let key := cacheKey method url d in
  let r := serve c method endpoint d h reply w in
  storage r.2 = storage w /\
  match cache_hit c method key (clock w) (cache w) with
  | Some v => r = (inr v, w)
  | None =>
      net_log r.2 = (net_log w ++ [build_config method d h (authToken w) url])%list /\
      clock r.2 = clock w + elapsed reply /\
      match outcome reply with
      | Rejects e =>
          cache r.2 = cache w /\
          r.1 = inl (if String.eqb (Js.err_name e) "AbortError"
                     then Js.Error "Request timeout" else e)
      | Responds status text body =>
          if response_ok status then
            match body with
            | inl e =>
                cache r.2 = cache w /\
                r.1 = inl (if String.eqb (Js.err_name e) "AbortError"
                           then Js.Error "Request timeout" else e)
            | inr v =>
                r.1 = inr v /\
                cache r.2 = if is_GET method
                            then <[key := CacheEntry v (clock w + elapsed reply)]> (cache w)
                            else cache w
            end
          else
            cache r.2 = cache w /\
            r.1 = inl (Js.Error ("HTTP " ++ pretty status ++ ": " ++ text))
      end
  end.
Proof.
  cbv zeta. unfold serve, Date_now.
  repeat (rewrite ?run_bind, ?run_gets; cbn [fst snd]).
  destruct (cache_hit c method _ (clock w) (cache w)) as [v |].
  - rewrite run_ret. split; reflexivity.
  - unfold try_catch, perform, fetch, send, tick, Date_now, throw.
    repeat (rewrite ?run_bind, ?run_gets, ?run_modify, ?run_ret; cbn [fst snd]).
    destruct (outcome reply) as [e | status text [e | result]].
    + destruct (String.eqb (Js.err_name e) "AbortError"); destruct w; repeat split.
    + destruct (response_ok status); cbn [negb].
      * destruct (String.eqb (Js.err_name e) "AbortError"); destruct w; repeat split.
      * destruct w; repeat split.
    + destruct (response_ok status); cbn [negb].
      * destruct (is_GET method);
          repeat (rewrite ?run_bind, ?run_gets, ?run_modify, ?run_ret; cbn [fst snd]);
          destruct w; repeat split.
      * destruct w; repeat split.
Qed.

(** X7. The categories of the limiter do not share a budget: a call
    leaves the stored window of every other category as it was. *)
Theorem categories_do_not_share_budget method endpoint d h reply w type :
  type <> getOperationType endpoint ->
  RateLimit.load (rate_key c type) (storage (request c method endpoint d h reply w).2)
  = RateLimit.load (rate_key c type) (storage w).
Proof.
  intros Hne.
  destruct (limited c (getOperationType endpoint) w) eqn:Hlim.
  - now rewrite request_limited by exact Hlim.
  - rewrite request_passed by exact Hlim.
    destruct (serve_cases method endpoint d h reply
                (set_storage (RateLimit.checkRateLimit c (getOperationType endpoint)
                                (clock w) (storage w)).2 w)) as [-> _].
    cbn [storage set_storage]. rewrite (counted c _ w Hlim). cbv zeta.
    unfold RateLimit.load, set_ls_rate. cbn [ls_rate].
    rewrite lookup_insert_ne; [reflexivity |].
    intros H. apply Hne. symmetry. exact (rate_key_inj _ _ H).
Qed.

(** X8. The cache learns from good answers only. A call that is not a
    [GET] never changes it; a [GET] that throws (stopped by the limiter,
    no answer, a status outside 200..299, an unreadable body) leaves it as
    it was; a [GET] that returns either found its answer in the cache or
    stored the answer under its own key, stamped with the time of arrival. *)
Theorem cache_learns_from_good_answers_only method endpoint d h reply w :
  let key := cacheKey method (Config.getEndpoint c endpoint) d in
  let r := request c method endpoint d h reply w in
  if is_GET method then
    match r.1 with
    | inl _ => cache r.2 = cache w
    | inr v =>
        cache r.2 = cache w \/ cache r.2 = <[key := CacheEntry v (clock r.2)]> (cache w)
    end
  else cache r.2 = cache w.
Proof.
  cbv zeta.
  destruct (limited c (getOperationType endpoint) w) eqn:Hlim.
  - rewrite request_limited by exact Hlim. cbn [fst snd]. now destruct (is_GET method).
  - rewrite request_passed by exact Hlim.
    match goal with |- context [serve _ _ _ _ _ _ ?w0] => set (w1 := w0) end.
    assert (cache w1 = cache w) as Hc by (subst w1; now destruct w).
    assert (clock w1 = clock w) as Hk by (subst w1; now destruct w).
    destruct (serve_cases method endpoint d h reply w1) as [_ H]. cbv zeta in H.
    destruct (cache_hit c method _ (clock w1) (cache w1)) as [v |] eqn:Hhit.
    + rewrite H. cbn [fst snd]. rewrite Hc.
      destruct (is_GET method); [now left | reflexivity].
    + destruct H as (_ & Hclock & H).
      destruct (outcome reply) as [e | status text [e | v]].
      * destruct H as [-> ->]. rewrite Hc. now destruct (is_GET method).
      * destruct (response_ok status); destruct H as [-> ->]; rewrite Hc;
          now destruct (is_GET method).
      * destruct (response_ok status).
        -- destruct H as [-> ->]. rewrite Hclock, Hc.
           destruct (is_GET method); [now right | reflexivity].
        -- destruct H as [-> ->]. rewrite Hc. now destruct (is_GET method).
Qed.

(** X9. What a call that goes to the network comes back with. A status
    outside 200..299 is thrown as [HTTP <status>: <statusText>]; an aborted
    request or body is thrown as [Request timeout], which the error
    handler shows as a time-out in whatever context; any other failure is
    thrown as it is; a good answer is returned. In each case exactly one
    request has gone out. *)
Theorem failures_are_normalised method endpoint d h reply w context :
  limited c (getOperationType endpoint) w = false ->
  cache_hit c method (cacheKey method (Config.getEndpoint c endpoint) d) (clock w) (cache w)
  = None ->
  let r := request c method endpoint d h reply w in
  let timeout e :=
    if String.eqb (Js.err_name e) "AbortError" then Js.Error "Request timeout" else e in
  r.1 = match outcome reply with
        | Rejects e => inl (timeout e)
        | Responds status text body =>
            if response_ok status then
              match body with inl e => inl (timeout e) | inr v => inr v end
            else inl (Js.Error ("HTTP " ++ pretty status ++ ": " ++ text))
        end /\
  length (net_log r.2) = S (length (net_log w)) /\
  ErrorHandler.friendly_message (Js.Error "Request timeout") context
  = "Request timed out. Please try again.".
Proof.
  intros Hlim Hmiss. cbv zeta.
  rewrite request_passed by exact Hlim.
  match goal with |- context [serve _ _ _ _ _ _ ?w0] => set (w1 := w0) end.
  assert (cache w1 = cache w) as Hc by (subst w1; now destruct w).
  assert (clock w1 = clock w) as Hk by (subst w1; now destruct w).
  assert (net_log w1 = net_log w) as Hn by (subst w1; now destruct w).
  destruct (serve_cases method endpoint d h reply w1) as [_ H]. cbv zeta in H.
  rewrite Hk, Hc, Hmiss in H. destruct H as (Hlog & _ & H).
  split; [| split; [rewrite Hlog, length_app, Hn; cbn; lia | reflexivity]].
  destruct (outcome reply) as [e | status text [e | v]].
  - apply H.
  - destruct (response_ok status); apply H.
  - destruct (response_ok status); apply H.
Qed.

(** X10. While the budget of a category is used up and its window has
    not passed, every call of that category throws the rate-limit error,
    however many are made: none reaches the network, the stored counter
    and the cache stay as they were. *)
Theorem exhausted_window_blocks_every_call type L ks w :
  Config.RATE_LIMIT c !! type = Some L ->
  forallb (of_type type) ks = true ->
  forallb patient ks = true ->
  L <= rd_count (RateLimit.load (rate_key c type) (storage w)) ->
  clock w + duration ks - rd_timestamp (RateLimit.load (rate_key c type) (storage w)) <= 60000 ->
  let run := run_calls c ks w in
  Forall (fun s => s.2 = inl (rate_limit_error type)) run.1 /\
  storage run.2 = storage w /\ net_log run.2 = net_log w /\ cache run.2 = cache w.
Proof.
  intros HL. revert w. induction ks as [| k ks IH]; intros w Htype Hpat Hfull Hin.
  - cbn. repeat split. constructor.
  - cbn [forallb] in Htype, Hpat.
    apply andb_prop in Htype as [Hk Htype]. apply andb_prop in Hpat as [Hp Hpat].
    unfold of_type in Hk. apply String.eqb_eq in Hk.
    unfold patient in Hp. apply andb_prop in Hp as [Hw He].
    apply Z.leb_le in Hw, He.
    pose proof (duration_nonneg ks Hpat) as Hd.
    cbn [duration foldr] in Hin. fold (duration ks) in Hin.
    rewrite run_calls_cons. cbv zeta. rewrite after_tick.
    set (w0 := set_clock (clock w + wait k) w).
    assert (storage w0 = storage w) as Hs by (subst w0; now destruct w).
    assert (clock w0 = clock w + wait k) as Hc by (subst w0; now destruct w).
    assert (limited c type w0 = true) as Hlim.
    { rewrite limited_eq, Hs, no_reset by lia.
      unfold RateLimit.over_limit. rewrite HL. now apply Z.leb_le. }
    unfold issue. rewrite <- Hk in Hlim. rewrite request_limited by exact Hlim.
    cbn [fst snd]. rewrite Hk.
    destruct (IH w0 Htype Hpat) as (Hall & Hst & Hnet & Hca).
    + now rewrite Hs.
    + rewrite Hs, Hc. lia.
    + split; [constructor; [reflexivity | exact Hall] |].
      rewrite Hst, Hnet, Hca. subst w0. now destruct w.
Qed.

End Client.

Lemma categories_do_not_share_budget_witness :
  RateLimit.load (APIClient.rate_key Example.dev "routes")
    (storage (APIClient.request Example.dev "GET" "/locations/search?query=Belgrade&limit=5"
                APIClient.DNull ∅ (Example.ok_reply (Js.JObj [("results", Js.JArr [])]))
                Example.loaded).2)
  = RateLimit.load (APIClient.rate_key Example.dev "routes") (storage Example.loaded).
Proof. apply (categories_do_not_share_budget Example.dev). vm_compute. discriminate. Defined.

Lemma failures_are_normalised_witness :
  APIClient.limited Example.dev "general" Example.loaded = false /\
  let r := APIClient.request Example.dev "GET" "/auth/me" APIClient.DNull ∅
             Example.server_error Example.loaded in
  r.1 = inl (Js.Error "HTTP 500: Internal Server Error") /\
  length (net_log r.2) = S (length (net_log Example.loaded)) /\
  ErrorHandler.friendly_message (Js.Error "Request timeout") "Login failed"
  = "Request timed out. Please try again.".
Proof.
  split; [vm_compute; reflexivity |].
  exact (failures_are_normalised Example.dev "GET" "/auth/me" APIClient.DNull ∅
           Example.server_error Example.loaded "Login failed" eq_refl eq_refl).
Defined.

Lemma exhausted_window_blocks_every_call_witness :
  let ks := replicate 3 Example.search_call in
  let run := APIClient.run_calls Example.dev ks Example.busy in
  Config.RATE_LIMIT Example.dev !! "search" = Some 10 /\
  Forall (fun s => s.2 = inl (APIClient.rate_limit_error "search")) run.1 /\
  storage run.2 = storage Example.busy /\ net_log run.2 = net_log Example.busy /\
  cache run.2 = cache Example.busy.
Proof.
  split; [reflexivity |].
  apply (exhausted_window_blocks_every_call Example.dev "search" 10);
    vm_compute; first [reflexivity | discriminate].
Defined.

(** ** Error reports *)

(** Once [window.app] is assigned, the handler is the one the rest of
    the development uses. *)
Lemma handle_with_app c writable error context showToUser :
  ErrorHandlerAt.handle true c writable error context showToUser
  = ErrorHandler.handle c writable error context showToUser.
Proof. reflexivity. Qed.

(** X11. An error report leaves the browser in production only, and
    only when [handle] got past showing the message. Showing it fails in
    one case: [window.app] is assigned ([app]), the message is to be shown,
    and the page has no status line; [handle] then throws before it gets to
    the report. Before [window.app] is assigned the message goes to
    [alert], which needs nothing of the page. When a report is made it is
    one [POST] to the [/error-report] endpoint with a JSON content type;
    nothing is said here of its body. In the other environments nothing is
    sent. The error is in the log of the handler in each case. *)
Theorem errors_are_reported_in_production_only
    (app : bool) c writable error context showToUser w :
  let info := ErrorHandler.errorInfo_of error context (clock w) in
  let shown :=
    negb showToUser || negb app || bool_decide (is_Some (dom w !! "statusMessage")) in
  let r := ErrorHandlerAt.handle app c writable error context showToUser w in
  r.1 = (if shown then inr tt else inl (null_error "statusMessage")) /\
  (if ErrorHandler.is_production c && shown
   then exists body,
       net_log r.2
       = (net_log w ++ [FetchRequest (Config.getEndpoint c "/error-report") "POST"
                          {["Content-Type" := "application/json"]} body])%list
   else net_log r.2 = net_log w) /\
  errorLog r.2 = ErrorHandler.push info (errorLog w).
Proof.
  cbv zeta.
  unfold ErrorHandlerAt.handle, ErrorHandler.log, ErrorHandlerAt.showUserFriendlyError,
    ErrorHandlerAt.alert, ErrorHandler.reportError, send, when_, Date_now.
  repeat (rewrite ?run_bind, ?run_gets, ?run_modify, ?run_ret, ?showStatus_run; cbn [fst snd]).
  destruct app, writable, showToUser, (ErrorHandler.is_production c);
    repeat (rewrite ?run_bind, ?run_gets, ?run_modify, ?run_ret, ?showStatus_run;
            cbn [fst snd negb orb andb]);
    destruct w; cbn;
    match goal with
    | |- context [?d !! "statusMessage"] => destruct (d !! "statusMessage"); cbn
    | _ => idtac
    end; repeat split; try (eexists; reflexivity).
Qed.

(** ** Code that stays on the page *)

Lemma page_only_refl w : page_only w w.
Proof. unfold page_only. repeat split. Qed.

Lemma page_only_trans w1 w2 w3 : page_only w1 w2 -> page_only w2 w3 -> page_only w1 w3.
Proof.
  unfold page_only.
  intros (A1 & A2 & A3 & A4 & A5 & A6 & A7 & A8) (B1 & B2 & B3 & B4 & B5 & B6 & B7 & B8).
  repeat split; congruence.
Qed.

Lemma ui_only_page w w' : ui_only w w' -> page_only w w'.
Proof. unfold ui_only, page_only. intros ->. destruct w. repeat split. Qed.

Lemma page_of_ui {A} (m : M A) : touches_ui_only m -> touches_page_only m.
Proof. intros H w. apply ui_only_page, H. Qed.

Lemma page_ret {A} (a : A) : touches_page_only (mret a : M A).
Proof. intros w. apply page_only_refl. Qed.

Lemma page_throw {A} e : touches_page_only (throw e : M A).
Proof. intros w. apply page_only_refl. Qed.

Lemma page_gets {A} (f : world -> A) : touches_page_only (gets f).
Proof. intros w. apply page_only_refl. Qed.

Lemma page_bind {A B} (m : M A) (f : A -> M B) :
  touches_page_only m -> (forall a, touches_page_only (f a)) -> touches_page_only (m ≫= f).
Proof.
  intros Hm Hf w. rewrite run_bind. specialize (Hm w).
  destruct (m w) as [[e | a] w1]; [exact Hm |].
  eapply page_only_trans; [exact Hm | apply Hf].
Qed.

Lemma page_try_catch {A} (m : M A) (h : Js.error -> M A) :
  touches_page_only m -> (forall e, touches_page_only (h e)) ->
  touches_page_only (try_catch m h).
Proof.
  intros Hm Hh w. unfold try_catch. specialize (Hm w).
  destruct (m w) as [[e | a] w1]; [| exact Hm].
  eapply page_only_trans; [exact Hm | apply Hh].
Qed.

Lemma page_when b (m : M unit) : touches_page_only m -> touches_page_only (when_ b m).
Proof. destruct b; [trivial | intros _; apply page_ret]. Qed.

Lemma page_forEach {A} (xs : list A) (body : A -> M unit) :
  (forall x, touches_page_only (body x)) -> touches_page_only (forEach xs body).
Proof.
  intros Hb. induction xs as [| x xs IH]; [apply page_ret |].
  cbn [forEach]. apply page_bind; [apply Hb | intros _; exact IH].
Qed.

Lemma page_removeLayer id : touches_page_only (L.removeLayer id).
Proof. intros w. unfold L.removeLayer. rewrite run_modify. destruct w. repeat split. Qed.

Lemma page_removeLayer_opt slot : touches_page_only (L.removeLayer_opt slot).
Proof. destruct slot; [apply page_removeLayer | apply page_ret]. Qed.

Lemma page_addTo l : touches_page_only (L.addTo l).
Proof. intros w. unfold L.addTo. destruct w. repeat split. Qed.

Lemma page_set_markers f : touches_page_only (modify (fun w => set_markers (f w) w)).
Proof. intros w. rewrite run_modify. destruct w. repeat split. Qed.

Lemma page_set_startPoint p : touches_page_only (modify (set_startPoint p)).
Proof. intros w. rewrite run_modify. destruct w. repeat split. Qed.

Lemma page_set_endPoint p : touches_page_only (modify (set_endPoint p)).
Proof. intros w. rewrite run_modify. destruct w. repeat split. Qed.

Lemma page_set_routeStartMarker p : touches_page_only (modify (set_routeStartMarker p)).
Proof. intros w. rewrite run_modify. destruct w. repeat split. Qed.

Lemma page_set_routeEndMarker p : touches_page_only (modify (set_routeEndMarker p)).
Proof. intros w. rewrite run_modify. destruct w. repeat split. Qed.

Lemma page_set_routeLine p : touches_page_only (modify (set_routeLine p)).
Proof. intros w. rewrite run_modify. destruct w. repeat split. Qed.

Lemma page_set_isAuthMode s : touches_page_only (modify (set_isAuthMode s)).
Proof. intros w. rewrite run_modify. destruct w. repeat split. Qed.

Lemma page_showStatus message type : touches_page_only (showStatus message type).
Proof. apply page_of_ui, ui_showStatus. Qed.

Lemma page_set_prop id f : touches_page_only (set_prop id f).
Proof. apply page_of_ui, ui_set_prop. Qed.

Lemma page_set_prop_if_present id f : touches_page_only (set_prop_if_present id f).
Proof. apply page_of_ui, ui_set_prop_if_present. Qed.

Lemma page_set_prop_all sel f : touches_page_only (set_prop_all sel f).
Proof. apply page_of_ui, ui_set_prop_all. Qed.

Create HintDb page discriminated.

#[local] Hint Resolve page_ret page_throw page_gets page_when page_forEach page_removeLayer
  page_removeLayer_opt page_addTo page_set_markers page_set_startPoint page_set_endPoint
  page_set_routeStartMarker page_set_routeEndMarker page_set_routeLine page_set_isAuthMode
  page_showStatus page_set_prop page_set_prop_if_present page_set_prop_all : page.

Ltac page_step :=
  first [ solve [auto with page]
        | apply page_when
        | apply page_forEach; intros ?
        | apply page_try_catch; [| intros ?]
        | apply page_bind; [| intros ?] ].

Lemma page_checkRouteReady : touches_page_only TravelMateApp.checkRouteReady.
Proof. unfold TravelMateApp.checkRouteReady. repeat page_step. Qed.

#[local] Hint Resolve page_checkRouteReady : page.

Lemma page_clearRouteDisplay : touches_page_only TravelMateApp.clearRouteDisplay.
Proof. unfold TravelMateApp.clearRouteDisplay. repeat page_step. Qed.

#[local] Hint Resolve page_clearRouteDisplay : page.

Lemma page_clearMap : touches_page_only TravelMateApp.clearMap.
Proof.
  unfold TravelMateApp.clearMap. repeat page_step.
Qed.

#[local] Hint Resolve page_clearMap : page.

Lemma page_showAuthModal mode : touches_page_only (TravelMateApp.showAuthModal mode).
Proof.
  unfold TravelMateApp.showAuthModal. repeat page_step.
  destruct (negb a0); [apply page_ret |]. destruct (String.eqb mode "login"); repeat page_step.
Qed.

#[local] Hint Resolve page_showAuthModal : page.

(** ** Signing out, whatever the page looks like *)

Lemma removeToken_run w :
  let w' := (TravelMateApp.removeToken w).2 in
  ls_token (storage w') = None /\ ls_rate (storage w') = ls_rate (storage w) /\
  ls_errors (storage w') = ls_errors (storage w) /\ currentUser w' = currentUser w /\
  authToken w' = authToken w /\ net_log w' = net_log w /\ cache w' = cache w /\
  reloads w' = reloads w.
Proof.
  unfold TravelMateApp.removeToken. rewrite run_modify.
  destruct w as [? [? ? ?] ? ? ? ? ? ? ? ? ? ? ? ? ? ? ? ? ? ? ?]. repeat split.
Qed.

(** The [catch] block of [logout]. *)
Lemma logout_catch w :
  let w' := ((TravelMateApp.removeToken ;; TravelMateApp.reload) w).2 in
  ls_token (storage w') = None /\ ls_rate (storage w') = ls_rate (storage w) /\
  ls_errors (storage w') = ls_errors (storage w) /\ currentUser w' = currentUser w /\
  authToken w' = authToken w /\ net_log w' = net_log w /\ cache w' = cache w /\
  reloads w' = S (reloads w).
Proof.
  unfold TravelMateApp.removeToken, TravelMateApp.reload.
  rewrite run_bind, !run_modify.
  destruct w as [? [? ? ?] ? ? ? ? ? ? ? ? ? ? ? ? ? ? ? ? ? ? ?]. repeat split.
Qed.

Lemma showGuestMode_cache w : cache (TravelMateApp.showGuestMode w).2 = cache w.
Proof.
  unfold TravelMateApp.showGuestMode.
  rewrite run_bind, run_modify. cbn [fst snd]. rewrite run_bind, run_modify. cbn [fst snd].
  match goal with |- context [(?m (set_authToken None ?w0)).2] =>
    assert (touches_ui_only m) as Hui by (repeat ui_step);
    destruct (ui_only_page _ _ (Hui (set_authToken None w0)))
      as (_ & _ & _ & _ & _ & _ & _ & ->)
  end.
  now destruct w.
Qed.

(** X12. [logout] always ends the session, in every state of the page
    and of the map and whether or not it runs into an error on the way:
    afterwards no token is stored, the application holds neither user nor
    token, nothing was sent to the network, and the limiter windows, the
    stored error log and the cache are untouched. The page is reloaded at
    most once. *)
Theorem logout_always_ends_the_session w :
  let w' := world_after TravelMateApp.logout w in
  ls_token (storage w') = None /\ currentUser w' = None /\ authToken w' = None /\
  net_log w' = net_log w /\ ls_rate (storage w') = ls_rate (storage w) /\
  ls_errors (storage w') = ls_errors (storage w) /\ cache w' = cache w /\
  (reloads w' <= S (reloads w))%nat.
Proof.
  cbv zeta. unfold world_after, TravelMateApp.logout, try_catch.
  rewrite run_bind.
  destruct (removeToken_run w) as (T1 & T2 & T3 & _ & _ & T6 & T7 & T8).
  destruct (TravelMateApp.removeToken w) as [[e | []] w1] eqn:Hrm;
    [unfold TravelMateApp.removeToken in Hrm; rewrite run_modify in Hrm; discriminate |].
  cbn [fst snd] in *. rewrite run_bind.
  destruct (showGuestMode_session w1) as (Hu & Ht & Hs & Hn & Hr).
  pose proof (showGuestMode_cache w1) as Hc.
  destruct (TravelMateApp.showGuestMode w1) as [[e | []] w2]; cbn [fst snd] in *.
  - destruct (logout_catch w2) as (C1 & C2 & C3 & C4 & C5 & C6 & C7 & C8).
    cbv zeta in *. rewrite C1, C2, C3, C4, C5, C6, C7, C8, Hu, Ht, Hs, Hn, Hc, Hr, T2, T3, T6, T7, T8.
    repeat split. lia.
  - match goal with |- context [(?m w2)] =>
      assert (touches_page_only m) as Hpage by (repeat page_step);
      specialize (Hpage w2); destruct (m w2) as [[e | []] w3]
    end; cbn [fst snd] in *;
      destruct Hpage as (P1 & P2 & P3 & P4 & P5 & P6 & P7 & P8).
    + destruct (logout_catch w3) as (C1 & C2 & C3 & C4 & C5 & C6 & C7 & C8).
      cbv zeta in *.
      rewrite C1, C2, C3, C4, C5, C6, C7, C8, P2, P3, P4, P5, P6, P8,
        Hu, Ht, Hs, Hn, Hc, Hr, T2, T3, T6, T7, T8.
      repeat split. lia.
    + rewrite P2, P3, P4, P5, P6, P8, Hu, Ht, Hs, Hn, Hc, Hr, T1, T2, T3, T6, T7, T8.
      repeat split. lia.
Qed.

(** ** Code that leaves the session alone *)

Lemma same_session_refl w : same_session w w.
Proof. unfold same_session. repeat split. Qed.

Lemma same_session_trans w1 w2 w3 :
  same_session w1 w2 -> same_session w2 w3 -> same_session w1 w3.
Proof. unfold same_session. intros (A1 & A2 & A3) (B1 & B2 & B3). repeat split; congruence. Qed.

Lemma page_only_same_session w w' : page_only w w' -> same_session w w'.
Proof.
  unfold page_only, same_session. intros (_ & -> & _ & _ & -> & -> & _). repeat split.
Qed.

Lemma session_of_page {A} (m : M A) : touches_page_only m -> keeps_session m.
Proof. intros H w. apply page_only_same_session, H. Qed.

Lemma session_ret {A} (a : A) : keeps_session (mret a : M A).
Proof. intros w. apply same_session_refl. Qed.

Lemma session_throw {A} e : keeps_session (throw e : M A).
Proof. intros w. apply same_session_refl. Qed.

Lemma session_gets {A} (f : world -> A) : keeps_session (gets f).
Proof. intros w. apply same_session_refl. Qed.

Lemma session_bind {A B} (m : M A) (f : A -> M B) :
  keeps_session m -> (forall a, keeps_session (f a)) -> keeps_session (m ≫= f).
Proof.
  intros Hm Hf w. rewrite run_bind. specialize (Hm w).
  destruct (m w) as [[e | a] w1]; [exact Hm |].
  eapply same_session_trans; [exact Hm | apply Hf].
Qed.

Lemma session_try_catch {A} (m : M A) (h : Js.error -> M A) :
  keeps_session m -> (forall e, keeps_session (h e)) -> keeps_session (try_catch m h).
Proof.
  intros Hm Hh w. unfold try_catch. specialize (Hm w).
  destruct (m w) as [[e | a] w1]; [| exact Hm].
  eapply same_session_trans; [exact Hm | apply Hh].
Qed.

Lemma session_when b (m : M unit) : keeps_session m -> keeps_session (when_ b m).
Proof. destruct b; [trivial | intros _; apply session_ret]. Qed.

Lemma session_send req : keeps_session (send req).
Proof. intros w. unfold send. rewrite run_modify. destruct w. repeat split. Qed.

Lemma session_input_value id : keeps_session (TravelMateApp.input_value id).
Proof.
  unfold TravelMateApp.input_value, getElementById.
  apply session_bind; [apply session_gets |].
  intros [e |]; [apply session_ret | apply session_throw].
Qed.

Lemma session_request c method endpoint d h reply :
  keeps_session (APIClient.request c method endpoint d h reply).
Proof.
  intros w.
  pose proof (request_frame c method endpoint d h reply w) as Hframe. cbv zeta in Hframe.
  assert (ls_token (storage (APIClient.request c method endpoint d h reply w).2)
          = ls_token (storage w)) as Htok.
  { destruct (APIClient.limited c (APIClient.getOperationType endpoint) w) eqn:Hlim.
    - now rewrite request_limited by exact Hlim.
    - rewrite request_passed by exact Hlim.
      match goal with |- context [APIClient.serve _ _ _ _ _ _ ?w0] =>
        destruct (serve_cases c method endpoint d h reply w0) as [-> _]
      end.
      cbn [storage set_storage]. rewrite (counted c _ w Hlim). reflexivity. }
  unfold same_session. split; [exact Htok |].
  rewrite Hframe. destruct w. split; reflexivity.
Qed.

Lemma session_handle c writable error context showToUser :
  keeps_session (ErrorHandler.handle c writable error context showToUser).
Proof.
  unfold ErrorHandler.handle, ErrorHandler.log, ErrorHandler.showUserFriendlyError,
    ErrorHandler.reportError, Date_now.
  apply session_bind; [apply session_gets | intros now].
  apply session_bind.
  - apply session_bind.
    + intros w. rewrite run_modify. destruct w. repeat split.
    + intros _. apply session_when. intros w. rewrite run_modify.
      destruct w as [? [? ? ?] ? ? ? ? ? ? ? ? ? ? ? ? ? ? ? ? ? ? ?]. repeat split.
  - intros _. apply session_bind.
    + apply session_when, session_of_page, page_showStatus.
    + intros _. apply session_when, session_send.
Qed.

Lemma session_toggleAuthMode : keeps_session TravelMateApp.toggleAuthMode.
Proof.
  apply session_of_page. unfold TravelMateApp.toggleAuthMode. repeat page_step.
Qed.

Create HintDb session discriminated.

#[local] Hint Resolve session_ret session_throw session_gets session_when session_send
  session_input_value session_request session_handle session_toggleAuthMode : session.

Ltac session_step :=
  first [ solve [auto with session]
        | solve [apply session_of_page; repeat page_step]
        | apply session_when
        | apply session_try_catch; [| intros ?]
        | apply session_bind; [| intros ?] ].

(** A call that finds nothing in the cache and gets no good answer throws;
    a call that is not a [GET] never looks in the cache. *)
Lemma request_fails_on_miss c method endpoint d h reply w :
  fails reply = true ->
  APIClient.cache_hit c method
    (APIClient.cacheKey method (Config.getEndpoint c endpoint) d) (clock w) (cache w) = None ->
  exists e, (APIClient.request c method endpoint d h reply w).1 = inl e.
Proof.
  intros Hfail Hmiss.
  destruct (APIClient.limited c (APIClient.getOperationType endpoint) w) eqn:Hlim.
  - rewrite request_limited by exact Hlim. eauto.
  - rewrite request_passed by exact Hlim.
    match goal with |- context [APIClient.serve _ _ _ _ _ _ ?w0] =>
      set (w1 := w0);
      assert (cache w1 = cache w) as Hc by (subst w1; now destruct w);
      assert (clock w1 = clock w) as Hk by (subst w1; now destruct w);
      destruct (serve_cases c method endpoint d h reply w1) as [_ H]
    end.
    cbv zeta in H. rewrite Hk, Hc, Hmiss in H.
    destruct H as (_ & _ & H). unfold fails in Hfail.
    destruct (outcome reply) as [e | status text [e | v]].
    + destruct H as [_ ->]. eauto.
    + destruct (response_ok status); destruct H as [_ ->]; eauto.
    + destruct (response_ok status); [discriminate |]. destruct H as [_ ->]. eauto.
Qed.

Lemma request_fails c method endpoint d h reply w :
  fails reply = true ->
  APIClient.is_GET method = false ->
  exists e, (APIClient.request c method endpoint d h reply w).1 = inl e.
Proof.
  intros Hfail Hget. apply request_fails_on_miss; [exact Hfail |].
  unfold APIClient.cache_hit. now rewrite Hget.
Qed.

Section SignIn.

Import TravelMateApp.

Variable c : Config.t.

(** X13. Creating an account never signs anybody in: whatever the form
    holds and whatever the server answers, [handleRegister] leaves the
    stored token, the held token and the current user as they were. *)
Theorem register_never_signs_in writable reply w :
  let w' := world_after (handleRegister c writable reply) w in
  ls_token (storage w') = ls_token (storage w) /\
  authToken w' = authToken w /\ currentUser w' = currentUser w.
Proof.
  assert (keeps_session (handleRegister c writable reply)) as H.
  { unfold handleRegister, APIClient.post.
    do 3 (apply session_bind; [apply session_input_value | intros ?]).
    repeat match goal with |- keeps_session (if ?b then _ else _) => destruct b end;
      repeat session_step. }
  exact (H w).
Qed.

(** X14. A sign-in attempt that gets no good answer from the login
    endpoint leaves the session as it was, whatever the form holds and
    whatever the page looks like: no token is stored or held and the
    current user does not change. *)
Theorem failed_login_keeps_session writable login_reply me_reply w :
  fails login_reply = true ->
  let w' := world_after (handleLogin c writable login_reply me_reply) w in
  ls_token (storage w') = ls_token (storage w) /\
  authToken w' = authToken w /\ currentUser w' = currentUser w.
Proof.
  intros Hfail.
  assert (keeps_session (handleLogin c writable login_reply me_reply)) as H; [| exact (H w)].
  unfold handleLogin.
  apply session_bind; [apply session_input_value | intros email].
  apply session_bind; [apply session_input_value | intros password].
  repeat match goal with |- keeps_session (if ?b then _ else _) => destruct b end;
    try solve [repeat session_step].
  apply session_try_catch; [| intros ?; apply session_handle].
  apply session_bind; [apply session_of_page, page_showStatus | intros _].
  intros w0. rewrite run_bind. unfold APIClient.post.
  pose proof (session_request c "POST" "/auth/login"
                (APIClient.DParams [("username", Js.trim email); ("password", password)])
                {["Content-Type" := "application/x-www-form-urlencoded"]} login_reply w0) as Hs.
  destruct (request_fails c "POST" "/auth/login"
              (APIClient.DParams [("username", Js.trim email); ("password", password)])
              {["Content-Type" := "application/x-www-form-urlencoded"]} login_reply w0
              Hfail eq_refl) as [e He].
  destruct (APIClient.request c "POST" "/auth/login" _ _ login_reply w0) as [[e' | v] w1];
    cbn [fst snd] in *; [exact Hs | discriminate].
Qed.

End SignIn.

Lemma failed_login_keeps_session_witness :
  let w := set_dom (<["loginEmail" := Example.input "alice@example.org"]>
                      (<["loginPassword" := Example.input "wrong"]> Example.page))
             Example.loaded in
  let w' := world_after (TravelMateApp.handleLogin Example.dev true Example.unauthorized
                           (Example.ok_reply Example.alice)) w in
  fails Example.unauthorized = true /\
  ls_token (storage w') = ls_token (storage w) /\
  authToken w' = authToken w /\ currentUser w' = currentUser w.
Proof.
  split; [reflexivity |].
  apply (failed_login_keeps_session Example.dev). reflexivity.
Defined.

Lemma try_catch_bind {A B} (m : M A) (f : A -> M B) (h : Js.error -> M B) w :
  try_catch (m ≫= f) h w
  = match m w with
    | (inr a, w1) => try_catch (f a) h w1
    | (inl e, w1) => h e w1
    end.
Proof. unfold try_catch. rewrite run_bind. now destruct (m w) as [[e | a] w1]. Qed.

(** A call that is let through, finds nothing in the cache and gets a good
    answer. *)
Lemma request_ok c method endpoint d h reply w status text v :
  APIClient.limited c (APIClient.getOperationType endpoint) w = false ->
  APIClient.cache_hit c method
    (APIClient.cacheKey method (Config.getEndpoint c endpoint) d) (clock w) (cache w) = None ->
  outcome reply = Responds status text (inr v) ->
  response_ok status = true ->
  let r := APIClient.request c method endpoint d h reply w in
  r.1 = inr v /\ clock r.2 = clock w + elapsed reply /\
  ls_token (storage r.2) = ls_token (storage w) /\
  dom r.2 = dom w /\ authToken r.2 = authToken w /\ currentUser r.2 = currentUser w /\
  (APIClient.is_GET method = false -> cache r.2 = cache w) /\
  net_log r.2
  = (net_log w ++
     [APIClient.build_config method d h (authToken w) (Config.getEndpoint c endpoint)])%list.
Proof.
  intros Hlim Hmiss Hout Hok. cbv zeta.
  pose proof (request_frame c method endpoint d h reply w) as Hframe. cbv zeta in Hframe.
  pose proof (session_request c method endpoint d h reply w) as (Hs1 & Hs2 & Hs3).
  rewrite request_passed in * by exact Hlim.
  match goal with |- context [APIClient.serve _ _ _ _ _ _ ?w0] => set (w1 := w0) in * end.
  assert (cache w1 = cache w) as Hc by (subst w1; now destruct w).
  assert (clock w1 = clock w) as Hk by (subst w1; now destruct w).
  assert (net_log w1 = net_log w) as Hn by (subst w1; now destruct w).
  assert (authToken w1 = authToken w) as Ha by (subst w1; now destruct w).
  destruct (serve_cases c method endpoint d h reply w1) as [_ H]. cbv zeta in H.
  rewrite Hk, Hc, Hmiss, Hout, Hok, Hn, Ha in H. destruct H as (Hlog & Hclock & Hres & Hcache).
  repeat split; try assumption.
  - rewrite Hframe. now destruct w.
  - intros Hget. now rewrite Hcache, Hget.
Qed.

(** ** Signing in *)

Ltac session_cases :=
  repeat first
    [ session_step
    | match goal with
      | |- keeps_session (if ?b then _ else _) => destruct b
      | |- keeps_session (match ?x with _ => _ end) => destruct x
      end ].

Section SignedIn.

Import TravelMateApp.

Variable c : Config.t.

(** [setAuthenticatedUser] records the user first; nothing it does after
    that changes the session, however far it gets. *)
Lemma setAuthenticatedUser_session user w :
  let w' := (setAuthenticatedUser c user w).2 in
  currentUser w' = Some user /\ authToken w' = authToken w /\
  ls_token (storage w') = ls_token (storage w).
Proof.
  unfold setAuthenticatedUser. rewrite run_bind, run_modify. cbn [fst snd].
  match goal with |- context [(?m (set_currentUser (Some user) w)).2] =>
    assert (keeps_session m) as Hk
  end.
  { unfold enableControls, MapPlacesManager.enableControls,
      MapPlacesManager.loadUserPlaces_started, toggleSidebar, getElementById.
    session_cases. }
  destruct (Hk (set_currentUser (Some user) w)) as (H1 & H2 & H3).
  cbv zeta. rewrite H1, H2, H3. now destruct w.
Qed.

Lemma session_closeAuthModal : keeps_session closeAuthModal.
Proof.
  apply session_of_page. unfold closeAuthModal, getElementById.
  apply page_bind; [apply page_gets | intros [m |]]; [| apply page_ret].
  destruct (negb (class_contains "active" m)); repeat page_step.
Qed.

(** What is left of [handleLogin] once the profile has arrived. *)
Lemma welcome_session writable user w :
  let w' := (try_catch
               (setAuthenticatedUser c user ;; closeAuthModal ;;
                showStatus "Welcome back!" "success")
               (fun error => ErrorHandler.handle c writable error "Login failed" true) w).2 in
  currentUser w' = Some user /\ authToken w' = authToken w /\
  ls_token (storage w') = ls_token (storage w).
Proof.
  cbv zeta. rewrite try_catch_bind.
  destruct (setAuthenticatedUser_session user w) as (U1 & U2 & U3).
  destruct (setAuthenticatedUser c user w) as [[e | []] w1]; cbn [fst snd] in *.
  - destruct (session_handle c writable e "Login failed" true w1) as (H1 & H2 & H3).
    rewrite H1, H2, H3. auto.
  - match goal with |- context [(try_catch ?m ?h w1).2] =>
      assert (keeps_session (try_catch m h)) as Hk
    end.
    { apply session_try_catch; [| intros ?; apply session_handle].
      apply session_bind; [apply session_closeAuthModal | intros _].
      apply session_of_page, page_showStatus. }
    destruct (Hk w1) as (H1 & H2 & H3). rewrite H1, H2, H3. auto.
Qed.

(** [handleLogin] with a well-formed form, a status line and a login
    endpoint that answers with a token: up to the call for the profile. *)
Lemma handleLogin_token writable login_reply me_reply w ee pe status text response t :
  dom w !! "loginEmail" = Some ee ->
  validateEmail (Js.trim (el_value ee)) = true ->
  dom w !! "loginPassword" = Some pe ->
  el_value pe <> EmptyString ->
  is_Some (dom w !! "statusMessage") ->
  Config.RATE_LIMIT c !! "general" = None ->
  outcome login_reply = Responds status text (inr response) ->
  response_ok status = true ->
  Js.prop "access_token" response = Some (Js.JStr t) ->
  exists w3,
    handleLogin c writable login_reply me_reply w
    = try_catch
        (userResponse ← APIClient.get c "/auth/me" [] me_reply;
         setAuthenticatedUser c userResponse ;; closeAuthModal ;;
         showStatus "Welcome back!" "success")
        (fun error => ErrorHandler.handle c writable error "Login failed" true) w3 /\
    clock w3 = clock w + elapsed login_reply /\ cache w3 = cache w /\
    authToken w3 = Some t /\ ls_token (storage w3) = Some t /\
    currentUser w3 = currentUser w /\ length (net_log w3) = S (length (net_log w)).
Proof.
  intros He Hvalid Hp Hpw [st Hst] Hgen Hout Hok Htok.
  unfold handleLogin.
  rewrite run_bind, input_value_run, He. cbn [fst snd].
  rewrite run_bind, input_value_run, Hp. cbn [fst snd].
  rewrite Hvalid. cbn [negb].
  destruct (String.eqb_spec (el_value pe) EmptyString) as [Heq | _]; [contradiction |].
  rewrite try_catch_bind, showStatus_run, Hst.
  match goal with |- context [try_catch _ _ ?w0] => set (w1 := w0) end.
  assert (clock w1 = clock w /\ cache w1 = cache w /\ currentUser w1 = currentUser w /\
          net_log w1 = net_log w)
    as (K1 & C1 & U1 & N1) by (subst w1; destruct w; repeat split).
  rewrite try_catch_bind. unfold APIClient.post.
  match goal with |- context [APIClient.request c "POST" "/auth/login" ?d ?h login_reply w1] =>
    destruct (request_ok c "POST" "/auth/login" d h login_reply w1 status text response)
      as (R1 & R2 & R3 & R4 & R5 & R6 & R7 & R8);
      [now apply unlimited | reflexivity | exact Hout | exact Hok |];
    destruct (APIClient.request c "POST" "/auth/login" d h login_reply w1) as [res w2]
  end.
  cbn [fst snd] in *. subst res. specialize (R7 eq_refl).
  assert (access_token response = mret (Some (Js.JStr t))) as ->
    by (destruct response; try discriminate Htok; unfold access_token; now rewrite Htok).
  rewrite try_catch_bind, run_ret.
  rewrite try_catch_bind, run_modify.
  rewrite try_catch_bind. unfold storeToken. rewrite run_modify.
  eexists. split; [reflexivity |].
  cbn [held_token Js.to_string].
  assert (length (net_log w2) = S (length (net_log w))) as Hlen
    by (rewrite R8, length_app, N1; cbn; lia).
  destruct w2 as [? [? ? ?] ? ? ? ? ? ? ? ? ? ? ? ? ? ? ? ? ? ? ?]; cbn in *.
  repeat split; congruence.
Qed.

(** X15. A profile that the API client still holds in its cache is
    the one a sign-in ends with. The answer to [GET /auth/me] is cached
    under a key that names neither the user nor the token, and signing out
    does not empty the cache; so when such an entry is fresh at the time
    the login endpoint has answered, [handleLogin] makes it the current
    user, whatever the server would say about the new token. *)
Theorem cached_profile_is_served_after_login
    writable login_reply me_reply w ee pe status text response t v ts :
  dom w !! "loginEmail" = Some ee ->
  validateEmail (Js.trim (el_value ee)) = true ->
  dom w !! "loginPassword" = Some pe ->
  el_value pe <> EmptyString ->
  is_Some (dom w !! "statusMessage") ->
  Config.RATE_LIMIT c !! "general" = None ->
  outcome login_reply = Responds status text (inr response) ->
  response_ok status = true ->
  Js.prop "access_token" response = Some (Js.JStr t) ->
  cache w !! APIClient.cacheKey "GET" (Config.getEndpoint c "/auth/me") APIClient.DNull
  = Some (CacheEntry v ts) ->
  clock w + elapsed login_reply - ts < Config.CACHE_DURATION c ->
  let w' := world_after (handleLogin c writable login_reply me_reply) w in
  currentUser w' = Some v /\ authToken w' = Some t /\ ls_token (storage w') = Some t.
Proof.
  intros He Hvalid Hp Hpw Hst Hgen Hout Hok Htok Hcached Hfresh.
  cbv zeta. unfold world_after.
  destruct (handleLogin_token writable login_reply me_reply w ee pe status text response t)
    as (w3 & -> & K3 & C3 & A3 & T3' & U3 & _); try assumption.
  rewrite try_catch_bind. unfold APIClient.get.
  cbn [APIClient.query_string map Js.join String.eqb].
  rewrite request_passed by (now apply unlimited).
  match goal with |- context [APIClient.serve _ _ _ _ _ _ ?w0] => set (w4 := w0) end.
  assert (clock w4 = clock w3 /\ cache w4 = cache w3 /\ authToken w4 = authToken w3 /\
          ls_token (storage w4) = ls_token (storage w3)) as (K4 & C4 & A4 & T4).
  { subst w4. rewrite (counted c _ w3) by (now apply unlimited).
    destruct w3; repeat split. }
  rewrite (serve_hit c "GET" "/auth/me" APIClient.DNull ∅ me_reply w4 v).
  - destruct (welcome_session writable v w4) as (H1 & H2 & H3).
    cbv zeta in *. rewrite H1, H2, H3, A4, T4. auto.
  - unfold APIClient.cache_hit. cbn [APIClient.is_GET String.eqb Ascii.eqb Bool.eqb].
    rewrite C4, C3, Hcached, K4, K3. cbn [ce_timestamp ce_data].
    destruct (Z.ltb_spec (clock w + elapsed login_reply - ts) (Config.CACHE_DURATION c));
      [reflexivity | lia].
Qed.

(** X16. When the login endpoint has answered with a token and the call
    for the profile then fails, the new token stays where [handleLogin]
    put it: in storage and in the application, while the current user is
    the one from before. *)
Theorem token_outlives_failed_profile_call
    writable login_reply me_reply w ee pe status text response t :
  dom w !! "loginEmail" = Some ee ->
  validateEmail (Js.trim (el_value ee)) = true ->
  dom w !! "loginPassword" = Some pe ->
  el_value pe <> EmptyString ->
  is_Some (dom w !! "statusMessage") ->
  Config.RATE_LIMIT c !! "general" = None ->
  outcome login_reply = Responds status text (inr response) ->
  response_ok status = true ->
  Js.prop "access_token" response = Some (Js.JStr t) ->
  cache w !! APIClient.cacheKey "GET" (Config.getEndpoint c "/auth/me") APIClient.DNull = None ->
  fails me_reply = true ->
  let w' := world_after (handleLogin c writable login_reply me_reply) w in
  ls_token (storage w') = Some t /\ authToken w' = Some t /\ currentUser w' = currentUser w.
Proof.
  intros He Hvalid Hp Hpw Hst Hgen Hout Hok Htok Hcached Hfail.
  cbv zeta. unfold world_after.
  destruct (handleLogin_token writable login_reply me_reply w ee pe status text response t)
    as (w3 & -> & K3 & C3 & A3 & T3' & U3 & _); try assumption.
  rewrite try_catch_bind. unfold APIClient.get.
  cbn [APIClient.query_string map Js.join String.eqb].
  destruct (request_fails_on_miss c "GET" "/auth/me" APIClient.DNull ∅ me_reply w3 Hfail)
    as [e He'].
  { unfold APIClient.cache_hit. now rewrite C3, Hcached. }
  pose proof (session_request c "GET" "/auth/me" APIClient.DNull ∅ me_reply w3) as (S1 & S2 & S3).
  destruct (APIClient.request c "GET" "/auth/me" APIClient.DNull ∅ me_reply w3)
    as [[e' | u] w4]; cbn [fst snd] in *; [| discriminate].
  destruct (session_handle c writable e' "Login failed" true w4) as (H1 & H2 & H3).
  rewrite H1, H2, H3, S1, S2, S3. auto.
Qed.

End SignedIn.

(** ** Forms *)

Section Forms.

Import TravelMateApp.

Variable c : Config.t.

(** X17. Signing up stops at the form when the name, trimmed, has
    fewer than two characters or the password fewer than six: nothing is
    sent, no budget of the limiter is spent, nothing is logged, and the
    status line shows an error. *)
Theorem short_name_or_password_stops_registration writable reply w ne ee pe st :
  dom w !! "registerName" = Some ne ->
  dom w !! "registerEmail" = Some ee ->
  dom w !! "registerPassword" = Some pe ->
  dom w !! "statusMessage" = Some st ->
  (String.length (Js.trim (el_value ne)) <? 2)%nat || negb (validatePassword (el_value pe))
  = true ->
  let r := handleRegister c writable reply w in
  r.1 = inr tt /\ net_log r.2 = net_log w /\ storage r.2 = storage w /\
  errorLog r.2 = errorLog w /\
  exists e, dom r.2 !! "statusMessage" = Some e /\ el_classes e = ["status-message"; "error"; "show"].
Proof.
  intros Hn He Hp Hst Hshort. cbv zeta. unfold handleRegister.
  rewrite run_bind, input_value_run, Hn. cbn [fst snd].
  rewrite run_bind, input_value_run, He. cbn [fst snd].
  rewrite run_bind, input_value_run, Hp. cbn [fst snd].
  assert (forall message,
            let r := showStatus message "error" w in
            r.1 = inr tt /\ net_log r.2 = net_log w /\ storage r.2 = storage w /\
            errorLog r.2 = errorLog w /\
            exists e, dom r.2 !! "statusMessage" = Some e /\
                      el_classes e = ["status-message"; "error"; "show"]) as Hshow.
  { intros message. cbv zeta. rewrite showStatus_run, Hst. cbn [fst snd].
    destruct w; cbn. repeat split. eexists. split; [apply lookup_insert_eq | reflexivity]. }
  destruct (String.length (Js.trim (el_value ne)) <? 2)%nat; [apply Hshow |].
  destruct (negb (validateEmail (Js.trim (el_value ee)))); [apply Hshow |].
  cbn [orb] in Hshort. rewrite Hshort. apply Hshow.
Qed.

(** X18. Closing the sign-in dialog a second time changes nothing, and
    [closeAuthModal] never throws. *)
Theorem closing_twice_is_closing_once w :
  (closeAuthModal w).1 = inr tt /\ closeAuthModal (closeAuthModal w).2 = closeAuthModal w.
Proof.
  unfold closeAuthModal, getElementById.
  rewrite run_bind, run_gets. cbn [fst snd].
  destruct (dom w !! "authModal") as [m |] eqn:Hm.
  - destruct (class_contains "active" m) eqn:Hact; cbn [negb].
    + rewrite run_bind, set_prop_run, Hm. cbn [fst snd].
      unfold set_prop_all. rewrite run_bind, run_modify. cbn [fst snd].
      rewrite run_modify. cbn [fst snd]. split; [reflexivity |].
      rewrite run_bind, run_gets. cbn [fst snd].
      match goal with |- context [dom ?w0 !! "authModal"] =>
        assert (dom w0 !! "authModal"
                = Some ((fun e => if el_modal_input e then el_set_value EmptyString e else e)
                          (class_remove "active" m))) as ->
      end.
      { destruct w; cbn. now rewrite lookup_fmap, lookup_insert_eq. }
      assert (forall e, class_contains "active" e = class_contains "active" (el_set_value EmptyString e))
        as Hval by reflexivity.
      assert (class_contains "active" (class_remove "active" m) = false) as Hoff.
      { unfold class_contains, class_remove. cbn. apply bool_decide_eq_false.
        intros Hin. apply list_elem_of_filter in Hin. now destruct Hin. }
      destruct (el_modal_input (class_remove "active" m)); rewrite <- ?Hval, Hoff; reflexivity.
    + split; [reflexivity |]. rewrite run_ret. cbn [fst snd].
      rewrite run_bind, run_gets. cbn [fst snd]. now rewrite Hm, Hact.
  - split; [reflexivity |]. rewrite run_ret. cbn [fst snd].
    rewrite run_bind, run_gets. cbn [fst snd]. now rewrite Hm.
Qed.

(** X19. Closing the open sign-in dialog erases what was typed into
    it: afterwards every input of the dialog is empty, the password fields
    included, and the dialog is back in sign-in mode. *)
Theorem closing_the_dialog_wipes_the_form w m :
  dom w !! "authModal" = Some m ->
  class_contains "active" m = true ->
  let w' := (closeAuthModal w).2 in
  map_Forall (fun _ e => el_modal_input e = true -> el_value e = EmptyString) (dom w') /\
  Forall (fun e => el_modal_input e = true -> el_value e = EmptyString) (anon w') /\
  isAuthMode w' = "login".
Proof.
  intros Hm Hact. cbv zeta. unfold closeAuthModal, getElementById.
  rewrite run_bind, run_gets. cbn [fst snd]. rewrite Hm, Hact. cbn [negb].
  rewrite run_bind, set_prop_run, Hm. cbn [fst snd].
  unfold set_prop_all. rewrite run_bind, run_modify. cbn [fst snd].
  rewrite run_modify. cbn [fst snd].
  destruct w; cbn. repeat split.
  - intros id e He. rewrite lookup_fmap in He.
    destruct (_ !! id) as [e0 |]; [| discriminate]. cbn in He. injection He as <-.
    destruct (el_modal_input e0) eqn:Hin; [reflexivity | now rewrite Hin].
  - apply Forall_forall. intros e He. apply list_elem_of_fmap in He as (e0 & -> & _).
    destruct (el_modal_input e0) eqn:Hin; [reflexivity | now rewrite Hin].
Qed.

End Forms.

(** ** End points of the route *)

Section EndPoints.

Import TravelMateApp RoutePoints.

(** What [setStartPoint] makes of the map and of the end points; the
    updates of the page come after and leave these alone. *)
Lemma setStartPoint_map lat lng w :
  let w' := (setStartPoint lat lng w).2 in
  startPoint w' = Some (LatLng lat lng) /\ endPoint w' = endPoint w /\
  routeStartMarker w' = Some (S (last_stamp w)) /\
  layers w' = <[S (last_stamp w) := Layer Marker [(lat, lng)] start_icon None]>
                (match routeStartMarker w with
                 | Some old => base.delete old (layers w)
                 | None => layers w
                 end) /\
  currentUser w' = currentUser w /\ net_log w' = net_log w /\ storage w' = storage w.
Proof.
  unfold setStartPoint.
  rewrite run_bind, run_modify. cbn [fst snd]. rewrite run_bind, run_gets. cbn [fst snd].
  rewrite run_bind.
  assert (forall w0, L.removeLayer_opt (routeStartMarker w) w0
                     = (inr tt, set_layers (match routeStartMarker w with
                                            | Some old => base.delete old (layers w0)
                                            | None => layers w0
                                            end) w0)) as Hrm.
  { intros w0. destruct (routeStartMarker w); [reflexivity |].
    unfold L.removeLayer_opt. rewrite run_ret. now rewrite set_layers_same. }
  assert (routeStartMarker (set_startPoint (Some (LatLng lat lng)) w) = routeStartMarker w)
    as -> by now destruct w.
  rewrite Hrm. cbn [fst snd]. rewrite run_bind. unfold L.addTo. cbn [fst snd].
  rewrite run_bind, run_modify. cbn [fst snd].
  match goal with |- context [(?m ?w0).2] =>
    assert (touches_ui_only m) as Hui
      by (unfold updateCreateRouteButton, checkRouteReady; repeat ui_step);
    destruct (ui_only_map _ _ (Hui w0)) as (M1 & _ & M3 & M4 & M5 & _ & _);
    destruct (ui_only_session _ _ (Hui w0)) as (S1 & _ & S3 & S4 & _)
  end.
  cbv zeta. rewrite M1, M3, M4, M5, S1, S3, S4.
  destruct w; cbn. repeat split.
Qed.

Lemma clearStartPoint_map w :
  let w' := (clearStartPoint w).2 in
  startPoint w' = None /\ endPoint w' = endPoint w /\
  routeStartMarker w' = None /\ routeEndMarker w' = routeEndMarker w /\ routeLine w' = None /\
  layers w' = SignedOut.without_layer (routeLine w)
                (SignedOut.without_layer (routeStartMarker w) (layers w)).
Proof.
  unfold clearStartPoint.
  rewrite run_bind, run_gets. cbn [fst snd]. rewrite run_bind.
  assert (forall w0 : world,
            (match routeStartMarker w with
             | Some id => L.removeLayer id ;; modify (set_routeStartMarker None)
             | None => mret tt
             end) w0
            = (inr tt, match routeStartMarker w with
                       | Some id => set_routeStartMarker None
                                      (set_layers (base.delete id (layers w0)) w0)
                       | None => w0
                       end)) as Hrm
    by (intros w0; now destruct (routeStartMarker w)).
  rewrite Hrm. cbn [fst snd]. rewrite run_bind, clear_route_line_run. cbn [fst snd].
  rewrite run_bind, run_modify. cbn [fst snd].
  match goal with |- context [(?m ?w0).2] =>
    assert (touches_ui_only m) as Hui
      by (unfold checkRouteReady; repeat ui_step);
    destruct (ui_only_map _ _ (Hui w0)) as (M1 & _ & M3 & M4 & M5 & M6 & M7)
  end.
  cbv zeta. rewrite M1, M3, M4, M5, M6, M7.
  unfold SignedOut.without_layer.
  destruct w as [? ? ? ? ? ? ? ? ? ? ? ? ? ? ? [a |] ? [l |] ? ? ?]; cbn; repeat split.
Qed.

(** X20. The map never shows two start markers. If every marker with
    the start icon that is on the map is the one the application holds as
    its start marker, the same is true after [setStartPoint] and after
    [clearStartPoint], whether they run to their end or stop at a missing
    element of the page. *)
Theorem at_most_one_start_marker lat lng w :
  start_marker_unique w ->
  start_marker_unique (world_after (setStartPoint lat lng) w) /\
  start_marker_unique (world_after clearStartPoint w).
Proof.
  unfold start_marker_unique, world_after. intros Hinv. split.
  - destruct (setStartPoint_map lat lng w) as (_ & _ & Hm & Hl & _).
    cbv zeta in Hm, Hl. rewrite Hm, Hl. intros k l Hk Hicon.
    destruct (decide (k = S (last_stamp w))) as [-> | Hne]; [reflexivity |].
    rewrite lookup_insert_ne in Hk by congruence.
    destruct (routeStartMarker w) as [old |] eqn:Hold.
    + destruct (decide (k = old)) as [-> | Hko].
      * rewrite lookup_delete_eq in Hk. discriminate.
      * rewrite lookup_delete_ne in Hk by congruence.
        specialize (Hinv k l Hk Hicon). congruence.
    + specialize (Hinv k l Hk Hicon). discriminate.
  - destruct (clearStartPoint_map w) as (_ & _ & Hm & _ & _ & Hl).
    cbv zeta in Hm, Hl. rewrite Hm, Hl. intros k l Hk Hicon. exfalso.
    unfold SignedOut.without_layer in Hk.
    assert (exists l', layers w !! k = Some l' /\ l' = l /\ routeStartMarker w <> Some k)
      as (l' & Hk' & -> & Hnot).
    { destruct (routeLine w) as [line |], (routeStartMarker w) as [old |];
        repeat match type of Hk with
               | base.delete ?i _ !! k = Some _ =>
                   destruct (decide (k = i)) as [-> | ?];
                   [rewrite lookup_delete_eq in Hk; discriminate
                   | rewrite lookup_delete_ne in Hk by congruence]
               end; exists l; repeat split; congruence. }
    exact (Hnot (Hinv k l Hk' Hicon)).
Qed.

Lemma not_ready_disabled (d : gmap string element) :
  is_Some (d !! "createRouteBtn") -> is_Some (d !! "realRouteBtn") ->
  el_disabled <$> SignedOut.not_ready_dom d !! "createRouteBtn" = Some true /\
  el_disabled <$> SignedOut.not_ready_dom d !! "realRouteBtn" = Some true.
Proof.
  intros [cb Hcb] [rb Hrb]. unfold SignedOut.not_ready_dom.
  rewrite lookup_alter_ne, !lookup_alter_eq by discriminate.
  rewrite lookup_alter_ne by discriminate. now rewrite Hcb, Hrb.
Qed.

(** The page once an end point has been removed. *)
Lemma end_point_removed message w :
  both_points_set w = false ->
  is_Some (dom w !! "statusMessage") ->
  is_Some (dom w !! "createRouteBtn") ->
  is_Some (dom w !! "realRouteBtn") ->
  let r := (showStatus message "info" ;; checkRouteReady) w in
  r.1 = inr tt /\ ui_only w r.2 /\
  el_disabled <$> dom r.2 !! "createRouteBtn" = Some true /\
  el_disabled <$> dom r.2 !! "realRouteBtn" = Some true.
Proof.
  intros Hnot Hst Hcb Hrb. cbv zeta.
  assert (touches_ui_only (showStatus message "info" ;; checkRouteReady)) as Hui
    by (unfold checkRouteReady; repeat ui_step).
  split; [| split; [apply Hui |]];
    rewrite run_bind, showStatus_alter by exact Hst; cbn [fst snd];
    (rewrite checkRouteReady_not_ready;
     [| now destruct w
      | cbn [dom set_dom]; now rewrite status_dom_is_Some
      | cbn [dom set_dom]; now rewrite status_dom_is_Some]).
  - reflexivity.
  - cbn [snd dom set_dom].
    apply not_ready_disabled; now rewrite status_dom_is_Some.
Qed.

Lemma clearStartPoint_split w :
  clearStartPoint w
  = (showStatus "Start point removed" "info" ;; checkRouteReady)
      (set_startPoint None
         (set_routeLine None
            (set_layers (SignedOut.without_layer (routeLine w)
                           (SignedOut.without_layer (routeStartMarker w) (layers w)))
               (set_routeStartMarker None w)))).
Proof.
  unfold clearStartPoint, Features.clear_route_line, L.removeLayer.
  destruct w as [? ? ? ? ? ? ? ? ? ? ? ? ? ? ? [a |] ? [l |] ? ? ?];
    repeat (rewrite ?run_bind, ?run_gets, ?run_modify, ?run_ret; cbn [fst snd]);
    reflexivity.
Qed.

Lemma clearEndPoint_split w :
  clearEndPoint w
  = (showStatus "End point removed" "info" ;; checkRouteReady)
      (set_endPoint None
         (set_routeLine None
            (set_layers (SignedOut.without_layer (routeLine w)
                           (SignedOut.without_layer (routeEndMarker w) (layers w)))
               (set_routeEndMarker None w)))).
Proof.
  unfold clearEndPoint, Features.clear_route_line, L.removeLayer.
  destruct w as [? ? ? ? ? ? ? ? ? ? ? ? ? ? ? ? [b |] [l |] ? ? ?];
    repeat (rewrite ?run_bind, ?run_gets, ?run_modify, ?run_ret; cbn [fst snd]);
    reflexivity.
Qed.

(** X21. Removing one end point takes the drawn line with it. After
    [clearStartPoint] the start point, its marker and the line are gone
    from the application and from the map, the end point and its marker
    are as before, and with the status line and the two route buttons in
    the page both buttons are disabled. [clearEndPoint] does the same with
    the roles exchanged. *)
Theorem removing_an_end_point_removes_the_line w :
  is_Some (dom w !! "statusMessage") ->
  is_Some (dom w !! "createRouteBtn") ->
  is_Some (dom w !! "realRouteBtn") ->
  let a := clearStartPoint w in
  let b := clearEndPoint w in
  (a.1 = inr tt /\ startPoint a.2 = None /\ routeStartMarker a.2 = None /\
   routeLine a.2 = None /\ endPoint a.2 = endPoint w /\
   routeEndMarker a.2 = routeEndMarker w /\
   layers a.2 = SignedOut.without_layer (routeLine w)
                  (SignedOut.without_layer (routeStartMarker w) (layers w)) /\
   el_disabled <$> dom a.2 !! "createRouteBtn" = Some true /\
   el_disabled <$> dom a.2 !! "realRouteBtn" = Some true) /\
  (b.1 = inr tt /\ endPoint b.2 = None /\ routeEndMarker b.2 = None /\
   routeLine b.2 = None /\ startPoint b.2 = startPoint w /\
   routeStartMarker b.2 = routeStartMarker w /\
   layers b.2 = SignedOut.without_layer (routeLine w)
                  (SignedOut.without_layer (routeEndMarker w) (layers w)) /\
   el_disabled <$> dom b.2 !! "createRouteBtn" = Some true /\
   el_disabled <$> dom b.2 !! "realRouteBtn" = Some true).
Proof.
  intros Hst Hcb Hrb. cbv zeta. split.
  - rewrite clearStartPoint_split.
    match goal with |- context [(_ ?w0).1] => set (w2 := w0) end.
    destruct (end_point_removed "Start point removed" w2) as (R & Hui & B1 & B2);
      try (subst w2; now destruct w).
    destruct (ui_only_map _ _ Hui) as (M1 & _ & M3 & M4 & M5 & M6 & M7).
    rewrite R, B1, B2, M1, M3, M4, M5, M6, M7. subst w2. destruct w. repeat split.
  - rewrite clearEndPoint_split.
    match goal with |- context [(_ ?w0).1] => set (w2 := w0) end.
    destruct (end_point_removed "End point removed" w2) as (R & Hui & B1 & B2);
      try (subst w2; destruct w as [? ? ? ? ? ? ? ? ? ? ? ? ? [s |] ? ? ? ? ? ? ?]; easy).
    destruct (ui_only_map _ _ Hui) as (M1 & _ & M3 & M4 & M5 & M6 & M7).
    rewrite R, B1, B2, M1, M3, M4, M5, M6, M7. subst w2. destruct w. repeat split.
Qed.

End EndPoints.

(** ** Routes and search *)

Lemma showAuthModal_frame mode w :
  let w' := (TravelMateApp.showAuthModal mode w).2 in
  net_log w' = net_log w /\ storage w' = storage w /\ cache w' = cache w /\
  errorLog w' = errorLog w /\ layers w' = layers w /\ markers w' = markers w /\
  currentUser w' = currentUser w.
Proof.
  unfold TravelMateApp.showAuthModal.
  rewrite run_bind, run_modify. cbn [fst snd].
  set (w0 := set_isAuthMode mode w).
  assert (net_log w0 = net_log w /\ storage w0 = storage w /\ cache w0 = cache w /\
          errorLog w0 = errorLog w /\ layers w0 = layers w /\ markers w0 = markers w /\
          currentUser w0 = currentUser w) as (E1 & E2 & E3 & E4 & E5 & E6 & E7)
    by (subst w0; destruct w; repeat split).
  match goal with |- context [(?m w0).2] =>
    assert (touches_ui_only m) as Hui
  end.
  { apply ui_bind; [apply ui_gets | intros ok].
    destruct (negb ok); [apply ui_ret |].
    destruct (String.eqb mode "login"); repeat ui_step. }
  pose proof (Hui w0) as Hu.
  destruct (ui_only_map _ _ Hu) as (M1 & M2 & _).
  destruct (ui_only_page _ _ Hu) as (_ & P2 & P3 & _ & P5 & _ & P7 & P8).
  cbv zeta. rewrite M1, M2, P2, P3, P5, P7, P8. repeat split; assumption.
Qed.

Lemma showStatus_frame message type w :
  let r := showStatus message type w in
  r.1 = (if bool_decide (is_Some (dom w !! "statusMessage"))
         then inr tt else inl (null_error "statusMessage")) /\
  net_log r.2 = net_log w /\ storage r.2 = storage w /\ cache r.2 = cache w /\
  errorLog r.2 = errorLog w /\ layers r.2 = layers w /\ markers r.2 = markers w /\
  currentUser r.2 = currentUser w /\
  el_text <$> dom r.2 !! "statusMessage"
  = (if bool_decide (is_Some (dom w !! "statusMessage")) then Some message else None).
Proof.
  cbv zeta. rewrite showStatus_run.
  destruct (dom w !! "statusMessage") as [e |] eqn:He.
  - rewrite bool_decide_eq_true_2 by eauto. cbn [fst snd].
    destruct w; cbn in *. rewrite lookup_insert_eq. repeat split.
  - rewrite bool_decide_eq_false_2 by (intros [? ?]; discriminate). cbn [fst snd].
    rewrite He. repeat split.
Qed.

Section Router.

Import TravelMateApp Features.

Variable c : Config.t.

(** X22. A point picked from the context menu of the map is not one
    the router takes. [setStartPoint] and [setEndPoint] store
    [{lat, lng}], and [calculateRealRoute] asks for [latitude]: once
    either setter has run, the calculation of a signed-in user stops at
    'Please set both start and end points first' and no request is made. *)
Theorem router_refuses_map_points writable reply lat lng w :
  MapPlacesManager.user_signed_in w = true ->
  let picked := [world_after (setStartPoint lat lng) w; world_after (setEndPoint lat lng) w] in
  Forall
    (fun w1 =>
       let r := calculateRealRoute c writable reply w1 in
       net_log r.2 = net_log w /\ storage r.2 = storage w /\ cache r.2 = cache w /\
       el_text <$> dom r.2 !! "statusMessage"
       = (if bool_decide (is_Some (dom w1 !! "statusMessage"))
          then Some "Please set both start and end points first" else None))
    picked.
Proof.
  intros Hu. cbv zeta.
  assert (forall w1,
            MapPlacesManager.user_signed_in w1 = true ->
            coordinates_of (startPoint w1) = None \/ coordinates_of (endPoint w1) = None ->
            calculateRealRoute c writable reply w1
            = showStatus "Please set both start and end points first" "error" w1) as Hstop.
  { intros w1 Hu1 Hpt. unfold calculateRealRoute.
    rewrite run_bind, run_gets, Hu1. cbn [fst snd negb].
    rewrite run_bind, run_gets. cbn [fst snd]. rewrite run_bind, run_gets. cbn [fst snd].
    destruct Hpt as [-> | ->]; [reflexivity |].
    now destruct (coordinates_of (startPoint w1)). }
  assert (forall (m : M unit) w1,
            w1 = (m w).2 -> touches_page_only m ->
            coordinates_of (startPoint w1) = None \/ coordinates_of (endPoint w1) = None ->
            let r := calculateRealRoute c writable reply w1 in
            net_log r.2 = net_log w /\ storage r.2 = storage w /\ cache r.2 = cache w /\
            el_text <$> dom r.2 !! "statusMessage"
            = (if bool_decide (is_Some (dom w1 !! "statusMessage"))
               then Some "Please set both start and end points first" else None)) as Hall.
  { intros m w1 -> Hpage Hpt. cbv zeta.
    destruct (Hpage w) as (_ & P2 & P3 & _ & P5 & _ & _ & P8).
    rewrite Hstop; [| unfold MapPlacesManager.user_signed_in in *; now rewrite P5 | exact Hpt].
    destruct (showStatus_frame "Please set both start and end points first" "error" (m w).2)
      as (_ & F1 & F2 & F3 & _ & _ & _ & _ & F8).
    cbv zeta in *. rewrite F1, F2, F3, F8, P2, P3, P8. repeat split. }
  constructor; [| constructor; [| constructor]].
  - apply (Hall (setStartPoint lat lng)); [reflexivity | |].
    + unfold setStartPoint, updateCreateRouteButton. repeat page_step.
    + left. unfold world_after.
      destruct (setStartPoint_map lat lng w) as (-> & _). reflexivity.
  - apply (Hall (setEndPoint lat lng)); [reflexivity | |].
    + unfold setEndPoint, updateCreateRouteButton. repeat page_step.
    + right. unfold world_after, setEndPoint.
      rewrite run_bind, run_modify. cbn [fst snd].
      match goal with |- context [(?m ?w0).2] =>
        assert (endPoint (m w0).2 = endPoint w0) as ->
      end; [| now destruct w].
      rewrite run_bind, run_gets. cbn [fst snd].
      rewrite run_bind.
      match goal with |- context [L.removeLayer_opt ?o ?w0] =>
        assert (exists w1, L.removeLayer_opt o w0 = (inr tt, w1) /\ endPoint w1 = endPoint w0)
          as (w1 & -> & <-)
          by (destruct o; eexists; (split; [reflexivity |]); now destruct w)
      end.
      cbn [fst snd]. rewrite run_bind. unfold L.addTo. cbn [fst snd].
      rewrite run_bind, run_modify. cbn [fst snd].
      match goal with |- context [(?m ?w0).2] =>
        assert (touches_ui_only m) as Hui
          by (unfold updateCreateRouteButton, checkRouteReady; repeat ui_step);
        destruct (ui_only_map _ _ (Hui w0)) as (_ & _ & _ & -> & _)
      end.
      now destruct w1.
Qed.

End Router.

(** What an error handled on the way adds to the network log. *)
Lemma handle_sends c writable error context showToUser w :
  exists extra,
    net_log (ErrorHandler.handle c writable error context showToUser w).2
    = (net_log w ++ extra)%list.
Proof.
  unfold ErrorHandler.handle, ErrorHandler.log, ErrorHandler.showUserFriendlyError,
    ErrorHandler.reportError, send, when_, Date_now.
  repeat (rewrite ?run_bind, ?run_gets, ?run_modify, ?run_ret, ?showStatus_run; cbn [fst snd]).
  destruct writable, showToUser, (ErrorHandler.is_production c);
    repeat (rewrite ?run_bind, ?run_gets, ?run_modify, ?run_ret, ?showStatus_run;
            cbn [fst snd]);
    destruct w as [? ? ? d ? ? ? ? ? ? ? ? ? ? ? ? ? ? ? ? ?]; cbn;
    try (destruct (d !! "statusMessage"); cbn);
    first [ now exists [] ; rewrite app_nil_r | eexists; reflexivity
          | exists []; now rewrite app_nil_r ].
Qed.

Lemma try_page_then_handle c writable context (m : M unit) w :
  touches_page_only m ->
  exists extra,
    net_log (try_catch m (fun e => ErrorHandler.handle c writable e context true) w).2
    = (net_log w ++ extra)%list.
Proof.
  intros Hpage. unfold try_catch.
  destruct (Hpage w) as (_ & _ & Hn & _).
  destruct (m w) as [[e | []] w1]; cbn [fst snd] in *.
  - destruct (handle_sends c writable e context true w1) as [extra ->].
    rewrite Hn. eauto.
  - exists []. now rewrite app_nil_r.
Qed.

Section Saving.

Import SavedRoutes.

Variable c : Config.t.

(** X23. A route between two points picked from the context menu is
    saved without coordinates. [createRoute] takes end points of either
    shape; from a point stored as [{lat, lng}] it reads [latitude],
    [longitude] and [name], which are all [undefined], so the body that
    goes to [POST /routes/] carries [{}] for that end point. *)
Theorem route_of_map_points_is_saved_without_coordinates
    writable reply w lat1 lng1 lat2 lng2 name :
  MapPlacesManager.user_signed_in w = true ->
  startPoint w = Some (LatLng lat1 lng1) ->
  endPoint w = Some (LatLng lat2 lng2) ->
  Search.trimmed_value "routeName" w = Some name ->
  (2 <= String.length name)%nat ->
  is_Some (dom w !! "statusMessage") ->
  APIClient.limited c "routes" w = false ->
  let r := createRoute c writable reply w in
  let description := default EmptyString (Search.trimmed_value "routeDescription" w) in
  exists req,
    net_log r.2 !! length (net_log w) = Some req /\
    fr_url req = Config.getEndpoint c "/routes/" /\
    fr_method req = "POST" /\
    fr_body req
    = SentText (Js.stringify
                  (Js.JObj [("name", Js.JStr name); ("description", Js.JStr description);
                            ("start_point", Js.JObj []); ("end_point", Js.JObj [])])).
Proof.
  intros Hu Hs He Hn Hlen Hst Hlim. cbv zeta. unfold createRoute.
  rewrite run_bind, run_gets, Hu. cbn [fst snd negb].
  rewrite run_bind, run_gets, Hs. cbn [fst snd].
  rewrite run_bind, run_gets, He. cbn [fst snd].
  rewrite run_bind, run_gets, Hn. cbn [fst snd].
  rewrite run_bind, run_gets. cbn [fst snd].
  destruct (String.eqb_spec name EmptyString) as [-> | _]; [cbn in Hlen; lia |].
  destruct (Nat.ltb_spec (String.length name) 2) as [? | _]; [lia |].
  rewrite try_catch_bind, showStatus_alter by exact Hst.
  match goal with |- context [try_catch _ _ ?w0] => set (w1 := w0) end.
  assert (net_log w1 = net_log w /\ APIClient.limited c "routes" w1 = false)
    as [Hn1 Hlim1] by (subst w1; destruct w; split; [reflexivity | exact Hlim]).
  rewrite try_catch_bind. unfold APIClient.post.
  set (d := APIClient.DValue _).
  pose proof (request_passed c "POST" "/routes/" d ∅ reply w1 Hlim1) as Hpass.
  pose proof (serve_miss c "POST" "/routes/" d ∅ reply
                (set_storage
                   (RateLimit.checkRateLimit c (APIClient.getOperationType "/routes/")
                      (clock w1) (storage w1)).2 w1) eq_refl) as Hlog.
  rewrite <- Hpass in Hlog.
  assert (net_log (set_storage
                     (RateLimit.checkRateLimit c (APIClient.getOperationType "/routes/")
                        (clock w1) (storage w1)).2 w1) = net_log w) as Hsame
    by (rewrite <- Hn1; now destruct w1).
  rewrite Hsame in Hlog. clear Hpass Hsame.
  match type of Hlog with _ = (_ ++ [?q])%list => set (req := q) in * end.
  assert (forall extra, ((net_log w ++ [req]) ++ extra)%list !! length (net_log w) = Some req)
    as Hat.
  { intros extra. rewrite <- app_assoc. now apply list_lookup_middle. }
  exists req.
  split; [| subst req d; unfold routeData; cbn; repeat split].
  destruct (APIClient.request c "POST" "/routes/" d ∅ reply w1) as [[e | saved] w2];
    cbn [fst snd] in *.
  - destruct (handle_sends c writable e "Failed to save route" true w2) as [extra ->].
    rewrite Hlog. apply Hat.
  - match goal with |- context [try_catch ?m _ w2] =>
      destruct (try_page_then_handle c writable "Failed to save route" m w2) as [extra ->]
    end.
    + destruct saved; repeat page_step.
    + rewrite Hlog. apply Hat.
Qed.

End Saving.

Lemma foldl_delete_gone (ids : list nat) (m : gmap nat layer) (k : nat) :
  k ∈ ids \/ m !! k = None -> foldl (fun m id => base.delete id m) m ids !! k = None.
Proof.
  revert m. induction ids as [| id ids IH]; intros m [Hin | Hno]; cbn [foldl].
  - now apply elem_of_nil in Hin.
  - exact Hno.
  - apply IH. apply elem_of_cons in Hin as [-> | Hin]; [right; apply lookup_delete_eq | now left].
  - apply IH. right. rewrite lookup_delete_None. now right.
Qed.

(** The layers [clearRouteDisplay] and [clearMap] leave, however far they
    get with the page. *)
Lemma clearRouteDisplay_layers w :
  layers (TravelMateApp.clearRouteDisplay w).2
  = SignedOut.without_layer (routeLine w)
      (SignedOut.without_layer (routeEndMarker w)
         (SignedOut.without_layer (routeStartMarker w) (layers w))).
Proof.
  unfold TravelMateApp.clearRouteDisplay, L.removeLayer_opt, L.removeLayer.
  destruct w as [? ? ? ? ? ? ly ? ? ? ? ? ? ? ? [a |] [b |] [l |] ? ? ?];
    repeat (repeat (rewrite ?run_bind, ?run_gets, ?run_modify, ?run_ret; cbn [fst snd]);
            cbn -[TravelMateApp.checkRouteReady]);
    match goal with |- context [TravelMateApp.checkRouteReady ?w0] =>
      assert (touches_ui_only TravelMateApp.checkRouteReady) as Hui
        by (unfold TravelMateApp.checkRouteReady; repeat ui_step);
      destruct (ui_only_map _ _ (Hui w0)) as (-> & _)
    end; reflexivity.
Qed.

Lemma clearMap_layers w :
  layers (TravelMateApp.clearMap w).2
  = SignedOut.without_layer (routeLine w)
      (SignedOut.without_layer (routeEndMarker w)
         (SignedOut.without_layer (routeStartMarker w)
            (foldl (fun m id => base.delete id m) (layers w) (markers w)))).
Proof.
  unfold TravelMateApp.clearMap.
  rewrite run_bind, run_gets. cbn [fst snd].
  rewrite run_bind, forEach_removeLayer. cbn [fst snd].
  rewrite run_bind, run_modify. cbn [fst snd].
  match goal with |- context [mbind _ _ ?w0] => set (w3 := w0) end.
  pose proof (clearRouteDisplay_layers w3) as Hl.
  rewrite run_bind.
  destruct (TravelMateApp.clearRouteDisplay w3) as [[e | []] w4]; cbn [fst snd] in *.
  - rewrite Hl. subst w3. now destruct w.
  - destruct (showStatus_frame "Map cleared" "info" w4) as (_ & _ & _ & _ & _ & -> & _).
    rewrite Hl. subst w3. now destruct w.
Qed.

Section Searching.

Import Search.

Variable c : Config.t.

(** X24. A search that cannot be made is not sent. For a guest, for an
    empty search box and for a query of one character, [searchPlace]
    stops before the API client: no request, no budget of the limiter
    spent, nothing cached, and the map as it was. *)
Theorem short_query_is_not_searched writable encodeURIComponent reply w :
  negb (MapPlacesManager.user_signed_in w)
  || match trimmed_value "searchInput" w with
     | Some query => (String.length query <? 2)%nat
     | None => true
     end = true ->
  let r := searchPlace c writable encodeURIComponent reply w in
  net_log r.2 = net_log w /\ storage r.2 = storage w /\ cache r.2 = cache w /\
  layers r.2 = layers w /\ markers r.2 = markers w.
Proof.
  intros Hshort. cbv zeta. unfold searchPlace.
  rewrite run_bind, run_gets. cbn [fst snd].
  destruct (MapPlacesManager.user_signed_in w); cbn [negb orb] in *.
  - rewrite run_bind, run_gets. cbn [fst snd].
    assert (forall message,
              let r := showStatus message "error" w in
              net_log r.2 = net_log w /\ storage r.2 = storage w /\ cache r.2 = cache w /\
              layers r.2 = layers w /\ markers r.2 = markers w) as Hshow.
    { intros message.
      destruct (showStatus_frame message "error" w) as (_ & F1 & F2 & F3 & _ & F5 & F6 & _).
      cbv zeta in *. auto. }
    destruct (trimmed_value "searchInput" w) as [query |]; [| apply Hshow].
    destruct (String.eqb query EmptyString); [apply Hshow |].
    rewrite Hshort. apply Hshow.
  - destruct (showAuthModal_frame "login" w) as (F1 & F2 & F3 & _ & F5 & F6 & _).
    cbv zeta in *. auto.
Qed.

(** X25. What a search finds is cleared with the map. When the search
    endpoint answers with a list whose first entry has numeric
    coordinates, [searchPlace] puts one marker on the map, at that entry
    and at no other, registers it with the markers of the application and
    names the place in the status line; [clearMap] then takes it off the
    map again. *)
Theorem found_place_is_cleared_with_the_map
    writable encodeURIComponent reply w query results first others lat lng :
  MapPlacesManager.user_signed_in w = true ->
  trimmed_value "searchInput" w = Some query ->
  (2 <= String.length query)%nat ->
  is_Some (dom w !! "statusMessage") ->
  (APIClient.get c "/locations/search"
     [("query", encodeURIComponent query); ("limit", "5")] reply
     (showStatus "Searching..." "info" w).2).1 = inr results ->
  Js.prop "results" results = Some (Js.JArr (first :: others)) ->
  Js.prop "latitude" first = Some (Js.JNum lat) ->
  Js.prop "longitude" first = Some (Js.JNum lng) ->
  let r := searchPlace c writable encodeURIComponent reply w in
  let id := S (last_stamp w) in
  r.1 = inr tt /\
  layers r.2 = <[id := Layer Marker [(lat, lng)] EmptyString None]> (layers w) /\
  markers r.2 = (markers w ++ [id])%list /\
  el_text <$> dom r.2 !! "statusMessage"
  = Some ("Found: " ++ Js.to_string (Js.prop "display_name" first)) /\
  layers (TravelMateApp.clearMap r.2).2 !! id = None.
Proof.
  intros Hu Hq Hlen Hst Hget Hres Hlat Hlng. cbv zeta.
  assert (let r := searchPlace c writable encodeURIComponent reply w in
          r.1 = inr tt /\
          layers r.2 = <[S (last_stamp w) := Layer Marker [(lat, lng)] EmptyString None]>
                         (layers w) /\
          markers r.2 = (markers w ++ [S (last_stamp w)])%list /\
          el_text <$> dom r.2 !! "statusMessage"
          = Some ("Found: " ++ Js.to_string (Js.prop "display_name" first))) as Hrun.
  { cbv zeta. unfold searchPlace.
    rewrite run_bind, run_gets, Hu. cbn [fst snd negb].
    rewrite run_bind, run_gets, Hq. cbn [fst snd].
    destruct (String.eqb_spec query EmptyString) as [-> | _]; [cbn in Hlen; lia |].
    destruct (Nat.ltb_spec (String.length query) 2) as [? | _]; [lia |].
    rewrite showStatus_alter in Hget by exact Hst. cbn [snd] in Hget.
    rewrite try_catch_bind, showStatus_alter by exact Hst.
    match goal with |- context [try_catch _ _ ?w0] => set (w1 := w0) in * end.
    rewrite try_catch_bind.
    unfold APIClient.get in *.
    match goal with |- context [APIClient.request c "GET" ?u ?d ?h reply w1] =>
      pose proof (request_frame c "GET" u d h reply w1) as Hframe;
      destruct (APIClient.request c "GET" u d h reply w1) as [res w2]
    end.
    cbn [fst snd] in *. subst res.
    assert (layers w2 = layers w /\ markers w2 = markers w /\ last_stamp w2 = last_stamp w /\
            is_Some (dom w2 !! "statusMessage")) as (L2 & M2 & S2 & D2).
    { rewrite Hframe. subst w1.
      cbn [layers markers last_stamp dom set_dom set_cache set_net_log set_storage set_clock].
      repeat split. now rewrite status_dom_is_Some. }
    assert (result_marker (Some first) = inr (Layer Marker [(lat, lng)] EmptyString None))
      as Hmarker
      by (destruct first; try discriminate Hlat; unfold result_marker; now rewrite Hlat, Hlng).
    assert (show_result results
            = (id ← L.addTo (Layer Marker [(lat, lng)] EmptyString None);
               modify (fun w => set_markers (markers w ++ [id]) w) ;;
               showStatus ("Found: " ++ Js.to_string (Js.prop "display_name" first))
                 "success")) as ->.
    { unfold show_result. destruct results; try discriminate Hres.
      rewrite Hres.
      change (first_result (default Js.JNull (Some (Js.JArr (first :: others)))))
        with (Some first).
      cbn [Features.truthy_opt Js.truthy Features.length_positive default
           length Nat.ltb Nat.leb andb].
      rewrite Hmarker. reflexivity. }
    unfold try_catch. rewrite run_bind. unfold L.addTo. cbn [fst snd].
    rewrite run_bind, run_modify. cbn [fst snd].
    rewrite showStatus_alter; [| cbn [dom set_dom set_markers set_layers set_last_stamp]].
    - cbn [fst snd from_option]. rewrite <- L2, <- M2, <- S2.
      destruct D2 as [e He]. destruct w2; cbn in *.
      unfold SignedOut.status_dom. rewrite lookup_alter_eq, He. repeat split.
    - destruct w2; cbn in *. exact D2. }
  cbv zeta in Hrun. destruct Hrun as (R1 & R2 & R3 & R4).
  repeat split; try assumption.
  rewrite clearMap_layers. unfold SignedOut.without_layer.
  repeat match goal with |- context [match ?o with Some _ => _ | None => _ end] =>
           destruct o end;
    rewrite ?lookup_delete_None; repeat right;
    apply foldl_delete_gone; left; rewrite R3; set_solver.
Qed.

End Searching.

(** ** Places on the map *)

Section Places.

Import MapPlacesManager.

Variable c : Config.t.

(** Adding one marker per place, for either kind of marker. *)
Lemma add_layers_run (mk : place -> layer) (ps : list place) (w : world) :
  exists m,
    forEach ps (fun p => L.addTo (mk p) ;; mret tt) w
    = (inr tt, set_layers m (set_last_stamp (last_stamp w + length ps)%nat w)) /\
    forall k,
      m !! k = if decide (last_stamp w < k <= last_stamp w + length ps)%nat
               then mk <$> ps !! (k - S (last_stamp w))%nat
               else layers w !! k.
Proof.
  revert w. induction ps as [| p ps IH]; intros w.
  - exists (layers w). split.
    + simpl. rewrite run_ret, Nat.add_0_r. now destruct w.
    + intros k. simpl. case_decide; [lia | reflexivity].
  - cbn [forEach]. rewrite run_bind.
    assert ((L.addTo (mk p) ;; mret tt) w
            = (inr tt, set_layers (<[S (last_stamp w) := mk p]> (layers w))
                         (set_last_stamp (S (last_stamp w)) w))) as -> by reflexivity.
    destruct (IH (set_layers (<[S (last_stamp w) := mk p]> (layers w))
                    (set_last_stamp (S (last_stamp w)) w)))
      as (m & Hrun & Hm).
    exists m. split.
    + rewrite Hrun. f_equal. unfold set_layers, set_last_stamp. cbn. f_equal. lia.
    + intros k. rewrite Hm. simpl.
      repeat case_decide; try lia.
      * destruct (decide (k = S (last_stamp w))) as [-> | Hne]; [lia |].
        replace (k - S (last_stamp w))%nat with (S (k - S (S (last_stamp w)))) by lia.
        reflexivity.
      * assert (k = S (last_stamp w)) as -> by lia.
        rewrite lookup_insert_eq, Nat.sub_diag. reflexivity.
      * rewrite lookup_insert_ne by lia. reflexivity.
Qed.

(** X26. A reload that gets no answer it can read wipes nothing. When
    [fetch] rejects, when the status is outside 200..299, or when the body
    is not JSON, the code is in its [catch] before [clearPlaceMarkers] is
    reached: [loadUserPlaces] and [loadPublicPlaces] return normally and
    every layer of the map is where it was, so the markers of the last
    successful load stay. An answer that is read and then turns out not to
    be a list of places the map accepts is another matter and is not
    covered: [loadUserPlaces] has cleared the markers by the time it walks
    the list. *)
Theorem unread_answer_keeps_the_markers (reply : net_reply (list place)) w :
  fails reply = true ->
  let a := loadUserPlaces c reply w in
  let b := loadPublicPlaces c reply w in
  (a.1 = inr tt /\ layers a.2 = layers w /\ last_stamp a.2 = last_stamp w) /\
  (b.1 = inr tt /\ layers b.2 = layers w /\ last_stamp b.2 = last_stamp w).
Proof.
  intros Hfail. cbv zeta. unfold fails in Hfail. split.
  - unfold loadUserPlaces. rewrite run_bind, run_gets. cbn [fst snd].
    destruct (user_signed_in w); cbn [negb]; [| now rewrite run_ret].
    unfold try_catch, fetch, send, tick, show_places.
    repeat (rewrite ?run_bind, ?run_gets, ?run_modify, ?run_ret; cbn [fst snd]).
    destruct (outcome reply) as [e | status text [e | ps]]; cbn [negb orb] in *.
    + destruct w; repeat split.
    + destruct (response_ok status); destruct w; repeat split.
    + destruct (response_ok status); [discriminate |]. destruct w; repeat split.
  - unfold loadPublicPlaces, try_catch, fetch, send, tick.
    repeat (rewrite ?run_bind, ?run_gets, ?run_modify, ?run_ret; cbn [fst snd]).
    destruct (outcome reply) as [e | status text [e | ps]]; cbn [negb orb] in *.
    + destruct w; repeat split.
    + destruct (response_ok status); destruct w; repeat split.
    + destruct (response_ok status); [discriminate |]. destruct w; repeat split.
Qed.

(** X27. Public places are added, never exchanged, and asked for
    without credentials. [loadPublicPlaces] needs no signed-in user; its
    request carries no header; and with the places [ps] fetched, each gets
    a new marker without place data, in order, while every layer that was
    on the map stays. *)
Theorem public_places_are_added (reply : net_reply (list place)) w status text ps :
  outcome reply = Responds status text (inr ps) ->
  response_ok status = true ->
  map_Forall (fun k _ => (k <= last_stamp w)%nat) (layers w) ->
  let r := loadPublicPlaces c reply w in
  r.1 = inr tt /\
  net_log r.2
  = (net_log w ++ [FetchRequest (Config.API_BASE_URL c ++ "/profile/places/public") "GET"
                     ∅ NoBody])%list /\
  last_stamp r.2 = (last_stamp w + length ps)%nat /\
  (forall i p, ps !! i = Some p ->
               layers r.2 !! S (last_stamp w + i) = Some (public_marker p)) /\
  (forall k l, layers w !! k = Some l -> layers r.2 !! k = Some l) /\
  (forall k l, layers r.2 !! k = Some l -> is_place_marker l = true ->
               layers w !! k = Some l).
Proof.
  intros Hout Hok Hfresh. cbv zeta.
  unfold loadPublicPlaces, try_catch, fetch, send, tick.
  repeat (rewrite ?run_bind, ?run_gets, ?run_modify, ?run_ret; cbn [fst snd]).
  rewrite Hout, Hok. cbn [negb].
  match goal with |- context [forEach ps _ ?w2] =>
    destruct (add_layers_run public_marker ps w2) as (m & Hrun & Hm)
  end.
  unfold addPublicPlaceMarker. rewrite Hrun. cbn [fst snd].
  assert (forall k, m !! k
                    = if decide (last_stamp w < k <= last_stamp w + length ps)%nat
                      then public_marker <$> ps !! (k - S (last_stamp w))%nat
                      else layers w !! k) as Hm'
    by (intros k; rewrite Hm; now destruct w).
  clear Hm Hrun.
  destruct w as [? ? ? ? ? ? ly ls ? ? ? ? ? ? ? ? ? ? ? ? ?]; cbn in *.
  repeat split.
  - intros i p Hp. rewrite Hm'.
    pose proof (lookup_lt_Some _ _ _ Hp) as Hlt.
    case_decide as Hrange; [| lia].
    replace (S (ls + i) - S ls)%nat with i by lia. now rewrite Hp.
  - intros k l Hk. rewrite Hm'. case_decide as Hrange; [| exact Hk].
    apply Hfresh in Hk. cbn in Hk. lia.
  - intros k l Hk Hl. rewrite Hm' in Hk. case_decide as Hrange; [| exact Hk].
    destruct (ps !! (k - S ls)%nat) as [p |]; [| discriminate].
    cbn in Hk. injection Hk as <-. discriminate.
Qed.

End Places.

(** ** Starting up *)

Section StartUp.

Import TravelMateApp.

Variable c : Config.t.

(** X28. Without a stored token nothing is validated. When the storage
    holds no token, or an empty one, [checkAuthStatus] makes no request:
    the page goes to guest mode with no user and no token held, and the
    storage is as it was. *)
Theorem no_token_no_validation reply w :
  token_truthy (ls_token (storage w)) = false ->
  let r := checkAuthStatus c reply w in
  net_log r.2 = net_log w /\ storage r.2 = storage w /\
  currentUser r.2 = None /\ authToken r.2 = None.
Proof.
  intros Hno. cbv zeta. unfold checkAuthStatus.
  rewrite try_catch_bind, run_modify.
  set (w1 := set_authToken (ls_token (storage w)) w).
  assert (net_log w1 = net_log w /\ storage w1 = storage w /\
          authToken w1 = ls_token (storage w)) as (N1 & S1 & A1)
    by (subst w1; destruct w; repeat split).
  rewrite try_catch_bind, run_gets, A1, Hno.
  unfold try_catch.
  destruct (showGuestMode_session w1) as (U2 & T2 & S2 & N2 & _).
  destruct (showGuestMode w1) as [[e | []] w2]; cbn [fst snd] in *.
  - destruct (showGuestMode_session w2) as (U3 & T3' & S3 & N3 & _).
    cbv zeta in *. rewrite U3, T3', S3, N3, S2, N2, S1, N1. repeat split.
  - rewrite U2, T2, S2, N2, S1, N1. repeat split.
Qed.

End StartUp.

(** ** Code that only adds to the network log *)

Lemma sends_of_page {A} (m : M A) : touches_page_only m -> only_sends m.
Proof.
  intros H w. destruct (H w) as (_ & _ & -> & _). exists []. now rewrite app_nil_r.
Qed.

Lemma sends_send req : only_sends (send req).
Proof. intros w. unfold send. rewrite run_modify. exists [req]. now destruct w. Qed.

Lemma sends_bind {A B} (m : M A) (f : A -> M B) :
  only_sends m -> (forall a, only_sends (f a)) -> only_sends (m ≫= f).
Proof.
  intros Hm Hf w. rewrite run_bind. destruct (Hm w) as [x Hx].
  destruct (m w) as [[e | a] w1]; cbn [snd] in *; [eauto |].
  destruct (Hf a w1) as [y ->]. rewrite Hx, <- app_assoc. eauto.
Qed.

Lemma sends_try_catch {A} (m : M A) (h : Js.error -> M A) :
  only_sends m -> (forall e, only_sends (h e)) -> only_sends (try_catch m h).
Proof.
  intros Hm Hh w. unfold try_catch. destruct (Hm w) as [x Hx].
  destruct (m w) as [[e | a] w1]; cbn [snd] in *; [| eauto].
  destruct (Hh e w1) as [y ->]. rewrite Hx, <- app_assoc. eauto.
Qed.

Lemma sends_handle c writable error context showToUser :
  only_sends (ErrorHandler.handle c writable error context showToUser).
Proof. intros w. apply handle_sends. Qed.

Section Welcome.

Import TravelMateApp.

Variable c : Config.t.

Lemma sends_welcome writable user :
  only_sends
    (try_catch
       (setAuthenticatedUser c user ;; closeAuthModal ;; showStatus "Welcome back!" "success")
       (fun error => ErrorHandler.handle c writable error "Login failed" true)).
Proof.
  apply sends_try_catch; [| intros e; apply sends_handle].
  apply sends_bind; [| intros _; apply sends_of_page, page_bind;
                        [| intros _; apply page_showStatus]].
  - unfold setAuthenticatedUser.
    apply sends_bind;
      [intros w; exists []; rewrite run_modify, app_nil_r; now destruct w |].
    intros _.
    do 3 (apply sends_bind; [apply sends_of_page, page_set_prop | intros _]).
    apply sends_bind; [destruct user; apply sends_of_page; repeat page_step | intros _].
    apply sends_bind; [apply sends_of_page, page_set_prop | intros _].
    apply sends_bind.
    { apply sends_of_page. unfold enableControls, MapPlacesManager.enableControls.
      repeat page_step. }
    intros _. apply sends_bind; [apply sends_of_page, page_gets | intros pm].
    apply sends_bind.
    { destruct pm; [| apply sends_of_page, page_ret].
      unfold when_, MapPlacesManager.loadUserPlaces_started.
      apply sends_bind; [apply sends_of_page, page_gets | intros u].
      destruct (negb u); [apply sends_of_page, page_ret |].
      apply sends_bind; [apply sends_of_page, page_gets | intros ls]. apply sends_send. }
    intros _. apply sends_of_page. unfold toggleSidebar, getElementById.
    apply page_bind; [apply page_gets | intros [e |]]; [| apply page_throw].
    destruct (_ || _); repeat page_step.
  - unfold closeAuthModal, getElementById.
    apply page_bind; [apply page_gets | intros [m |]]; [| apply page_ret].
    destruct (negb (class_contains "active" m)); repeat page_step.
Qed.

(** X29. Signing in asks for the profile with the new token. When the
    login endpoint answers with a token and the profile is not in the
    cache, the second request of [handleLogin] is [GET /auth/me] with the
    header [Authorization: Bearer <token>] of the token just received; when
    it is answered, the user it names is the current user and the token is
    held and stored. *)
Theorem sign_in_fetches_the_profile_with_the_new_token
    writable login_reply me_reply w ee pe status text response t status' text' user :
  dom w !! "loginEmail" = Some ee ->
  validateEmail (Js.trim (el_value ee)) = true ->
  dom w !! "loginPassword" = Some pe ->
  el_value pe <> EmptyString ->
  is_Some (dom w !! "statusMessage") ->
  Config.RATE_LIMIT c !! "general" = None ->
  outcome login_reply = Responds status text (inr response) ->
  response_ok status = true ->
  Js.prop "access_token" response = Some (Js.JStr t) ->
  t <> EmptyString ->
  cache w !! APIClient.cacheKey "GET" (Config.getEndpoint c "/auth/me") APIClient.DNull = None ->
  outcome me_reply = Responds status' text' (inr user) ->
  response_ok status' = true ->
  let w' := world_after (handleLogin c writable login_reply me_reply) w in
  currentUser w' = Some user /\ authToken w' = Some t /\ ls_token (storage w') = Some t /\
  exists req,
    net_log w' !! S (length (net_log w)) = Some req /\
    fr_url req = Config.getEndpoint c "/auth/me" /\ fr_method req = "GET" /\
    fr_headers req !! "Authorization" = Some ("Bearer " ++ t).
Proof.
  intros He Hvalid Hp Hpw Hst Hgen Hout Hok Htok Ht Hmiss Hout' Hok'.
  cbv zeta. unfold world_after.
  destruct (handleLogin_token c writable login_reply me_reply w ee pe status text response t)
    as (w3 & -> & K3 & C3 & A3 & T3' & U3 & N3); try assumption.
  rewrite try_catch_bind. unfold APIClient.get.
  cbn [APIClient.query_string map Js.join String.eqb].
  destruct (request_ok c "GET" "/auth/me" APIClient.DNull ∅ me_reply w3 status' text' user)
    as (R1 & _ & R3 & _ & R5 & _ & _ & R8);
    [now apply unlimited | unfold APIClient.cache_hit; now rewrite C3, Hmiss
    | exact Hout' | exact Hok' |].
  destruct (APIClient.request c "GET" "/auth/me" APIClient.DNull ∅ me_reply w3) as [res w4].
  cbn [fst snd] in *. subst res.
  destruct (welcome_session c writable user w4) as (H1 & H2 & H3).
  destruct (sends_welcome writable user w4) as [extra Hextra].
  cbv zeta in *. rewrite H1, H2, H3, R3, R5, A3, T3'. rewrite A3 in R8.
  split; [reflexivity |]. split; [reflexivity |]. split; [reflexivity |].
  exists (APIClient.build_config "GET" APIClient.DNull ∅ (Some t)
            (Config.getEndpoint c "/auth/me")).
  split; [| split; [reflexivity | split; [reflexivity |]]].
  - rewrite Hextra, R8, <- app_assoc, <- N3. now apply list_lookup_middle.
  - unfold APIClient.build_config, APIClient.with_auth.
    cbn [APIClient.data_truthy andb fr_headers].
    destruct (String.eqb_spec t EmptyString) as [? | _]; [contradiction |].
    apply lookup_insert_eq.
Qed.

End Welcome.

(** ** The properties above, run on a page *)

Lemma cached_profile_is_served_after_login_witness :
  let key := APIClient.cacheKey "GET" (Config.getEndpoint Example.dev "/auth/me")
               APIClient.DNull in
  cache Scenario.bob_at_the_form !! key = Some (CacheEntry Example.alice 1700000000120) /\
  currentUser (world_after
                 (TravelMateApp.handleLogin Example.dev true Scenario.bob_token
                    (Example.ok_reply Scenario.bob)) Scenario.bob_at_the_form)
  = Some Example.alice.
Proof.
  split; [vm_compute; reflexivity |].
  refine (proj1 (cached_profile_is_served_after_login Example.dev true Scenario.bob_token
                   (Example.ok_reply Scenario.bob) Scenario.bob_at_the_form
                   (Example.input "bob@example.org") (Example.input "hunter22")
                   200 "OK"
                   (Js.JObj [("access_token", Js.JStr "eyJhbGciOiJIUzI1NiJ9.e30.bob");
                             ("token_type", Js.JStr "bearer")])
                   "eyJhbGciOiJIUzI1NiJ9.e30.bob" Example.alice 1700000000120
                   _ _ _ _ _ _ _ _ _ _ _));
    try (vm_compute; reflexivity).
  - vm_compute. discriminate.
  - vm_compute. eexists. reflexivity.
Defined.

Lemma token_outlives_failed_profile_call_witness :
  let w' := world_after
              (TravelMateApp.handleLogin Example.dev true Example.token_reply
                 Example.server_error) Example.padded_login in
  fails Example.server_error = true /\
  ls_token (storage w') = Some "eyJhbGciOiJIUzI1NiJ9.e30.abc" /\
  authToken w' = Some "eyJhbGciOiJIUzI1NiJ9.e30.abc" /\
  currentUser w' = currentUser Example.padded_login.
Proof.
  split; [reflexivity |].
  refine (token_outlives_failed_profile_call Example.dev true Example.token_reply
            Example.server_error Example.padded_login
            (Example.input " alice@example.org") (Example.input "secret1")
            200 "OK"
            (Js.JObj [("access_token", Js.JStr "eyJhbGciOiJIUzI1NiJ9.e30.abc");
                      ("token_type", Js.JStr "bearer")])
            "eyJhbGciOiJIUzI1NiJ9.e30.abc" _ _ _ _ _ _ _ _ _ _ _);
    try (vm_compute; reflexivity).
  - vm_compute. discriminate.
  - vm_compute. eexists. reflexivity.
Defined.

Lemma sign_in_fetches_the_profile_with_the_new_token_witness :
  let w' := world_after
              (TravelMateApp.handleLogin Example.dev true Example.token_reply
                 (Example.ok_reply Example.alice)) Example.padded_login in
  net_log Example.padded_login = [] /\
  currentUser w' = Some Example.alice /\
  exists req,
    net_log w' !! 1%nat = Some req /\
    fr_url req = Config.getEndpoint Example.dev "/auth/me" /\ fr_method req = "GET" /\
    fr_headers req !! "Authorization" = Some "Bearer eyJhbGciOiJIUzI1NiJ9.e30.abc".
Proof.
  split; [reflexivity |].
  destruct (sign_in_fetches_the_profile_with_the_new_token Example.dev true
              Example.token_reply (Example.ok_reply Example.alice) Example.padded_login
              (Example.input " alice@example.org") (Example.input "secret1")
              200 "OK"
              (Js.JObj [("access_token", Js.JStr "eyJhbGciOiJIUzI1NiJ9.e30.abc");
                        ("token_type", Js.JStr "bearer")])
              "eyJhbGciOiJIUzI1NiJ9.e30.abc" 200 "OK" Example.alice)
    as (H1 & _ & _ & H4); try (vm_compute; reflexivity).
  - vm_compute. discriminate.
  - vm_compute. eexists. reflexivity.
  - vm_compute. discriminate.
  - split; [exact H1 | exact H4].
Defined.

Lemma short_name_or_password_stops_registration_witness :
  let r := TravelMateApp.handleRegister Example.dev true (Example.ok_reply Example.alice)
             Scenario.short_name_form in
  dom Scenario.short_name_form !! "registerName" = Some (Example.input "A") /\
  r.1 = inr tt /\ net_log r.2 = net_log Scenario.short_name_form.
Proof.
  split; [vm_compute; reflexivity |].
  destruct (short_name_or_password_stops_registration Example.dev true
              (Example.ok_reply Example.alice) Scenario.short_name_form
              (Example.input "A") (Example.input "a@example.org") (Example.input "secret1")
              Example.blank)
    as (H1 & H2 & _); try (vm_compute; reflexivity).
  split; assumption.
Defined.

Lemma closing_the_dialog_wipes_the_form_witness :
  dom Scenario.dialog_open !! "loginPassword" = Some (Example.input "secret1") /\
  map_Forall (fun _ e => el_modal_input e = true -> el_value e = EmptyString)
    (dom (TravelMateApp.closeAuthModal Scenario.dialog_open).2).
Proof.
  split; [vm_compute; reflexivity |].
  refine (proj1 (closing_the_dialog_wipes_the_form Scenario.dialog_open
                   (class_add "active" Example.blank) _ _));
    vm_compute; reflexivity.
Defined.

Lemma at_most_one_start_marker_witness :
  start_marker_unique Example.planning /\
  start_marker_unique
    (world_after (TravelMateApp.setStartPoint (452671 # 10000) (198335 # 10000))
       Example.planning).
Proof.
  assert (start_marker_unique Example.planning) as H.
  { apply map_Forall_to_list. vm_compute. repeat (constructor; [intros _; reflexivity |]).
    constructor. }
  split; [exact H |].
  exact (proj1 (at_most_one_start_marker (452671 # 10000) (198335 # 10000)
                  Example.planning H)).
Defined.

Lemma removing_an_end_point_removes_the_line_witness :
  let a := RoutePoints.clearStartPoint Example.with_route in
  routeLine Example.with_route = Some 1%nat /\
  a.1 = inr tt /\ routeLine a.2 = None /\ endPoint a.2 = Some Example.novi_sad.
Proof.
  split; [reflexivity |].
  destruct (removing_an_end_point_removes_the_line Example.with_route)
    as ((H1 & _ & _ & H4 & H5 & _) & _);
    try (vm_compute; eexists; reflexivity).
  repeat split; assumption.
Defined.

Lemma router_refuses_map_points_witness :
  let w := set_currentUser (Some Example.alice) Example.loaded in
  MapPlacesManager.user_signed_in w = true /\
  net_log (Features.calculateRealRoute Example.dev true Example.no_geometry
             (world_after (TravelMateApp.setStartPoint (448176 # 10000) (204633 # 10000)) w)).2
  = net_log w.
Proof.
  split; [reflexivity |].
  pose proof (router_refuses_map_points Example.dev true Example.no_geometry
                (448176 # 10000) (204633 # 10000)
                (set_currentUser (Some Example.alice) Example.loaded) eq_refl) as H.
  cbv zeta in H. apply Forall_cons_1 in H as [(H & _) _]. exact H.
Defined.

Lemma route_of_map_points_is_saved_without_coordinates_witness :
  let r := SavedRoutes.createRoute Example.dev true (Example.ok_reply Example.alice)
             Scenario.naming_the_route in
  startPoint Scenario.naming_the_route
  = Some (LatLng (448176 # 10000) (204633 # 10000)) /\
  exists req,
    net_log r.2 !! length (net_log Scenario.naming_the_route) = Some req /\
    fr_url req = Config.getEndpoint Example.dev "/routes/" /\
    fr_method req = "POST" /\
    fr_body req
    = SentText (Js.stringify
                  (Js.JObj [("name", Js.JStr "Trip"); ("description", Js.JStr EmptyString);
                            ("start_point", Js.JObj []); ("end_point", Js.JObj [])])).
Proof.
  split; [vm_compute; reflexivity |].
  refine (route_of_map_points_is_saved_without_coordinates Example.dev true
            (Example.ok_reply Example.alice) Scenario.naming_the_route
            (448176 # 10000) (204633 # 10000) (452671 # 10000) (198335 # 10000) "Trip"
            _ _ _ _ _ _ _);
    try (vm_compute; reflexivity).
  - vm_compute. lia.
  - vm_compute. eexists. reflexivity.
Defined.

Lemma short_query_is_not_searched_witness :
  let r := Search.searchPlace Example.dev true (fun s => s)
             (Example.ok_reply Scenario.found) (Scenario.searching "B") in
  Search.trimmed_value "searchInput" (Scenario.searching "B") = Some "B" /\
  net_log r.2 = net_log (Scenario.searching "B") /\
  storage r.2 = storage (Scenario.searching "B").
Proof.
  split; [vm_compute; reflexivity |].
  destruct (short_query_is_not_searched Example.dev true (fun s => s)
              (Example.ok_reply Scenario.found) (Scenario.searching "B"))
    as (H1 & H2 & _); [vm_compute; reflexivity |].
  split; assumption.
Defined.

Lemma found_place_is_cleared_with_the_map_witness :
  let w := Scenario.searching " Belgrade " in
  let r := Search.searchPlace Example.dev true (fun s => s)
             (Example.ok_reply Scenario.found) w in
  Search.trimmed_value "searchInput" w = Some "Belgrade" /\
  r.1 = inr tt /\
  layers r.2 = <[1%nat := Layer Marker [(448176 # 10000, 204633 # 10000)] EmptyString None]>
                 (layers w) /\
  markers r.2 = [1%nat] /\
  layers (TravelMateApp.clearMap r.2).2 !! 1%nat = None.
Proof.
  split; [vm_compute; reflexivity |].
  destruct (found_place_is_cleared_with_the_map Example.dev true (fun s => s)
              (Example.ok_reply Scenario.found) (Scenario.searching " Belgrade ")
              "Belgrade" Scenario.found
              (Js.JObj [("latitude", Js.JNum (448176 # 10000));
                        ("longitude", Js.JNum (204633 # 10000));
                        ("display_name", Js.JStr "Belgrade, Serbia")])
              [Js.JObj [("latitude", Js.JNum (394601 # 10000));
                        ("longitude", Js.JNum (-809584 # 10000));
                        ("display_name", Js.JStr "Belgrade, Montana")]]
              (448176 # 10000) (204633 # 10000))
    as (H1 & H2 & H3 & _ & H5); try (vm_compute; reflexivity).
  - vm_compute. lia.
  - vm_compute. eexists. reflexivity.
  - repeat split; assumption.
Defined.

Lemma unread_answer_keeps_the_markers_witness :
  let reply : net_reply (list place) := NetReply 5 (Rejects (Js.TypeError "Failed to fetch")) in
  let a := MapPlacesManager.loadUserPlaces Example.dev reply Example.with_places in
  fails reply = true /\ a.1 = inr tt /\ layers a.2 = layers Example.with_places.
Proof.
  split; [reflexivity |].
  destruct (unread_answer_keeps_the_markers Example.dev
              (NetReply 5 (Rejects (Js.TypeError "Failed to fetch"))) Example.with_places
              eq_refl) as ((H1 & H2 & _) & _).
  split; assumption.
Defined.

Lemma public_places_are_added_witness :
  let r := MapPlacesManager.loadPublicPlaces Example.dev
             (Example.places_reply [Example.bakery]) Example.with_places in
  last_stamp Example.with_places = 2%nat /\
  r.1 = inr tt /\
  layers r.2 !! 3%nat = Some (MapPlacesManager.public_marker Example.bakery) /\
  layers r.2 !! 1%nat = Some (MapPlacesManager.place_marker Example.fortress).
Proof.
  split; [reflexivity |].
  destruct (public_places_are_added Example.dev (Example.places_reply [Example.bakery])
              Example.with_places 200 "OK" [Example.bakery] eq_refl eq_refl)
    as (H1 & _ & _ & H4 & H5 & _).
  { apply map_Forall_to_list. vm_compute. repeat constructor. }
  split; [exact H1 |]. split.
  - exact (H4 0%nat Example.bakery eq_refl).
  - apply H5. vm_compute. reflexivity.
Defined.

Lemma no_token_no_validation_witness :
  let r := TravelMateApp.checkAuthStatus Example.dev (Example.ok_reply Example.alice)
             Example.loaded in
  ls_token (storage Example.loaded) = None /\
  net_log r.2 = net_log Example.loaded /\ currentUser r.2 = None.
Proof.
  split; [reflexivity |].
  destruct (no_token_no_validation Example.dev (Example.ok_reply Example.alice)
              Example.loaded eq_refl) as (H1 & _ & H3 & _).
  split; assumption.
Defined.


(** * Signing out twice *)

(** ** Code that keeps the elements of the page *)

Lemma same_ids_refl w : same_ids w w.
Proof. now intros id. Qed.

Lemma same_ids_trans w1 w2 w3 : same_ids w1 w2 -> same_ids w2 w3 -> same_ids w1 w3.
Proof. intros H12 H23 id. etransitivity; [apply H23 | apply H12]. Qed.

Lemma ids_ret {A} (a : A) : keeps_ids (mret a : M A).
Proof. intros w. apply same_ids_refl. Qed.

Lemma ids_throw {A} e : keeps_ids (throw e : M A).
Proof. intros w. apply same_ids_refl. Qed.

Lemma ids_gets {A} (f : world -> A) : keeps_ids (gets f).
Proof. intros w. apply same_ids_refl. Qed.

Lemma ids_bind {A B} (m : M A) (f : A -> M B) :
  keeps_ids m -> (forall a, keeps_ids (f a)) -> keeps_ids (m ≫= f).
Proof.
  intros Hm Hf w. rewrite run_bind. specialize (Hm w).
  destruct (m w) as [[e | a] w1]; cbn [fst snd] in *; [exact Hm |].
  eapply same_ids_trans; [exact Hm | apply Hf].
Qed.

Lemma ids_when b (m : M unit) : keeps_ids m -> keeps_ids (when_ b m).
Proof. intros Hm. destruct b; [exact Hm | apply ids_ret]. Qed.

Lemma ids_forEach {A} (xs : list A) (body : A -> M unit) :
  (forall x, keeps_ids (body x)) -> keeps_ids (forEach xs body).
Proof.
  intros Hbody. induction xs as [| x xs IH]; simpl.
  - apply ids_ret.
  - apply ids_bind; [apply Hbody | intros _; exact IH].
Qed.

Lemma ids_modify (f : world -> world) :
  (forall w, dom (f w) = dom w) -> keeps_ids (modify f).
Proof. intros Hf w id. rewrite run_modify. cbn [snd]. now rewrite Hf. Qed.

Lemma ids_insert id (e : element) w :
  is_Some (dom w !! id) -> same_ids w (set_dom (<[id := e]> (dom w)) w).
Proof.
  intros Hid k. change (dom (set_dom ?d _)) with d.
  rewrite lookup_insert_is_Some. split.
  - intros [<- | [_ Hk]]; assumption.
  - intros Hk. destruct (decide (id = k)); [now left | now right].
Qed.

Lemma ids_set_prop id f : keeps_ids (set_prop id f).
Proof.
  intros w. rewrite set_prop_run.
  destruct (dom w !! id) as [e |] eqn:He; cbn [snd]; [| apply same_ids_refl].
  apply ids_insert. now rewrite He.
Qed.

Lemma ids_set_prop_if_present id f : keeps_ids (set_prop_if_present id f).
Proof.
  intros w. unfold set_prop_if_present, getElementById. rewrite run_bind, run_gets.
  cbn [fst snd].
  destruct (dom w !! id) as [e |] eqn:He; [| apply same_ids_refl].
  rewrite run_modify. cbn [snd]. apply ids_insert. now rewrite He.
Qed.

Lemma ids_set_prop_all sel f : keeps_ids (set_prop_all sel f).
Proof.
  intros w id. unfold set_prop_all. rewrite run_modify. cbn [snd].
  change (dom (set_dom ?d _)) with d. now rewrite lookup_fmap, fmap_is_Some.
Qed.

Lemma ids_showStatus message type : keeps_ids (showStatus message type).
Proof. apply ids_set_prop. Qed.

Lemma ids_removeLayer id : keeps_ids (L.removeLayer id).
Proof. apply ids_modify. reflexivity. Qed.

Lemma ids_removeLayer_opt slot : keeps_ids (L.removeLayer_opt slot).
Proof. destruct slot; [apply ids_removeLayer | apply ids_ret]. Qed.

Lemma ids_set_addPlaceMode b : keeps_ids (MapPlacesManager.set_addPlaceMode b).
Proof. apply ids_modify. intros w. now destruct (placesManager w). Qed.

Lemma ids_hideStatusMessage : keeps_ids MapPlacesManager.hideStatusMessage.
Proof. apply ids_throw. Qed.

Create HintDb ids discriminated.

#[local] Hint Resolve ids_ret ids_throw ids_gets ids_when ids_forEach ids_set_prop
  ids_set_prop_if_present ids_set_prop_all ids_showStatus ids_removeLayer
  ids_removeLayer_opt ids_set_addPlaceMode ids_hideStatusMessage : ids.
#[local] Hint Extern 1 (keeps_ids (modify _)) =>
  apply ids_modify; intros ?; reflexivity : ids.

Ltac ids_step :=
  first [ solve [auto with ids]
        | apply ids_when
        | apply ids_forEach; intros ?
        | apply ids_bind; [| intros ?] ].

Lemma ids_checkRouteReady : keeps_ids TravelMateApp.checkRouteReady.
Proof. unfold TravelMateApp.checkRouteReady. repeat ids_step. Qed.

#[local] Hint Resolve ids_checkRouteReady : ids.

Lemma ids_clearRouteDisplay : keeps_ids TravelMateApp.clearRouteDisplay.
Proof. unfold TravelMateApp.clearRouteDisplay. repeat ids_step. Qed.

#[local] Hint Resolve ids_clearRouteDisplay : ids.

Lemma ids_clearMap : keeps_ids TravelMateApp.clearMap.
Proof. unfold TravelMateApp.clearMap. repeat ids_step. Qed.

Lemma ids_showGuestMode : keeps_ids TravelMateApp.showGuestMode.
Proof.
  unfold TravelMateApp.showGuestMode, TravelMateApp.disableControls,
    MapPlacesManager.disableControls.
  repeat ids_step.
Qed.

Lemma ids_removeToken : keeps_ids TravelMateApp.removeToken.
Proof. unfold TravelMateApp.removeToken. apply ids_modify. reflexivity. Qed.

#[local] Hint Resolve ids_clearMap ids_showGuestMode ids_removeToken : ids.

(** ** Code that leaves the places manager alone *)

Lemma manager_ret {A} (a : A) : keeps_places_manager (mret a : M A).
Proof. now intros w. Qed.

Lemma manager_gets {A} (f : world -> A) : keeps_places_manager (gets f).
Proof. now intros w. Qed.

Lemma manager_bind {A B} (m : M A) (f : A -> M B) :
  keeps_places_manager m -> (forall a, keeps_places_manager (f a)) ->
  keeps_places_manager (m ≫= f).
Proof.
  intros Hm Hf w. rewrite run_bind. specialize (Hm w).
  destruct (m w) as [[e | a] w1]; cbn [fst snd] in *; [exact Hm |].
  now rewrite Hf.
Qed.

Lemma manager_forEach {A} (xs : list A) (body : A -> M unit) :
  (forall x, keeps_places_manager (body x)) -> keeps_places_manager (forEach xs body).
Proof.
  intros Hbody. induction xs as [| x xs IH]; simpl.
  - apply manager_ret.
  - apply manager_bind; [apply Hbody | intros _; exact IH].
Qed.

Lemma manager_modify (f : world -> world) :
  (forall w, placesManager (f w) = placesManager w) -> keeps_places_manager (modify f).
Proof. intros Hf w. rewrite run_modify. apply Hf. Qed.

Lemma manager_set_prop id f : keeps_places_manager (set_prop id f).
Proof. intros w. rewrite set_prop_run. now destruct (dom w !! id). Qed.

Lemma manager_set_prop_if_present id f : keeps_places_manager (set_prop_if_present id f).
Proof.
  intros w. unfold set_prop_if_present, getElementById. rewrite run_bind, run_gets.
  cbn [fst snd]. now destruct (dom w !! id).
Qed.

Lemma manager_set_prop_all sel f : keeps_places_manager (set_prop_all sel f).
Proof. now intros w. Qed.

Create HintDb manager discriminated.

#[local] Hint Resolve manager_ret manager_gets manager_forEach manager_set_prop
  manager_set_prop_if_present manager_set_prop_all : manager.
#[local] Hint Extern 1 (keeps_places_manager (modify _)) =>
  apply manager_modify; intros ?; reflexivity : manager.

Ltac manager_step :=
  first [ solve [auto with manager]
        | apply manager_forEach; intros ?
        | apply manager_bind; [| intros ?] ].

(** ** Code that fails *)

Lemma preserves_lacks {A} id (m : M A) : keeps_ids m -> preserves (lacks id) m.
Proof.
  intros Hm w Hw. unfold lacks in *. specialize (Hm w id).
  apply eq_None_not_Some. rewrite Hm, Hw. now intros [? ?].
Qed.

Lemma preserves_mode {A} (m : M A) : keeps_places_manager m -> preserves in_add_mode m.
Proof.
  intros Hm w Hw. unfold in_add_mode, MapPlacesManager.in_addPlaceMode in *.
  now rewrite Hm.
Qed.

Lemma fails_bind_l {A B} (P : world -> Prop) (m : M A) (f : A -> M B) :
  fails_when P m -> fails_when P (m ≫= f).
Proof.
  intros Hm w Hw. specialize (Hm w Hw). unfold threw in *. rewrite run_bind.
  now destruct (m w) as [[e | a] w1].
Qed.

Lemma fails_bind_r {A B} (P : world -> Prop) (m : M A) (f : A -> M B) :
  preserves P m -> (forall a, fails_when P (f a)) -> fails_when P (m ≫= f).
Proof.
  intros Hm Hf w Hw. specialize (Hm w Hw). unfold threw. rewrite run_bind.
  destruct (m w) as [[e | a] w1]; cbn [fst snd] in *; [reflexivity |].
  exact (Hf a w1 Hm).
Qed.

Lemma fails_set_prop id f : fails_when (lacks id) (set_prop id f).
Proof. intros w Hw. unfold lacks in Hw. now rewrite set_prop_run, Hw. Qed.

Lemma fails_showStatus message type :
  fails_when (lacks "statusMessage") (showStatus message type).
Proof. apply fails_set_prop. Qed.

(** Past an element that is there, or code that keeps the page, to the
    place where the missing element is written to. *)
Ltac past_kept :=
  lazymatch goal with
  | |- fails_when _ (_ ≫= _) =>
      apply fails_bind_r; [apply preserves_lacks; solve [repeat ids_step] | intros ?]
  end.

Ltac fails_without_step :=
  first [ apply fails_set_prop
        | apply fails_showStatus
        | apply fails_bind_l; solve [apply fails_set_prop | apply fails_showStatus]
        | past_kept ].

Lemma showGuestMode_fails_without id :
  id ∈ ["loginBtn"; "registerBtn"; "userMenu"; "guestBanner"] ->
  fails_when (lacks id) TravelMateApp.showGuestMode.
Proof.
  intros Hin. unfold TravelMateApp.showGuestMode.
  repeat (apply elem_of_cons in Hin as [-> | Hin]); [.. | now apply elem_of_nil in Hin];
    repeat fails_without_step.
Qed.

Lemma checkRouteReady_fails_without id :
  id ∈ ["createRouteBtn"; "realRouteBtn"] ->
  fails_when (lacks id) TravelMateApp.checkRouteReady.
Proof.
  intros Hin. unfold TravelMateApp.checkRouteReady.
  repeat (apply elem_of_cons in Hin as [-> | Hin]); [.. | now apply elem_of_nil in Hin];
    repeat fails_without_step.
Qed.

Lemma clearRouteDisplay_fails_without id :
  id ∈ ["createRouteBtn"; "realRouteBtn"] ->
  fails_when (lacks id) TravelMateApp.clearRouteDisplay.
Proof.
  intros Hin. unfold TravelMateApp.clearRouteDisplay.
  repeat past_kept.
  now apply checkRouteReady_fails_without.
Qed.

(** In add-place mode the places manager calls [hideStatusMessage]. *)
Lemma places_disableControls_fails : fails_when in_add_mode MapPlacesManager.disableControls.
Proof.
  unfold MapPlacesManager.disableControls.
  apply fails_bind_r; [apply preserves_mode; manager_step |]. intros _ w Hw.
  rewrite run_bind, run_gets. cbn [fst snd]. rewrite Hw. reflexivity.
Qed.

Lemma disableControls_fails : fails_when in_add_mode TravelMateApp.disableControls.
Proof.
  unfold TravelMateApp.disableControls.
  do 2 (apply fails_bind_r; [apply preserves_mode; repeat manager_step | intros ?]).
  intros w Hw. rewrite run_bind, run_gets. cbn [fst snd].
  assert (TravelMateApp.has_places_manager w = true) as ->.
  { unfold in_add_mode, MapPlacesManager.in_addPlaceMode in Hw.
    unfold TravelMateApp.has_places_manager. now destruct (placesManager w). }
  exact (places_disableControls_fails w Hw).
Qed.

Lemma showGuestMode_fails_in_add_mode : fails_when in_add_mode TravelMateApp.showGuestMode.
Proof.
  unfold TravelMateApp.showGuestMode.
  do 6 (apply fails_bind_r; [apply preserves_mode; repeat manager_step | intros ?]).
  apply disableControls_fails.
Qed.

(** ** The [try] block of [logout] *)

Abbreviation logout_try :=
  (TravelMateApp.removeToken ;;
   TravelMateApp.showGuestMode ;;
   TravelMateApp.clearRouteDisplay ;;
   TravelMateApp.clearMap ;;
   showStatus "You have been signed out" "info").

Lemma logout_try_fails_without id :
  id ∈ SignedOut.needed -> fails_when (lacks id) logout_try.
Proof.
  intros Hin. unfold SignedOut.needed in Hin.
  apply fails_bind_r; [apply preserves_lacks; solve [repeat ids_step] | intros _].
  destruct (decide (id ∈ ["loginBtn"; "registerBtn"; "userMenu"; "guestBanner"]))
    as [Hguest | Hguest];
    [apply fails_bind_l; now apply showGuestMode_fails_without |].
  apply fails_bind_r; [apply preserves_lacks; solve [repeat ids_step] | intros _].
  destruct (decide (id ∈ ["createRouteBtn"; "realRouteBtn"])) as [Hroute | Hroute];
    [apply fails_bind_l; now apply clearRouteDisplay_fails_without |].
  apply fails_bind_r; [apply preserves_lacks; solve [repeat ids_step] | intros _].
  repeat (apply elem_of_cons in Hin as [-> | Hin]); [.. | now apply elem_of_nil in Hin];
    try (exfalso; apply Hguest; set_solver);
    try (exfalso; apply Hroute; set_solver).
  apply fails_bind_r; [apply preserves_lacks; solve [repeat ids_step] | intros _].
  apply fails_showStatus.
Qed.

Lemma logout_try_fails_in_add_mode : fails_when in_add_mode logout_try.
Proof.
  apply fails_bind_r; [apply preserves_mode | intros _].
  - unfold TravelMateApp.removeToken. apply manager_modify. reflexivity.
  - apply fails_bind_l, showGuestMode_fails_in_add_mode.
Qed.

(** What the [try] block leaves alone, however far it gets. *)
Lemma logout_try_kept w :
  let r := logout_try w in
  clock r.2 = clock w /\ net_log r.2 = net_log w /\
  storage r.2 = set_ls_token None (storage w) /\ reloads r.2 = reloads w.
Proof.
  cbv zeta. unfold TravelMateApp.removeToken.
  rewrite run_bind, run_modify. cbn [fst snd].
  set (w1 := set_storage (set_ls_token None (storage w)) w).
  assert (clock w1 = clock w /\ net_log w1 = net_log w /\
          storage w1 = set_ls_token None (storage w) /\ reloads w1 = reloads w)
    as (<- & <- & <- & <-) by (subst w1; now destruct w).
  clearbody w1. clear w.
  rewrite run_bind.
  assert (let w2 := (TravelMateApp.showGuestMode w1).2 in
          clock w2 = clock w1 /\ net_log w2 = net_log w1 /\
          storage w2 = storage w1 /\ reloads w2 = reloads w1) as Hguest.
  { unfold TravelMateApp.showGuestMode.
    rewrite run_bind, run_modify. cbn [fst snd]. rewrite run_bind, run_modify. cbn [fst snd].
    match goal with |- context [(?m (set_authToken None ?w0)).2] =>
      assert (touches_ui_only m) as Hui by (repeat ui_step);
      specialize (Hui (set_authToken None w0));
      destruct (m (set_authToken None w0)) as [r w2]
    end.
    cbn [snd] in *. unfold ui_only in Hui. rewrite Hui. now destruct w1. }
  destruct (TravelMateApp.showGuestMode w1) as [[e | []] w2]; cbn [fst snd] in *;
    [exact Hguest |].
  destruct Hguest as (<- & <- & <- & <-).
  match goal with |- context [(?m w2)] =>
    assert (touches_page_only m) as Hpage by (repeat page_step);
    destruct (Hpage w2) as (P1 & P2 & P3 & P4 & _)
  end.
  now rewrite P1, P2, P3, P4.
Qed.

(** [logout] returns normally; it asks for a reload when its [try] block
    threw, and only then. *)
Lemma logout_kept w :
  let r := TravelMateApp.logout w in
  r.1 = inr tt /\ clock r.2 = clock w /\ net_log r.2 = net_log w /\
  storage r.2 = set_ls_token None (storage w) /\
  reloads r.2 = (if threw (logout_try w) then S (reloads w) else reloads w).
Proof.
  cbv zeta. unfold TravelMateApp.logout, try_catch, threw.
  destruct (logout_try_kept w) as (K1 & K2 & K3 & K4). cbv zeta in *.
  destruct (logout_try w) as [[e | []] w1]; cbn [fst snd] in *.
  - unfold TravelMateApp.removeToken, TravelMateApp.reload.
    rewrite run_bind, !run_modify. cbn [fst snd].
    rewrite <- K1, <- K2, <- K4.
    assert (set_ls_token None (storage w1) = set_ls_token None (storage w)) as <-
      by (rewrite K3; now destruct (storage w)).
    now destruct w1.
  - now rewrite K1, K2, K3, K4.
Qed.

Lemma needed_cases (d : gmap string element) (ids : list string) :
  Forall (fun id => is_Some (d !! id)) ids \/ exists id, id ∈ ids /\ d !! id = None.
Proof.
  induction ids as [| id ids [IH | (k & Hk & Hnone)]].
  - left. constructor.
  - destruct (d !! id) as [e |] eqn:He.
    + left. constructor; [now rewrite He | exact IH].
    + right. exists id. split; [apply elem_of_cons; now left | exact He].
  - right. exists k. split; [apply elem_of_cons; now right | exact Hnone].
Qed.

Lemma without_layer_gone slot (m : gmap nat layer) (k : nat) :
  slot = Some k \/ m !! k = None -> SignedOut.without_layer slot m !! k = None.
Proof.
  intros [-> | Hno]; [apply lookup_delete_eq |].
  destruct slot as [id |]; [| exact Hno].
  cbn [SignedOut.without_layer]. rewrite lookup_delete_None. now right.
Qed.

Lemma cleared_layers_gone w (k : nat) :
  k ∈ (markers w ++ option_list (routeStartMarker w) ++ option_list (routeEndMarker w)
         ++ option_list (routeLine w))%list ->
  SignedOut.cleared_layers w !! k = None.
Proof.
  intros Hin. unfold SignedOut.cleared_layers. apply foldl_delete_gone.
  apply elem_of_app in Hin as [Hin | Hin]; [now left | right].
  apply elem_of_app in Hin as [Hin | Hin].
  { apply without_layer_gone. right. apply without_layer_gone. right.
    apply without_layer_gone. left.
    destruct (routeStartMarker w); [| now apply elem_of_nil in Hin].
    apply elem_of_cons in Hin as [-> | Hin]; [reflexivity | now apply elem_of_nil in Hin]. }
  apply elem_of_app in Hin as [Hin | Hin].
  { apply without_layer_gone. right. apply without_layer_gone. left.
    destruct (routeEndMarker w); [| now apply elem_of_nil in Hin].
    apply elem_of_cons in Hin as [-> | Hin]; [reflexivity | now apply elem_of_nil in Hin]. }
  apply without_layer_gone. left.
  destruct (routeLine w); [| now apply elem_of_nil in Hin].
  apply elem_of_cons in Hin as [-> | Hin]; [reflexivity | now apply elem_of_nil in Hin].
Qed.

(** ** Two calls in a row *)


(** Signing out of add-place mode, where the heaps of one call and of two
    differ until the browser reloads: the reload is asked for by the first
    call, and the page it leaves is the same. *)
Example logout_twice_from_add_place_mode :
  let once := world_after TravelMateApp.logout Example.adding in
  let twice := world_after TravelMateApp.logout once in
  Reload.asked Example.adding once = true /\
  routeStartMarker once <> routeStartMarker twice /\
  Reload.page_after Example.page [] Example.adding twice
  = Reload.page_after Example.page [] Example.adding once.
Proof.
  cbv zeta. split; [vm_compute; reflexivity |]. split.
  - vm_compute. discriminate.
  - vm_compute. reflexivity.
Qed.
